(** * A2AForge: the agent messaging and dispatch layer, embedded in Rocq

    A shallow embedding of [agents/base_agent.py], [agents/coordinator.py],
    [agents/ec2_agent.py], [agents/s3_agent.py] and of the keyword
    classifiers of [agents/fast_perplexity_client.py] and
    [agents/perplexity_client.py].

    Conventions.
    - A Python [str] is a [string] (a sequence of bytes); [lower] and [strip]
      act on the ASCII range, every other byte is left alone and is neither
      upper case nor white space.
    - A Python [dict] is an association list in insertion order.
    - The cloud provider (boto3), the clock and the remote language model are
      oracles: a record of functions that receive the events so far. *)

From Stdlib Require Import String Ascii List ZArith Lia Bool Arith.
From Stdlib Require Import DecimalString.
Import ListNotations.
Open Scope string_scope.
Open Scope bool_scope.

(* ================================================================== *)
(** ** Python strings *)

(** A text of the model is a [string] of ASCII characters, one per
    character of the Python [str]. On such texts [lower], [strip] and the
    white space of the patterns below are Python's; [str.lower],
    [str.strip] and [\s] also act on characters outside ASCII, which the
    model does not have. A statement that depends on how these act on a
    text says so with [isascii]. *)

(** [s.isascii()] *)
Fixpoint isascii (s : string) : bool :=
  match s with
  | EmptyString => true
  | String c r => Nat.ltb (nat_of_ascii c) 128 && isascii r
  end.

Definition between (lo hi : nat) (c : ascii) : bool :=
  Nat.leb lo (nat_of_ascii c) && Nat.leb (nat_of_ascii c) hi.

(** [c.isspace()] on the ASCII range: TAB..CR, FS..US and the blank. *)
Definition is_space (c : ascii) : bool :=
  between 9 13 c || between 28 32 c.

Definition lower_char (c : ascii) : ascii :=
  if between 65 90 c then ascii_of_nat (nat_of_ascii c + 32) else c.

(** [s.lower()], on ASCII text *)
Fixpoint lower (s : string) : string :=
  match s with
  | EmptyString => EmptyString
  | String c r => String (lower_char c) (lower r)
  end.

Fixpoint lstrip (s : string) : string :=
  match s with
  | EmptyString => EmptyString
  | String c r => if is_space c then lstrip r else s
  end.

Fixpoint rstrip (s : string) : string :=
  match s with
  | EmptyString => EmptyString
  | String c r =>
      match rstrip r with
      | EmptyString => if is_space c then EmptyString else String c EmptyString
      | r' => String c r'
      end
  end.

(** [s.strip()], on ASCII text *)
Definition strip (s : string) : string := rstrip (lstrip s).

(** [s.startswith(p)] *)
Fixpoint startswith (p s : string) : bool :=
  match p, s with
  | EmptyString, _ => true
  | String a p', String b s' => Ascii.eqb a b && startswith p' s'
  | String _ _, EmptyString => false
  end.

(** [needle in hay] for two strings *)
Fixpoint is_in (needle hay : string) : bool :=
  startswith needle hay ||
  match hay with
  | EmptyString => false
  | String _ r => is_in needle r
  end.

(** [any(p(x) for x in xs)] is [existsb p xs]. *)

(** Python truth value of a string *)
Definition truthy (s : string) : bool :=
  match s with EmptyString => false | _ => true end.

(** [not x] for a value that is a string or [None]: both [None] and the
    empty string are false. *)
Definition absent (x : option string) : bool :=
  match x with
  | None => true
  | Some v => negb (truthy v)
  end.

(** The string held by a value that passed [if x]. *)
Definition value_of (x : option string) : string :=
  match x with Some v => v | None => EmptyString end.

(* ================================================================== *)
(** ** Intents and the keyword classifiers *)

(** The dict [{'service': .., 'action': .., 'parameters': {..}}]. *)
Record Intent := mkIntent {
  service : string;
  action : string;
  parameters : list (string * string)
}.

Definition intent (s a : string) : Intent := mkIntent s a [].

(** The compute block shared by both classifiers
    (fast_perplexity_client.py 127-135, perplexity_client.py 146-154):
    [None] stands for falling out of the block without a [return]. *)
Definition ec2_rules (text : string) : option Intent :=
  if is_in "create" text || is_in "launch" text then
    Some (intent "ec2" "create_instance")
  else if is_in "list" text || is_in "show" text then
    Some (intent "ec2" "list_instances")
  else if is_in "stop" text then
    Some (intent "ec2" "stop_instance")
  else if is_in "terminate" text || is_in "delete" text then
    Some (intent "ec2" "terminate_instance")
  else None.

(** fast_perplexity_client.py 138-144 *)
Definition s3_rules_fast (text : string) : option Intent :=
  if is_in "create" text then Some (intent "s3" "create_bucket")
  else if is_in "list" text then Some (intent "s3" "list_buckets")
  else if is_in "delete" text then Some (intent "s3" "delete_bucket")
  else None.

Definition fast_greetings : list string :=
  ["hi"; "hello"; "hey"; "how are you"; "how are u"; "whats up"; "what's up"].

(** [FastPerplexityClient._fast_fallback] *)
Definition _fast_fallback (user_input : string) : Intent :=
  let text := lower user_input in
  match (if is_in "ec2" text || is_in "instance" text
         then ec2_rules text else None) with
  | Some i => i
  | None =>
      match (if is_in "s3" text || is_in "bucket" text
             then s3_rules_fast text else None) with
      | Some i => i
      | None =>
          if existsb (fun g => is_in g text) fast_greetings then
            intent "unknown" "greeting"
          else if is_in "help" text then intent "unknown" "help"
          else intent "unknown" "help"
      end
  end.

(** perplexity_client.py 156-164 *)
Definition s3_rules (text : string) : option Intent :=
  if is_in "create" text then Some (intent "s3" "create_bucket")
  else if is_in "list" text then
    if is_in "object" text || is_in "file" text
    then Some (intent "s3" "list_objects")
    else Some (intent "s3" "list_buckets")
  else if is_in "delete" text then Some (intent "s3" "delete_bucket")
  else None.

Definition greeting_tokens : list string := ["hi"; "hello"; "hey"; "help"].

(** The test of perplexity_client.py 169-170. *)
Definition greeting_shaped (user_input_lower : string) : bool :=
  existsb (fun greeting =>
             String.eqb (strip user_input_lower) greeting
             || startswith (greeting ++ " ") (strip user_input_lower))
          greeting_tokens.

(** The test of perplexity_client.py 171, negated. *)
Definition has_domain_keyword (text : string) : bool :=
  is_in "ec2" text || is_in "s3" text
  || is_in "instance" text || is_in "bucket" text.

(** [PerplexityClient._fallback_parse] *)
Definition _fallback_parse (user_input : string) : Intent :=
  let user_input_lower := lower user_input in
  match (if is_in "ec2" user_input_lower || is_in "instance" user_input_lower
         then ec2_rules user_input_lower
         else if is_in "s3" user_input_lower || is_in "bucket" user_input_lower
         then s3_rules user_input_lower
         else None) with
  | Some i => i
  | None =>
      if greeting_shaped user_input_lower
         && negb (is_in "ec2" user_input_lower)
         && negb (is_in "s3" user_input_lower)
         && negb (is_in "instance" user_input_lower)
         && negb (is_in "bucket" user_input_lower)
      then intent "unknown" "greeting"
      else intent "unknown" "help"
  end.

(* ================================================================== *)
(** ** Python values and dicts *)

Section Dict.
Context {V : Type}.

(** [d.get(k)] on a dict kept in insertion order *)
Fixpoint dict_get (d : list (string * V)) (k : string) : option V :=
  match d with
  | [] => None
  | (k', v) :: r => if String.eqb k k' then Some v else dict_get r k
  end.

(** [d[k] = v]: an existing key keeps its place, a new one goes last. *)
Fixpoint dict_set (d : list (string * V)) (k : string) (v : V)
  : list (string * V) :=
  match d with
  | [] => [(k, v)]
  | (k', v') :: r =>
      if String.eqb k k' then (k, v) :: r else (k', v') :: dict_set r k v
  end.

(** [list(d)]: the keys in iteration order *)
Definition keys (d : list (string * V)) : list string := map fst d.

End Dict.

(** What a payload or a result can be ([Any] in the annotations). *)
#[local] Set Warnings "-register-all".
Inductive pyval : Type :=
| VNone
| VBool (b : bool)
| VInt (z : Z)
| VStr (s : string)
| VList (l : list pyval)
| VDict (d : list (string * pyval)).

Definition dict := list (string * pyval).

(** [type(v).__name__] *)
Definition type_name (v : pyval) : string :=
  match v with
  | VNone => "NoneType"
  | VBool _ => "bool"
  | VInt _ => "int"
  | VStr _ => "str"
  | VList _ => "list"
  | VDict _ => "dict"
  end.

(** [bool(v)] *)
Definition py_bool (v : pyval) : bool :=
  match v with
  | VNone => false
  | VBool b => b
  | VInt z => negb (Z.eqb z 0)
  | VStr s => truthy s
  | VList l => match l with [] => false | _ => true end
  | VDict d => match d with [] => false | _ => true end
  end.

Definition str_of_Z (z : Z) : string := NilZero.string_of_int (Z.to_int z).

(* ================================================================== *)
(** ** Region tables (ec2_agent.py 236-331) *)

Definition region_map : list (string * string) :=
  [ ("virginia", "us-east-1"); ("n. virginia", "us-east-1");
    ("north virginia", "us-east-1"); ("us-east-1", "us-east-1");
    ("ohio", "us-east-2"); ("us-east-2", "us-east-2");
    ("california", "us-west-1"); ("n. california", "us-west-1");
    ("northern california", "us-west-1"); ("us-west-1", "us-west-1");
    ("oregon", "us-west-2"); ("us-west-2", "us-west-2");
    ("ireland", "eu-west-1"); ("eu-west-1", "eu-west-1");
    ("london", "eu-west-2"); ("eu-west-2", "eu-west-2");
    ("paris", "eu-west-3"); ("eu-west-3", "eu-west-3");
    ("frankfurt", "eu-central-1"); ("eu-central-1", "eu-central-1");
    ("stockholm", "eu-north-1"); ("eu-north-1", "eu-north-1");
    ("tokyo", "ap-northeast-1"); ("ap-northeast-1", "ap-northeast-1");
    ("seoul", "ap-northeast-2"); ("ap-northeast-2", "ap-northeast-2");
    ("osaka", "ap-northeast-3"); ("ap-northeast-3", "ap-northeast-3");
    ("singapore", "ap-southeast-1"); ("ap-southeast-1", "ap-southeast-1");
    ("sydney", "ap-southeast-2"); ("ap-southeast-2", "ap-southeast-2");
    ("mumbai", "ap-south-1"); ("ap-south-1", "ap-south-1");
    ("canada", "ca-central-1"); ("central", "ca-central-1");
    ("ca-central-1", "ca-central-1");
    ("sao paulo", "sa-east-1"); ("brazil", "sa-east-1");
    ("sa-east-1", "sa-east-1") ].

(** [EC2Agent._map_region]; [None] is an absent argument. *)
Definition _map_region (region_input : option string) : string :=
  match region_input with
  | None => "us-east-2"
  | Some region_input =>
      if negb (truthy region_input) then "us-east-2"
      else
        let region_lower := strip (lower region_input) in
        match dict_get region_map region_lower with
        | Some code => code
        | None => "us-east-2"
        end
  end.

Definition region_names : list (string * string) :=
  [ ("us-east-1", "N. Virginia"); ("us-east-2", "Ohio");
    ("us-west-1", "N. California"); ("us-west-2", "Oregon");
    ("eu-west-1", "Ireland"); ("eu-west-2", "London");
    ("eu-west-3", "Paris"); ("eu-central-1", "Frankfurt");
    ("eu-north-1", "Stockholm"); ("ap-northeast-1", "Tokyo");
    ("ap-northeast-2", "Seoul"); ("ap-northeast-3", "Osaka");
    ("ap-southeast-1", "Singapore"); ("ap-southeast-2", "Sydney");
    ("ap-south-1", "Mumbai"); ("ca-central-1", "Canada Central");
    ("sa-east-1", "São Paulo") ].

(** [EC2Agent._get_region_name] *)
Definition _get_region_name (region_code : string) : string :=
  match dict_get region_names region_code with
  | Some n => n
  | None => region_code
  end.

(* ================================================================== *)
(** ** Messages, agents and the world (base_agent.py) *)

(** [class Message] *)
Record Message := mkMessage {
  sender : string;
  receiver : string;
  content : pyval;
  msg_type : string;
  timestamp : string;
  id : string
}.

(** [Message.to_dict] *)
Definition to_dict (m : Message) : pyval :=
  VDict [ ("id", VStr (id m)); ("sender", VStr (sender m));
          ("receiver", VStr (receiver m)); ("content", content m);
          ("type", VStr (msg_type m)); ("timestamp", VStr (timestamp m)) ].

(** An agent object is named by its address in the store. *)
Definition ref := nat.

(** The class of an object decides which [handle_message] runs; a
    coordinator also holds [self.ec2_agent] and [self.s3_agent]. *)
Inductive agent_class :=
| BaseAgent
| EC2Agent
| S3Agent
| CoordinatorAgent (ec2_agent s3_agent : ref).

(** [BaseAgent.__init__]'s attributes; the registry maps a peer's name to
    the peer object itself, shared and not copied. *)
Record agent := mkAgent {
  name : string;
  class : agent_class;
  message_queue : list Message;
  agents_registry : list (string * ref);
  conversation_history : list pyval
}.

(** One reading of [datetime.now()], as the two texts the code takes from
    it: [.isoformat()] and the text of [.timestamp()] inside an f-string. *)
Record reading := mkReading {
  isoformat : string;
  timestamp_text : string
}.

(** *** The provider's calls *)

Inductive call :=
| describe_regions
| describe_instances_in (region instance_id : string)
| describe_instances
| describe_instance (instance_id : pyval)
| client_in (region : string)
| describe_images (region pattern : string)
| create_instances (region ami_id instance_type : string)
| stop_instances (region instance_id : string)
| terminate_instances (region instance_id : string)
| create_bucket_call (bucket_name : string) (location : option string)
| list_buckets_call
| delete_bucket_call (bucket_name : string)
| list_objects_v2 (bucket_name : string)
| delete_object (bucket_name key : string)
| head_bucket (bucket_name : pyval)
| parse_request (user_input : string)
| chat_request (user_input : string).

(** What the run has done so far, oldest first: a delivery is an entry of
    [receive_message] on the object, a call is one request to an oracle. *)
Inductive event :=
| Delivered (target : ref) (m : Message)
| Called (c : call).

(** A call returns or raises; [Raised e] carries [str(e)]. *)
Inductive outcome (A : Type) : Type :=
| Returned (a : A)
| Raised (e : string).
Arguments Returned {A} a.
Arguments Raised {A} e.

Record instance_info := mkInstance {
  InstanceId : string;
  InstanceType : string;
  StateName : string;
  LaunchTime : string
}.

Record image_info := mkImage {
  CreationDate : string;
  ImageId : string
}.

Record object_info := mkObject {
  Key : string;
  Size : Z;
  LastModified : string
}.

(** The environment the agents run in. Every oracle sees the events so
    far, so a provider whose answers change with what was done is one of
    them. Client construction and the waiters are folded into the call
    they surround wherever one [try] handles them alike. *)
Record provider := mkProvider {
  now : nat -> reading;
  on_describe_regions : list event -> outcome (list string);
  (** regional client, then [describe_instances(InstanceIds=[id])]:
      how many reservations came back *)
  on_describe_instances_in : list event -> string -> string -> outcome nat;
  on_describe_instances : list event -> outcome (list (list instance_info));
  on_describe_instance :
    list event -> pyval -> outcome (list (list instance_info));
  on_client_in : list event -> string -> outcome unit;
  on_describe_images : list event -> string -> string -> outcome (list image_info);
  (** [create_instances], [wait_until_running], [reload]:
      [instance.id] and [instance.state['Name']] *)
  on_create_instances :
    list event -> string -> string -> string -> outcome (string * string);
  on_stop_instances : list event -> string -> string -> outcome unit;
  on_terminate_instances : list event -> string -> string -> outcome unit;
  s3_region_name : string;
  on_create_bucket : list event -> string -> option string -> outcome unit;
  on_list_buckets : list event -> outcome (list (string * string));
  on_delete_bucket : list event -> string -> outcome unit;
  on_list_objects_v2 : list event -> string -> outcome (option (list object_info));
  on_delete_object : list event -> string -> string -> outcome unit;
  on_head_bucket : list event -> pyval -> outcome unit;
  (** the language model: [api_key] set or not, the intent it parses
      ([None]: any failure), the reply it writes *)
  api_key : bool;
  on_parse : list event -> string -> option Intent;
  on_chat : list event -> string -> option string;
  greeting_reply : string;
  help_reply : string
}.

Record world := mkWorld {
  store : ref -> agent;
  clock_reads : nat;
  trace : list event
}.

(** *** Computations: state passing with Python's exceptions *)

Definition M (A : Type) : Type := world -> outcome A * world.

Definition ret {A} (a : A) : M A := fun w => (Returned a, w).

Definition raise {A} (e : string) : M A := fun w => (Raised e, w).

Definition bind {A B} (m : M A) (k : A -> M B) : M B :=
  fun w =>
    match m w with
    | (Returned a, w') => k a w'
    | (Raised e, w') => (Raised e, w')
    end.

Notation "x <- m ;; k" := (bind m (fun x => k))
  (at level 61, m at next level, right associativity).
Notation "m ;;; k" := (bind m (fun _ => k))
  (at level 61, right associativity).

(** [try: m  except Exception as e: h(e)] *)
Definition try_except {A} (m : M A) (h : string -> M A) : M A :=
  fun w =>
    match m w with
    | (Returned a, w') => (Returned a, w')
    | (Raised e, w') => h e w'
    end.

Definition log (e : event) : M unit :=
  fun w => (Returned tt, mkWorld (store w) (clock_reads w) (trace w ++ [e])).

(** One request to the provider: the oracle answers on the events so far,
    the call is recorded, an error is raised here. *)
Definition request {A} (c : call) (oracle : list event -> outcome A) : M A :=
  fun w =>
    (oracle (trace w), mkWorld (store w) (clock_reads w) (trace w ++ [Called c])).

Definition get_agent (r : ref) : M agent := fun w => (Returned (store w r), w).

(** The store with the object at [r] replaced. *)
Definition update (st : ref -> agent) (r : ref) (a : agent) : ref -> agent :=
  fun r' => if Nat.eqb r' r then a else st r'.

Definition set_agent (r : ref) (a : agent) : M unit :=
  fun w => (Returned tt, mkWorld (update (store w) r a) (clock_reads w) (trace w)).

(** *** Dynamic typing: what a handler asks of a payload *)

(** [v.get(k, default)]: only a dict has [get]. *)
Definition py_get (v : pyval) (k : string) (default : pyval) : M pyval :=
  match v with
  | VDict d => ret (match dict_get d k with Some x => x | None => default end)
  | _ => raise ("'" ++ type_name v ++ "' object has no attribute 'get'")
  end.

(** [v.lower()]: only a str has [lower]. *)
Definition py_lower (v : pyval) : M string :=
  match v with
  | VStr s => ret (lower s)
  | _ => raise ("'" ++ type_name v ++ "' object has no attribute 'lower'")
  end.

(** [v == "literal"] *)
Definition py_eq_str (v : pyval) (s : string) : bool :=
  match v with VStr s' => String.eqb s' s | _ => false end.

(** [r.get(k, [])] on a result of [list_instances] or [list_buckets],
    which is a dict whose entry at [k], when there, is a list. *)
Definition get_list (r : pyval) (k : string) : list pyval :=
  match r with
  | VDict d => match dict_get d k with Some (VList l) => l | _ => [] end
  | _ => []
  end.

Definition error_dict (e : string) : pyval := VDict [("error", VStr e)].

(* ================================================================== *)
(** ** The coordinator's patterns (coordinator.py 221-240) *)

(** [re.search]: the leftmost position at which the pattern matches. *)
Fixpoint search {A} (here : string -> option A) (s : string) : option A :=
  match here s with
  | Some m => Some m
  | None =>
      match s with
      | EmptyString => None
      | String _ r => search here r
      end
  end.

(** The longest prefix of [s] made of at most [n] characters of a class. *)
Fixpoint take_while (f : ascii -> bool) (n : nat) (s : string) : string :=
  match n, s with
  | S n', String c r => if f c then String c (take_while f n' r) else EmptyString
  | _, _ => EmptyString
  end.

Fixpoint drop (n : nat) (s : string) : string :=
  match n, s with
  | S n', String _ r => drop n' r
  | _, _ => s
  end.

(** [[a-f0-9]] *)
Definition is_hex (c : ascii) : bool := between 97 102 c || between 48 57 c.

(** [[a-z0-9]] *)
Definition is_alnum (c : ascii) : bool := between 97 122 c || between 48 57 c.

(** [[a-z0-9\-]] *)
Definition is_alnum_dash (c : ascii) : bool := is_alnum c || Ascii.eqb c "-".

(** [i-[a-f0-9]{8,17}] anchored at the start of [s]; the repetition is
    greedy and nothing follows it. *)
Definition instance_id_here (s : string) : option string :=
  if startswith "i-" s then
    let digits := take_while is_hex 17 (drop 2 s) in
    if Nat.leb 8 (String.length digits) then Some ("i-" ++ digits) else None
  else None.

(** [CoordinatorAgent._extract_instance_id] *)
Definition _extract_instance_id (text : string) : option string :=
  search instance_id_here text.

Fixpoint rstrip_dashes (s : string) : string :=
  match s with
  | EmptyString => EmptyString
  | String c r =>
      match rstrip_dashes r with
      | EmptyString => if Ascii.eqb c "-" then EmptyString else String c EmptyString
      | r' => String c r'
      end
  end.

(** The group [([a-z0-9][a-z0-9\-]{1,61}[a-z0-9])] anchored at the start
    of [s]. The greedy middle part gives back characters until the last
    one is not a dash: of the first 62 characters of the run after the
    first one, the dashes at the end are dropped, and at least two
    characters must remain. *)
Definition name_group (s : string) : option string :=
  match s with
  | EmptyString => None
  | String c0 r =>
      if is_alnum c0 then
        let run := rstrip_dashes (take_while is_alnum_dash 62 r) in
        if Nat.leb 2 (String.length run) then Some (String c0 run) else None
      else None
  end.

(** [\s+] and then the group: the group starts at a character that is
    no white space, so [\s+] takes all of it. *)
Definition spaces_then_name (s : string) : option string :=
  match s with
  | EmptyString => None
  | String c r => if is_space c then name_group (lstrip r) else None
  end.

(** [bucket\s+(..)] *)
Definition after_bucket (s : string) : option string :=
  if startswith "bucket" s then spaces_then_name (drop 6 s) else None.

(** [in\s+(..)] *)
Definition after_in (s : string) : option string :=
  if startswith "in" s then spaces_then_name (drop 2 s) else None.

(** [named?\s+(..)]: a [d] after [name] is no white space, so when it is
    there it is part of the keyword. *)
Definition after_named (s : string) : option string :=
  if startswith "named" s then spaces_then_name (drop 5 s)
  else if startswith "name" s then spaces_then_name (drop 4 s)
  else None.

(** [CoordinatorAgent._extract_bucket_name] *)
Definition _extract_bucket_name (text : string) : option string :=
  let lowered := lower text in
  match search after_bucket lowered with
  | Some m => Some m
  | None =>
      match search after_in lowered with
      | Some m => Some m
      | None => search after_named lowered
      end
  end.

(** [a or b] for two optional strings *)
Definition py_or (a b : option string) : option string :=
  if absent a then b else a.

Section Agents.

Variable P : provider.

(** [Message.__init__]: the clock is read twice, once for [timestamp]
    and once for [id]. *)
Definition Message_init (sender receiver : string) (content : pyval)
    (msg_type : string) : M Message :=
  fun w =>
    let n := clock_reads w in
    (Returned
       (mkMessage sender receiver content msg_type
          (isoformat (now P n))
          (sender ++ "-" ++ receiver ++ "-" ++ timestamp_text (now P (S n)))),
     mkWorld (store w) (S (S n)) (trace w)).

(** *** EC2Agent (ec2_agent.py) *)

Definition instance_dict (i : instance_info) : pyval :=
  VDict [ ("instance_id", VStr (InstanceId i));
          ("instance_type", VStr (InstanceType i));
          ("state", VStr (StateName i));
          ("launch_time", VStr (LaunchTime i)) ].

(** [EC2Agent.list_instances] *)
Definition list_instances : M pyval :=
  try_except
    (response <- request describe_instances (on_describe_instances P);;
     ret (VDict [ ("success", VBool true);
                  ("instances", VList (map instance_dict (concat response))) ]))
    (fun e => ret (error_dict e)).

(** [EC2Agent._get_instance_info] *)
Definition _get_instance_info (instance_id : pyval) : M pyval :=
  try_except
    (response <- request (describe_instance instance_id)
                   (fun t => on_describe_instance P t instance_id);;
     match response with
     | [] => ret (error_dict "Instance not found")
     | [] :: _ => raise "list index out of range"
     | (instance :: _) :: _ =>
         ret (VDict [ ("success", VBool true);
                      ("instance_id", instance_id);
                      ("state", VStr (StateName instance));
                      ("type", VStr (InstanceType instance));
                      ("launch_time", VStr (LaunchTime instance)) ])
     end)
    (fun e => ret (error_dict e)).

(** [EC2Agent._find_instance_region]'s loop: a probe that raises, or that
    comes back with no reservation, moves on to the next region. *)
Fixpoint search_regions (regions : list string) (instance_id : string)
  : M (option string) :=
  match regions with
  | [] => ret None
  | region :: rest =>
      found <- try_except
                 (n <- request (describe_instances_in region instance_id)
                         (fun t => on_describe_instances_in P t region instance_id);;
                  ret (negb (Nat.eqb n 0)))
                 (fun _ => ret false);;
      if found then ret (Some region) else search_regions rest instance_id
  end.

(** [EC2Agent._find_instance_region] *)
Definition _find_instance_region (instance_id : string) : M (option string) :=
  regions <- request describe_regions (on_describe_regions P);;
  search_regions regions instance_id.

(** [EC2Agent.stop_instance] *)
Definition stop_instance (instance_id : string) : M pyval :=
  try_except
    (found <- _find_instance_region instance_id;;
     if absent found then
       ret (error_dict ("Instance " ++ instance_id ++ " not found in any region"))
     else
       let instance_region := value_of found in
       request (stop_instances instance_region instance_id)
         (fun t => on_stop_instances P t instance_region instance_id);;;
       let region_name := _get_region_name instance_region in
       ret (VDict [ ("success", VBool true);
                    ("instance_id", VStr instance_id);
                    ("region", VStr instance_region);
                    ("region_name", VStr region_name);
                    ("message",
                     VStr ("Instance " ++ instance_id ++ " stopped successfully in "
                           ++ region_name ++ " (" ++ instance_region ++ ")")) ]))
    (fun e => ret (error_dict e)).

(** [EC2Agent.terminate_instance] *)
Definition terminate_instance (instance_id : string) : M pyval :=
  try_except
    (found <- _find_instance_region instance_id;;
     if absent found then
       ret (error_dict ("Instance " ++ instance_id ++ " not found in any region"))
     else
       let instance_region := value_of found in
       request (terminate_instances instance_region instance_id)
         (fun t => on_terminate_instances P t instance_region instance_id);;;
       let region_name := _get_region_name instance_region in
       ret (VDict [ ("success", VBool true);
                    ("instance_id", VStr instance_id);
                    ("region", VStr instance_region);
                    ("region_name", VStr region_name);
                    ("message",
                     VStr ("Instance " ++ instance_id ++ " terminated successfully in "
                           ++ region_name ++ " (" ++ instance_region ++ ")")) ]))
    (fun e => ret (error_dict e)).

Definition ami_patterns : list string :=
  [ "al2023-ami-*-x86_64"; "amzn2-ami-hvm-*-x86_64-gp2";
    "ubuntu/images/hvm-ssd/ubuntu-*-amd64-server-*" ].

Definition fallback_amis : list (string * string) :=
  [ ("us-east-1", "ami-0c55b159cbfafe1f0"); ("us-east-2", "ami-0c55b159cbfafe1f0");
    ("us-west-1", "ami-0d1cd67c26f5fca19"); ("us-west-2", "ami-0d1cd67c26f5fca19");
    ("eu-west-1", "ami-0d71ea30463e0ff8d"); ("eu-west-2", "ami-0d71ea30463e0ff8d");
    ("ap-southeast-1", "ami-0c802847a7dd848c0") ].

(** [sorted(images, key=CreationDate, reverse=True)[0]]: the first image
    among those with the latest date (the sort is stable). *)
Fixpoint newest (best : image_info) (images : list image_info) : image_info :=
  match images with
  | [] => best
  | i :: rest =>
      if String.ltb (CreationDate best) (CreationDate i)
      then newest i rest else newest best rest
  end.

(** The loop over [ami_patterns] (ec2_agent.py 82-98): the first pattern
    with an image ends it, a pattern that raises is skipped. *)
Fixpoint find_ami (target_region : string) (patterns : list string)
  : M (option string) :=
  match patterns with
  | [] => ret None
  | pattern :: rest =>
      hit <- try_except
               (images <- request (describe_images target_region pattern)
                            (fun t => on_describe_images P t target_region pattern);;
                ret (match images with
                     | [] => None
                     | i :: l => Some (ImageId (newest i l))
                     end))
               (fun _ => ret None);;
      match hit with
      | Some ami_id => ret (Some ami_id)
      | None => find_ami target_region rest
      end
  end.

(** [EC2Agent.create_instance(instance_type=.., region=..)], the other
    arguments at their defaults as in every call of the repository. *)
Definition create_instance (instance_type : string) (region : option string)
  : M pyval :=
  try_except
    (let target_region :=
       if absent region then "us-east-2" else _map_region region in
     request (client_in target_region) (fun t => on_client_in P t target_region);;;
     found <- find_ami target_region ami_patterns;;
     let ami_id :=
       if absent found then dict_get fallback_amis target_region else found in
     match ami_id with
     | Some ami_id =>
         if negb (truthy ami_id) then
           ret (error_dict ("No AMI found for region " ++ target_region
                            ++ ". Please specify ami_id parameter."))
         else
           instance <- request (create_instances target_region ami_id instance_type)
                         (fun t => on_create_instances P t target_region ami_id
                                     instance_type);;
           let region_name := _get_region_name target_region in
           ret (VDict [ ("success", VBool true);
                        ("instance_id", VStr (fst instance));
                        ("instance_type", VStr instance_type);
                        ("ami_id", VStr ami_id);
                        ("region", VStr target_region);
                        ("region_name", VStr region_name);
                        ("state", VStr (snd instance));
                        ("message",
                         VStr ("EC2 instance " ++ fst instance
                               ++ " created successfully in " ++ region_name
                               ++ " (" ++ target_region ++ ")")) ])
     | None =>
         ret (error_dict ("No AMI found for region " ++ target_region
                          ++ ". Please specify ami_id parameter."))
     end)
    (fun e => ret (error_dict e)).

(** The acknowledgement of a message nobody handled. *)
Definition unhandled : pyval :=
  VDict [ ("status", VStr "received");
          ("message", VStr "Message received but not processed") ].

(** [BaseAgent.handle_message] *)
Definition BaseAgent_handle_message (message : Message) : M pyval :=
  ret unhandled.

Definition is_running (i : pyval) : bool :=
  match i with
  | VDict d => match dict_get d "state" with
               | Some v => py_eq_str v "running"
               | None => false
               end
  | _ => false
  end.

(** [EC2Agent.handle_message] *)
Definition EC2Agent_handle_message (message : Message) : M pyval :=
  let content := content message in
  if String.eqb (msg_type message) "query" then
    query <- py_get content "query" (VStr "");;
    q <- py_lower query;;
    if is_in "instance" q && is_in "count" q then
      instances <- list_instances;;
      let count := List.length (get_list instances "instances") in
      ret (VDict [ ("count", VInt (Z.of_nat count)); ("instances", instances) ])
    else if is_in "running" q then
      instances <- list_instances;;
      let running := filter is_running (get_list instances "instances") in
      ret (VDict [ ("running_count", VInt (Z.of_nat (List.length running)));
                   ("instances", VList running) ])
    else BaseAgent_handle_message message
  else if String.eqb (msg_type message) "request" then
    action <- py_get content "action" VNone;;
    if py_eq_str action "list_instances" then list_instances
    else if py_eq_str action "get_instance_info" then
      instance_id <- py_get content "instance_id" VNone;;
      _get_instance_info instance_id
    else BaseAgent_handle_message message
  else BaseAgent_handle_message message.

(** *** S3Agent (s3_agent.py) *)

(** [S3Agent._bucket_exists] *)
Definition _bucket_exists (bucket_name : pyval) : M pyval :=
  try_except
    (request (head_bucket bucket_name) (fun t => on_head_bucket P t bucket_name);;;
     ret (VDict [ ("exists", VBool true); ("bucket_name", bucket_name) ]))
    (fun _ => ret (VDict [ ("exists", VBool false); ("bucket_name", bucket_name) ])).

(** [S3Agent.create_bucket] *)
Definition create_bucket (bucket_name : string) (region : option string)
  : M pyval :=
  try_except
    (let region :=
       if absent region then s3_region_name P else value_of region in
     let location :=
       if String.eqb region "us-east-1" then None else Some region in
     request (create_bucket_call bucket_name location)
       (fun t => on_create_bucket P t bucket_name location);;;
     ret (VDict [ ("success", VBool true);
                  ("bucket_name", VStr bucket_name);
                  ("region", VStr region);
                  ("message",
                   VStr ("S3 bucket '" ++ bucket_name
                         ++ "' created successfully in " ++ region)) ]))
    (fun e => ret (error_dict e)).

Definition bucket_dict (b : string * string) : pyval :=
  VDict [ ("name", VStr (fst b)); ("creation_date", VStr (snd b)) ].

(** [S3Agent.list_buckets] *)
Definition list_buckets : M pyval :=
  try_except
    (response <- request list_buckets_call (on_list_buckets P);;
     ret (VDict [ ("success", VBool true);
                  ("buckets", VList (map bucket_dict response)) ]))
    (fun e => ret (error_dict e)).

Fixpoint delete_objects (bucket_name : string) (contents : list object_info)
  : M unit :=
  match contents with
  | [] => ret tt
  | obj :: rest =>
      request (delete_object bucket_name (Key obj))
        (fun t => on_delete_object P t bucket_name (Key obj));;;
      delete_objects bucket_name rest
  end.

(** [S3Agent.delete_bucket] *)
Definition delete_bucket (bucket_name : string) (force : bool) : M pyval :=
  try_except
    ((if force then
        response <- request (list_objects_v2 bucket_name)
                      (fun t => on_list_objects_v2 P t bucket_name);;
        match response with
        | Some contents => delete_objects bucket_name contents
        | None => ret tt
        end
      else ret tt);;;
     request (delete_bucket_call bucket_name)
       (fun t => on_delete_bucket P t bucket_name);;;
     ret (VDict [ ("success", VBool true);
                  ("bucket_name", VStr bucket_name);
                  ("message",
                   VStr ("S3 bucket '" ++ bucket_name ++ "' deleted successfully")) ]))
    (fun e => ret (error_dict e)).

Definition object_dict (o : object_info) : pyval :=
  VDict [ ("key", VStr (Key o)); ("size", VInt (Size o));
          ("last_modified", VStr (LastModified o)) ].

(** [S3Agent.list_objects] *)
Definition list_objects (bucket_name : string) : M pyval :=
  try_except
    (response <- request (list_objects_v2 bucket_name)
                   (fun t => on_list_objects_v2 P t bucket_name);;
     let objects :=
       match response with
       | Some contents => map object_dict contents
       | None => []
       end in
     ret (VDict [ ("success", VBool true);
                  ("bucket_name", VStr bucket_name);
                  ("objects", VList objects) ]))
    (fun e => ret (error_dict e)).

(** [S3Agent.handle_message] *)
Definition S3Agent_handle_message (message : Message) : M pyval :=
  let content := content message in
  if String.eqb (msg_type message) "query" then
    query <- py_get content "query" (VStr "");;
    q <- py_lower query;;
    if is_in "bucket" q && is_in "count" q then
      buckets <- list_buckets;;
      let count := List.length (get_list buckets "buckets") in
      ret (VDict [ ("count", VInt (Z.of_nat count)); ("buckets", buckets) ])
    else if is_in "storage" q || is_in "size" q then
      ret (VDict [ ("message",
                    VStr "Storage size calculation requires CloudWatch metrics") ])
    else BaseAgent_handle_message message
  else if String.eqb (msg_type message) "request" then
    action <- py_get content "action" VNone;;
    if py_eq_str action "list_buckets" then list_buckets
    else if py_eq_str action "bucket_exists" then
      bucket_name <- py_get content "bucket_name" VNone;;
      _bucket_exists bucket_name
    else BaseAgent_handle_message message
  else BaseAgent_handle_message message.

(** *** BaseAgent (base_agent.py) *)

(** Method lookup: the object's class picks the override; the
    coordinator inherits the base method. *)
Definition handle_message (self : ref) (message : Message) : M pyval :=
  a <- get_agent self;;
  match class a with
  | EC2Agent => EC2Agent_handle_message message
  | S3Agent => S3Agent_handle_message message
  | BaseAgent | CoordinatorAgent _ _ => BaseAgent_handle_message message
  end.

Definition push_history (a : agent) (d : pyval) : agent :=
  mkAgent (name a) (class a) (message_queue a) (agents_registry a)
          (conversation_history a ++ [d]).

Definition push_queue (a : agent) (m : Message) : agent :=
  mkAgent (name a) (class a) (message_queue a ++ [m]) (agents_registry a)
          (conversation_history a).

(** [BaseAgent.register_agent] *)
Definition register_agent (self agent : ref) : M unit :=
  a <- get_agent self;;
  b <- get_agent agent;;
  set_agent self
    (mkAgent (name a) (class a) (message_queue a)
             (dict_set (agents_registry a) (name b) agent)
             (conversation_history a)).

(** [BaseAgent.receive_message] *)
Definition receive_message (self : ref) (message : Message) : M pyval :=
  a <- get_agent self;;
  set_agent self (push_history (push_queue a message) (to_dict message));;;
  log (Delivered self message);;;
  handle_message self message.

(** [BaseAgent.send_message] *)
Definition send_message (self : ref) (receiver : string) (content : pyval)
    (msg_type : string) : M pyval :=
  a <- get_agent self;;
  match dict_get (agents_registry a) receiver with
  | None => ret VNone
  | Some target_agent =>
      message <- Message_init (name a) receiver content msg_type;;
      set_agent self (push_history a (to_dict message));;;
      receive_message target_agent message
  end.

(** The loop of [BaseAgent.broadcast] over the registry's keys. *)
Fixpoint broadcast_loop (self : ref) (content : pyval) (msg_type : string)
    (names : list string) (responses : dict) : M dict :=
  match names with
  | [] => ret responses
  | agent_name :: rest =>
      response <- send_message self agent_name content msg_type;;
      broadcast_loop self content msg_type rest
        (dict_set responses agent_name response)
  end.

(** [BaseAgent.broadcast] *)
Definition broadcast (self : ref) (content : pyval) (msg_type : string)
  : M dict :=
  a <- get_agent self;;
  broadcast_loop self content msg_type (keys (agents_registry a)) [].

(** [BaseAgent.query_agent] *)
Definition query_agent (self : ref) (agent_name query : string) : M pyval :=
  send_message self agent_name (VDict [("query", VStr query)]) "query".

(** [BaseAgent.get_conversation_history] *)
Definition get_conversation_history (self : ref) : M (list pyval) :=
  a <- get_agent self;;
  ret (conversation_history a).

(** *** FastPerplexityClient (fast_perplexity_client.py) *)

(** [_call_api_sync]: any failure of the request falls back to the
    keyword classifier; an action [unknown] is rewritten. *)
Definition _call_api_sync (user_input : string) : M Intent :=
  parsed <- request (parse_request user_input)
              (fun t => Returned (on_parse P t user_input));;
  match parsed with
  | Some parsed =>
      if String.eqb (action parsed) "unknown"
      then ret (mkIntent (service parsed) "greeting" (parameters parsed))
      else ret parsed
  | None => ret (_fast_fallback user_input)
  end.

(** [parse_intent] *)
Definition parse_intent (user_input : string) : M Intent :=
  if negb (api_key P) then ret (_fast_fallback user_input)
  else _call_api_sync user_input.

(** [_get_fallback_response]: one of two fixed texts. *)
Definition _get_fallback_response (user_input : string) : string :=
  let text := lower user_input in
  if existsb (fun word => is_in word text) ["hi"; "hello"; "hey"; "how are you"]
  then greeting_reply P else help_reply P.

(** [get_smart_response] *)
Definition get_smart_response (user_input : string) : M string :=
  if negb (api_key P) then ret (_get_fallback_response user_input)
  else
    reply <- request (chat_request user_input)
               (fun t => Returned (on_chat P t user_input));;
    match reply with
    | Some content => ret content
    | None => ret (_get_fallback_response user_input)
    end.

(** *** CoordinatorAgent (coordinator.py) *)

(** [x.get('count', 0) > 0] and the text of [x['count']] in the tip *)
Definition positive_count (info : pyval) : M (option string) :=
  count <- py_get info "count" (VInt 0);;
  match count with
  | VInt z => ret (if Z.ltb 0 z then Some (str_of_Z z) else None)
  | VBool b => ret (if b then Some "True" else None)
  | v => raise ("'>' not supported between instances of '" ++ type_name v
                ++ "' and 'int'")
  end.

(** [result['tip'] = text] *)
Definition set_tip (result : pyval) (text : string) : M pyval :=
  match result with
  | VDict d => ret (VDict (dict_set d "tip" (VStr text)))
  | v => raise ("'" ++ type_name v ++ "' object does not support item assignment")
  end.

(** coordinator.py 69-72 and 110-113: the tip is written into the result
    when the peer's answer is true and holds a positive [count]. *)
Definition with_tip (info result : pyval) (before after : string) : M pyval :=
  if py_bool info then
    count <- positive_count info;;
    match count with
    | Some n => set_tip result (before ++ n ++ after)
    | None => ret result
    end
  else ret result.

Definition param (params : list (string * string)) (k : string) : option string :=
  dict_get params k.

(** [CoordinatorAgent._handle_ec2_action] *)
Definition _handle_ec2_action (self : ref) (intent : Intent) (user_input : string)
  : M pyval :=
  let action := action intent in
  let params := parameters intent in
  if String.eqb action "create_instance" then
    let instance_type :=
      match param params "instance_type" with Some t => t | None => "t2.micro" end in
    let region := param params "region" in
    s3_info <- query_agent self "S3Agent" "How many buckets does user have?";;
    result <- create_instance instance_type region;;
    with_tip s3_info result "💡 You have "
      " S3 bucket(s). You can use them with this instance!"
  else if String.eqb action "list_instances" then
    send_message self "EC2Agent" (VDict [("action", VStr "list_instances")]) "request"
  else if String.eqb action "stop_instance" then
    let instance_id :=
      py_or (param params "instance_id") (_extract_instance_id user_input) in
    if absent instance_id then ret (error_dict "Please provide instance ID")
    else stop_instance (value_of instance_id)
  else if String.eqb action "terminate_instance" then
    let instance_id :=
      py_or (param params "instance_id") (_extract_instance_id user_input) in
    if absent instance_id then ret (error_dict "Please provide instance ID")
    else terminate_instance (value_of instance_id)
  else ret (error_dict ("Unknown EC2 action: " ++ action)).

(** [CoordinatorAgent._handle_s3_action] *)
Definition _handle_s3_action (self : ref) (intent : Intent) (user_input : string)
  : M pyval :=
  let action := action intent in
  let params := parameters intent in
  if String.eqb action "create_bucket" then
    let bucket_name := param params "bucket_name" in
    if absent bucket_name then
      ret (error_dict
             "Please provide a bucket name. Example: 'create s3 bucket my-bucket-name'")
    else
      let region := param params "region" in
      ec2_info <- query_agent self "EC2Agent" "How many instances does user have?";;
      result <- create_bucket (value_of bucket_name) region;;
      with_tip ec2_info result "💡 You have "
        " EC2 instance(s). You can access this bucket from them!"
  else if String.eqb action "list_buckets" then
    send_message self "S3Agent" (VDict [("action", VStr "list_buckets")]) "request"
  else if String.eqb action "list_objects" then
    let bucket_name :=
      py_or (param params "bucket_name") (_extract_bucket_name user_input) in
    if absent bucket_name then ret (error_dict "Please provide bucket name")
    else list_objects (value_of bucket_name)
  else if String.eqb action "delete_bucket" then
    let bucket_name :=
      py_or (param params "bucket_name") (_extract_bucket_name user_input) in
    if absent bucket_name then ret (error_dict "Please provide bucket name")
    else delete_bucket (value_of bucket_name) false
  else ret (error_dict ("Unknown S3 action: " ++ action)).

(** [CoordinatorAgent._handle_unknown] *)
Definition _handle_unknown (user_input : string) (intent : Intent) : M pyval :=
  let action := action intent in
  if String.eqb action "greeting" || String.eqb action "help" then
    response <- get_smart_response user_input;;
    ret (VDict [ ("message", VStr response); ("greeting", VBool true) ])
  else
    response <- get_smart_response user_input;;
    ret (VDict [ ("message", VStr response) ]).

(** [CoordinatorAgent.process_request] *)
Definition process_request (self : ref) (user_input : string) : M pyval :=
  intent <- parse_intent user_input;;
  if String.eqb (service intent) "ec2" then _handle_ec2_action self intent user_input
  else if String.eqb (service intent) "s3" then _handle_s3_action self intent user_input
  else if String.eqb (service intent) "unknown" then _handle_unknown user_input intent
  else ret (VDict [ ("message",
                     VStr "I'm not sure how to help with that. Try 'help' for available commands.") ]).

(** [CoordinatorAgent.__init__] with [_setup_a2a_network]: the three
    objects are allocated at [self], [self + 1] and [self + 2]. *)
Definition new_agent (n : string) (c : agent_class) : agent := mkAgent n c [] [] [].

Definition CoordinatorAgent_init (self : ref) : M unit :=
  let ec2_agent := S self in
  let s3_agent := S (S self) in
  set_agent self (new_agent "CoordinatorAgent" (CoordinatorAgent ec2_agent s3_agent));;;
  set_agent ec2_agent (new_agent "EC2Agent" EC2Agent);;;
  set_agent s3_agent (new_agent "S3Agent" S3Agent);;;
  register_agent self ec2_agent;;;
  register_agent self s3_agent;;;
  register_agent ec2_agent self;;;
  register_agent ec2_agent s3_agent;;;
  register_agent s3_agent self;;;
  register_agent s3_agent ec2_agent.

End Agents.

(* ================================================================== *)
(** ** A stub provider and the assembled network *)

(** A clock that stands still, as two readings inside one tick are. *)
Definition frozen (n : nat) : reading :=
  mkReading "2025-01-01T00:00:00" "1735689600.0".

(** A clock that moves between any two readings. *)
Definition ticking (n : nat) : reading :=
  mkReading ("2025-01-01T00:00:00." ++ str_of_Z (Z.of_nat n))
            ("1735689600." ++ str_of_Z (Z.of_nat n)).

(** Three regions; one instance, living in the second; one bucket; no
    language model. *)
Definition stub (clock : nat -> reading) : provider :=
  mkProvider clock
    (fun _ => Returned ["us-east-1"; "eu-west-1"; "ap-south-1"])
    (fun _ region instance_id =>
       if String.eqb instance_id "i-0123456789abcdef0" then
         if String.eqb region "eu-west-1" then Returned 1 else Returned 0
       else Raised "InvalidInstanceID.NotFound")
    (fun _ => Returned [[mkInstance "i-0123456789abcdef0" "t2.micro" "running"
                                    "2025-01-01 00:00:00"]])
    (fun _ _ => Raised "InvalidInstanceID.NotFound")
    (fun _ _ => Returned tt)
    (fun _ _ _ => Returned [])
    (fun _ _ _ _ => Returned ("i-0a1b2c3d4e5f6a7b8", "running"))
    (fun _ _ _ => Returned tt)
    (fun _ _ _ => Returned tt)
    "us-east-2"
    (fun _ _ _ => Returned tt)
    (fun _ => Returned [("my-bucket", "2025-01-01 00:00:00")])
    (fun _ _ => Returned tt)
    (fun _ _ => Returned None)
    (fun _ _ _ => Returned tt)
    (fun _ _ => Returned tt)
    false
    (fun _ _ => None)
    (fun _ _ => None)
    "Hi there!"
    "Here is what I can do for you!".

Definition empty_world : world :=
  mkWorld (fun _ => new_agent EmptyString BaseAgent) 0 [].

(** The world after [CoordinatorAgent()]: the coordinator at 0, its
    EC2Agent at 1, its S3Agent at 2. *)
Definition network : world := snd (CoordinatorAgent_init 0 empty_world).

(** The stub with two objects in every bucket, the second of which the
    provider refuses to delete. *)
Definition stub_with_objects : provider :=
  let s := stub frozen in
  mkProvider (now s) (on_describe_regions s) (on_describe_instances_in s)
    (on_describe_instances s) (on_describe_instance s) (on_client_in s)
    (on_describe_images s) (on_create_instances s) (on_stop_instances s)
    (on_terminate_instances s) (s3_region_name s) (on_create_bucket s)
    (on_list_buckets s) (on_delete_bucket s)
    (fun _ _ => Returned (Some [ mkObject "a.txt" 1 "2025-01-01 00:00:00";
                                 mkObject "b.txt" 2 "2025-01-01 00:00:00" ]))
    (fun _ _ key =>
       if String.eqb key "b.txt" then Raised "AccessDenied" else Returned tt)
    (on_head_bucket s) (api_key s) (on_parse s) (on_chat s)
    (greeting_reply s) (help_reply s).

(* ================================================================== *)
(** ** Vocabulary of the statements *)

(** The fixed per-service vocabulary of actions (spec, section 3). *)
Definition vocabulary (service : string) : list string :=
  if String.eqb service "ec2" then
    ["create_instance"; "list_instances"; "stop_instance"; "terminate_instance"]
  else if String.eqb service "s3" then
    ["create_bucket"; "list_buckets"; "list_objects"; "delete_bucket"]
  else if String.eqb service "unknown" then ["greeting"; "help"]
  else [].

(** A well-formed Intent: a known service, an action of its vocabulary
    (so a non-empty one) and, from the classifiers, no parameter. *)
Definition well_formed (i : Intent) : Prop :=
  In (service i) ["ec2"; "s3"; "unknown"]
  /\ In (action i) (vocabulary (service i))
  /\ action i <> ""
  /\ parameters i = [].

(** The world after the provider calls [cs] and nothing else. *)
Definition extend (w : world) (cs : list call) : world :=
  mkWorld (store w) (clock_reads w) (trace w ++ map Called cs).

(** A computation that touches no agent and no clock: all it leaves
    behind is provider calls. *)
Definition calls_only {A} (m : M A) : Prop :=
  forall w, exists cs, snd (m w) = extend w cs.

(** A computation that never raises. *)
Definition returns {A} (m : M A) : Prop :=
  forall w, exists a, fst (m w) = Returned a.


(** The provider calls made, in order. *)
Definition calls (t : list event) : list call :=
  flat_map (fun e => match e with Called c => [c] | Delivered _ _ => [] end) t.


(** [k in d] for a result *)
Definition has_key (v : pyval) (k : string) : bool :=
  match v with
  | VDict d => match dict_get d k with Some _ => true | None => false end
  | _ => false
  end.

(** The region-scoped probes of an instance id, one call per region. *)
Definition probes (instance_id : string) (regions : list string) : list call :=
  map (fun region => describe_instances_in region instance_id) regions.

(** A probe succeeds when it raises nothing and comes back with a
    reservation; [t] is what had happened when it was sent. *)
Definition probe_ok (P : provider) (t : list event) (region instance_id : string)
  : bool :=
  match on_describe_instances_in P t region instance_id with
  | Returned n => negb (Nat.eqb n 0)
  | Raised _ => false
  end.

(** No region of [regions] answers the probes sent after the events [t]. *)
Definition none_owns (P : provider) (t : list event) (instance_id : string)
    (regions : list string) : Prop :=
  forall pre region post,
    regions = (pre ++ region :: post)%list ->
    probe_ok P (t ++ map Called (probes instance_id pre)) region instance_id
    = false.

(** A computation whose result never holds a [count]. *)
Definition no_count (m : M pyval) : Prop :=
  forall w r w', m w = (Returned r, w') -> has_key r "count" = false.

(** What a create handler does in the world [w]: it queries [peer] with
    the text [q], which is delivered when the peer is registered and
    changes nothing when it is not, and causes no provider call; then the
    create operation runs, returns [r] after its calls [cs], and [r] is
    what the handler returns. *)
Definition query_then_create (P : provider) (self : ref) (peer q : string)
    (handler create : M pyval) (w : world) : Prop :=
  exists info w1 r cs,
    query_agent P self peer q w = (Returned info, w1)
    /\ calls (trace w1) = calls (trace w)
    /\ (forall target,
           dict_get (agents_registry (store w self)) peer = Some target ->
           exists m,
             trace w1 = (trace w ++ [Delivered target m])%list
             /\ msg_type m = "query"
             /\ content m = VDict [("query", VStr q)])
    /\ (dict_get (agents_registry (store w self)) peer = None -> w1 = w)
    /\ create w1 = (Returned r, extend w1 cs)
    /\ handler w = (Returned r, extend w1 cs).

(** A positive [count]: an int above zero, or [True]. *)
Definition positive (d : dict) : Prop :=
  (exists n, dict_get d "count" = Some (VInt n) /\ (0 < n)%Z)
  \/ dict_get d "count" = Some (VBool true).



(** A computation whose every result satisfies [Q]. *)
Definition ensures (Q : pyval -> Prop) (m : M pyval) : Prop :=
  forall w r w', m w = (Returned r, w') -> Q r.

(** The two shapes of an operation's result (chat_interface.py 12-14
    tells them apart by the [error] key): [{success: True, ...}] without
    [error], or [{error: text}] without [success]. *)
Definition is_verdict (r : pyval) : bool :=
  match r with
  | VDict d =>
      match dict_get d "success", dict_get d "error" with
      | Some (VBool true), None => true
      | None, Some (VStr _) => true
      | _, _ => false
      end
  | _ => false
  end.

(** An operation that touches no agent, never raises and answers with a
    verdict. *)
Definition sound_operation (m : M pyval) : Prop :=
  forall w, exists r cs,
    m w = (Returned r, extend w cs) /\ is_verdict r = true.

(** What a run may do to an agent: the name, the class and the registry
    stay; the queue and the history grow at their end. *)
Definition agent_grows (a a' : agent) : Prop :=
  name a' = name a
  /\ class a' = class a
  /\ agents_registry a' = agents_registry a
  /\ (exists q, message_queue a' = (message_queue a ++ q)%list)
  /\ (exists h, conversation_history a' = (conversation_history a ++ h)%list).

(** The same for a world: every agent grows, the clock is only read, the
    trace is only added to. *)
Definition evolves (w w' : world) : Prop :=
  (forall r, agent_grows (store w r) (store w' r))
  /\ clock_reads w <= clock_reads w'
  /\ (exists evs, trace w' = (trace w ++ evs)%list).

(** A computation that only appends, whether it returns or raises. *)
Definition append_only {A} (m : M A) : Prop :=
  forall w, evolves w (snd (m w)).

(** The answers [print_response] (chat_interface.py 10-24) can show: a
    verdict, or a dict with a [message] and neither [error] nor
    [success]. *)
Definition is_reply (r : pyval) : bool :=
  is_verdict r
  || (has_key r "message" && negb (has_key r "error")
      && negb (has_key r "success")).

(** The provider calls that only look: every call but the six that
    create, stop, terminate or delete something. *)
Definition reads (c : call) : bool :=
  match c with
  | create_instances _ _ _ | stop_instances _ _ | terminate_instances _ _
  | create_bucket_call _ _ | delete_bucket_call _ | delete_object _ _ => false
  | _ => true
  end.

(** A computation all of whose provider calls satisfy [ok], whether it
    returns or raises. *)
Definition confined (ok : call -> bool) {A} (m : M A) : Prop :=
  forall w, exists evs,
    trace (snd (m w)) = (trace w ++ evs)%list
    /\ forallb ok (calls evs) = true.

(** The calls an intent entitles the coordinator to: any call that only
    looks, and the one changing call its service and action name; for a
    bucket to create, the name the intent carries. No intent entitles to
    the deletion of an object. *)
Definition permits (i : Intent) (c : call) : bool :=
  let named s a := String.eqb (service i) s && String.eqb (action i) a in
  match c with
  | create_instances _ _ _ => named "ec2" "create_instance"
  | stop_instances _ _ => named "ec2" "stop_instance"
  | terminate_instances _ _ => named "ec2" "terminate_instance"
  | create_bucket_call b _ =>
      named "s3" "create_bucket"
      && match param (parameters i) "bucket_name" with
         | Some b' => String.eqb b b'
         | None => false
         end
  | delete_bucket_call _ => named "s3" "delete_bucket"
  | delete_object _ _ => false
  | _ => true
  end.

(** The provider call that creates a bucket. *)
Definition creates_bucket (c : call) : bool :=
  match c with create_bucket_call _ _ => true | _ => false end.

(** [all(f(c) for c in s)] *)
Fixpoint all_chars (f : ascii -> bool) (s : string) : bool :=
  match s with
  | EmptyString => true
  | String c r => f c && all_chars f r
  end.

(** [s[-1]] *)
Fixpoint last_char (s : string) : option ascii :=
  match s with
  | EmptyString => None
  | String c EmptyString => Some c
  | String _ r => last_char r
  end.

(** The shape of an instance id: [i-] and 8 to 17 of [0-9a-f]. *)
Definition instance_id_shaped (v : string) : bool :=
  startswith "i-" v
  && Nat.leb 10 (String.length v) && Nat.leb (String.length v) 19
  && all_chars is_hex (drop 2 v).

(** The shape of a bucket name: 3 to 63 of [a-z0-9-], a letter or digit
    at both ends. *)
Definition bucket_name_shaped (v : string) : bool :=
  Nat.leb 3 (String.length v) && Nat.leb (String.length v) 63
  && all_chars is_alnum_dash v
  && match v with String c _ => is_alnum c | EmptyString => false end
  && match last_char v with Some c => is_alnum c | None => false end.

(** The object deletions of a forced bucket deletion, in listing order. *)
Definition object_deletions (bucket_name : string) (contents : list object_info)
  : list call :=
  map (fun obj => delete_object bucket_name (Key obj)) contents.



(** The keywords of the two domain blocks of the classifiers
    (fast_perplexity_client.py 127-144, perplexity_client.py 146-164),
    tested on the lowercased text: the keywords that open a block and the
    action keywords of which one makes the block return. The storage
    action keywords are compute action keywords too. *)
Definition compute_keyword (text : string) : bool :=
  is_in "ec2" text || is_in "instance" text.

Definition compute_action_keyword (text : string) : bool :=
  is_in "create" text || is_in "launch" text || is_in "list" text
  || is_in "show" text || is_in "stop" text || is_in "terminate" text
  || is_in "delete" text.

Definition storage_keyword (text : string) : bool :=
  is_in "s3" text || is_in "bucket" text.

Definition storage_action_keyword (text : string) : bool :=
  is_in "create" text || is_in "list" text || is_in "delete" text.

(* ================================================================== *)
(** * Theorems *)

(** ** The keyword classifiers *)

Ltac split_ifs :=
  repeat match goal with
         | |- context [if ?b then _ else _] => destruct b eqn:?
         end.

Ltac split_ifs_in H :=
  repeat match type of H with
         | context [if ?b then _ else _] => destruct b eqn:?
         end.

Lemma ec2_rules_well_formed text i :
  ec2_rules text = Some i -> well_formed i.
Proof.
  unfold ec2_rules; intros H; split_ifs_in H; inversion H; subst;
    unfold well_formed; cbn; intuition discriminate.
Qed.

Lemma s3_rules_fast_well_formed text i :
  s3_rules_fast text = Some i -> well_formed i.
Proof.
  unfold s3_rules_fast; intros H; split_ifs_in H; inversion H; subst;
    unfold well_formed; cbn; intuition discriminate.
Qed.

Lemma s3_rules_well_formed text i :
  s3_rules text = Some i -> well_formed i.
Proof.
  unfold s3_rules; intros H; split_ifs_in H; inversion H; subst;
    unfold well_formed; cbn; intuition discriminate.
Qed.

Lemma unknown_well_formed a :
  a = "greeting" \/ a = "help" -> well_formed (intent "unknown" a).
Proof.
  intros [-> | ->]; unfold well_formed; cbn; intuition discriminate.
Qed.

(** C10. The fallback classifier is a total function of the text alone
    (it takes no world and no oracle, so it does no I/O and equal texts
    get equal Intents): on every text, the empty one included, each of
    the two classifiers returns an Intent whose service is one of ec2, s3
    and unknown, whose action is a non-empty word of that service's
    vocabulary, and whose parameters are an (empty) mapping. *)
Theorem classify_total_well_formed :
  forall text : string,
    well_formed (_fast_fallback text) /\ well_formed (_fallback_parse text).
Proof.
  intros text; split.
  - unfold _fast_fallback.
    destruct (if is_in "ec2" (lower text) || is_in "instance" (lower text)
              then ec2_rules (lower text) else None) as [i |] eqn:E1.
    { destruct (_ || _); [eapply ec2_rules_well_formed; eauto | discriminate]. }
    destruct (if is_in "s3" (lower text) || is_in "bucket" (lower text)
              then s3_rules_fast (lower text) else None) as [i |] eqn:E2.
    { destruct (_ || _) in E2; [eapply s3_rules_fast_well_formed; eauto | discriminate]. }
    split_ifs; apply unknown_well_formed; auto.
  - unfold _fallback_parse.
    destruct (if is_in "ec2" (lower text) || is_in "instance" (lower text)
              then ec2_rules (lower text)
              else if is_in "s3" (lower text) || is_in "bucket" (lower text)
                   then s3_rules (lower text) else None) as [i |] eqn:E1.
    { destruct (_ || _) in E1; [eapply ec2_rules_well_formed; eauto |].
      destruct (_ || _) in E1; [eapply s3_rules_well_formed; eauto | discriminate]. }
    split_ifs; apply unknown_well_formed; auto.
Qed.

Lemma ec2_rules_not_greeting text i :
  ec2_rules text = Some i -> action i <> "greeting".
Proof.
  unfold ec2_rules; intros H; split_ifs_in H; inversion H; subst;
    cbn; discriminate.
Qed.

Lemma s3_rules_not_greeting text i :
  s3_rules text = Some i -> action i <> "greeting".
Proof.
  unfold s3_rules; intros H; split_ifs_in H; inversion H; subst;
    cbn; discriminate.
Qed.

Lemma s3_rules_fast_not_greeting text i :
  s3_rules_fast text = Some i -> action i <> "greeting".
Proof.
  unfold s3_rules_fast; intros H; split_ifs_in H; inversion H; subst;
    cbn; discriminate.
Qed.

Lemma ec2_rules_fire text :
  compute_action_keyword text = true ->
  exists i, ec2_rules text = Some i /\ service i = "ec2".
Proof.
  unfold compute_action_keyword, ec2_rules. intros H.
  destruct (is_in "create" text), (is_in "launch" text), (is_in "list" text),
    (is_in "show" text), (is_in "stop" text), (is_in "terminate" text),
    (is_in "delete" text);
    cbn in H |- *; try discriminate H; eexists; split; reflexivity.
Qed.

Lemma storage_action_is_compute_action text :
  storage_action_keyword text = true -> compute_action_keyword text = true.
Proof.
  unfold storage_action_keyword, compute_action_keyword.
  destruct (is_in "create" text), (is_in "list" text), (is_in "delete" text);
    cbn; rewrite ?orb_true_r; try reflexivity; discriminate.
Qed.

Lemma s3_rules_fire text :
  storage_action_keyword text = true ->
  (exists i, s3_rules_fast text = Some i /\ service i = "s3")
  /\ (exists i, s3_rules text = Some i /\ service i = "s3").
Proof.
  unfold storage_action_keyword, s3_rules_fast, s3_rules. intros H.
  destruct (is_in "create" text), (is_in "list" text), (is_in "delete" text),
    (is_in "object" text || is_in "file" text);
    cbn in H |- *; try discriminate H; split; eexists; split; reflexivity.
Qed.

(** A domain keyword with an action keyword of its block decides the
    service, in both classifiers, before any greeting test is made. *)
Lemma domain_rules_first text :
  (compute_keyword (lower text) = true ->
   compute_action_keyword (lower text) = true ->
   service (_fast_fallback text) = "ec2"
   /\ service (_fallback_parse text) = "ec2")
  /\ (compute_keyword (lower text) = false ->
      storage_keyword (lower text) = true ->
      storage_action_keyword (lower text) = true ->
      service (_fast_fallback text) = "s3"
      /\ service (_fallback_parse text) = "s3").
Proof.
  unfold compute_keyword, storage_keyword, _fast_fallback, _fallback_parse.
  cbv zeta. split.
  - intros K A. rewrite K.
    destruct (ec2_rules_fire _ A) as (i & -> & S). auto.
  - intros K K' A. rewrite K, K'.
    destruct (s3_rules_fire _ A) as [(i & -> & S) (j & -> & S')]. auto.
Qed.

(** C4, as amended. On ASCII text: [_fallback_parse] answers
    {unknown, greeting} only for a text that, lowercased and stripped, is
    a token of hi, hello, hey, help or starts with one followed by a
    blank, and that holds no domain keyword. [_fast_fallback], the
    classifier the coordinator uses, answers {unknown, greeting} only for
    a text that holds one of its greeting tokens somewhere, and does so
    for every such text free of domain keywords. In both classifiers a
    domain keyword with an action keyword outranks the greeting rule,
    whatever greeting tokens the text holds: a compute keyword with a
    compute action keyword gives the compute service, and a storage
    keyword with a storage action keyword gives the compute service when
    a compute keyword is there too and the storage service when not. So
    both put "could you create an instance" in the compute service with
    the create action. *)
Theorem greeting_rule :
  (forall text,
      isascii text = true ->
      _fallback_parse text = intent "unknown" "greeting" ->
      greeting_shaped (lower text) = true
      /\ has_domain_keyword (lower text) = false)
  /\ (forall text,
         isascii text = true ->
         _fast_fallback text = intent "unknown" "greeting" ->
         existsb (fun g => is_in g (lower text)) fast_greetings = true)
  /\ (forall text,
         isascii text = true ->
         has_domain_keyword (lower text) = false ->
         existsb (fun g => is_in g (lower text)) fast_greetings = true ->
         _fast_fallback text = intent "unknown" "greeting")
  /\ (forall text,
         isascii text = true ->
         compute_keyword (lower text) = true ->
         compute_action_keyword (lower text) = true ->
         service (_fast_fallback text) = "ec2"
         /\ service (_fallback_parse text) = "ec2")
  /\ (forall text,
         isascii text = true ->
         storage_keyword (lower text) = true ->
         storage_action_keyword (lower text) = true ->
         service (_fast_fallback text)
         = (if compute_keyword (lower text) then "ec2" else "s3")
         /\ service (_fallback_parse text)
            = (if compute_keyword (lower text) then "ec2" else "s3"))
  /\ _fallback_parse "could you create an instance" = intent "ec2" "create_instance"
  /\ _fast_fallback "could you create an instance" = intent "ec2" "create_instance".
Proof.
  split; [intros text _ H; split
        | split; [intros text _ H
                 | split; [intros text _ H H0
                          | split; [intros text _ K A
                                   | split; [intros text _ K A
                                            | split; reflexivity]]]]].
  - revert H. unfold _fallback_parse.
    destruct (if is_in "ec2" (lower text) || is_in "instance" (lower text)
              then ec2_rules (lower text)
              else if is_in "s3" (lower text) || is_in "bucket" (lower text)
                   then s3_rules (lower text) else None) as [i |] eqn:E1.
    { intros ->. exfalso.
      destruct (_ || _) in E1; [eapply ec2_rules_not_greeting; eauto |].
      destruct (_ || _) in E1; [eapply s3_rules_not_greeting; eauto | discriminate]. }
    destruct (greeting_shaped (lower text)); [reflexivity |].
    cbn. discriminate.
  - revert H. unfold _fallback_parse, has_domain_keyword.
    destruct (is_in "ec2" (lower text)) eqn:K1; cbn.
    { destruct (ec2_rules (lower text)) as [i |] eqn:E1.
      - intros ->. exfalso. eapply ec2_rules_not_greeting; eauto.
      - rewrite andb_false_r. discriminate. }
    destruct (is_in "instance" (lower text)) eqn:K2; cbn.
    { destruct (ec2_rules (lower text)) as [i |] eqn:E1.
      - intros ->. exfalso. eapply ec2_rules_not_greeting; eauto.
      - rewrite !andb_false_r. discriminate. }
    destruct (is_in "s3" (lower text)) eqn:K3; cbn.
    { destruct (s3_rules (lower text)) as [i |] eqn:E1.
      - intros ->. exfalso. eapply s3_rules_not_greeting; eauto.
      - rewrite !andb_false_r. discriminate. }
    destruct (is_in "bucket" (lower text)) eqn:K4; cbn.
    { destruct (s3_rules (lower text)) as [i |] eqn:E1.
      - intros ->. exfalso. eapply s3_rules_not_greeting; eauto.
      - rewrite !andb_false_r. discriminate. }
    reflexivity.
  - revert H. unfold _fast_fallback.
    destruct (if is_in "ec2" (lower text) || is_in "instance" (lower text)
              then ec2_rules (lower text) else None) as [i |] eqn:E1.
    { intros ->. exfalso.
      destruct (_ || _) in E1; [eapply ec2_rules_not_greeting; eauto | discriminate]. }
    destruct (if is_in "s3" (lower text) || is_in "bucket" (lower text)
              then s3_rules_fast (lower text) else None) as [i |] eqn:E2.
    { intros ->. exfalso.
      destruct (_ || _) in E2; [eapply s3_rules_fast_not_greeting; eauto | discriminate]. }
    destruct (existsb _ fast_greetings); [reflexivity |].
    destruct (is_in "help" (lower text)); discriminate.
  - unfold has_domain_keyword in H. unfold _fast_fallback.
    apply orb_false_elim in H as [H K4].
    apply orb_false_elim in H as [H K3].
    apply orb_false_elim in H as [K1 K2].
    rewrite K1, K2, K3, K4; cbn [orb]. rewrite H0. reflexivity.
  - apply domain_rules_first; assumption.
  - destruct (compute_keyword (lower text)) eqn:C.
    + apply domain_rules_first;
        [exact C | apply storage_action_is_compute_action, A].
    + apply domain_rules_first; assumption.
Qed.

(** The rules at work: "hello there" is a greeting of the shape
    described, and in "hi, create an instance" the domain rule outranks
    the greeting token. *)
Lemma greeting_rule_witness :
  (greeting_shaped (lower "hello there") = true
   /\ has_domain_keyword (lower "hello there") = false)
  /\ service (_fast_fallback "hi, create an instance") = "ec2"
  /\ service (_fallback_parse "hi, create an instance") = "ec2".
Proof.
  destruct greeting_rule as (H & _ & _ & D & _). split.
  - apply (H "hello there"); reflexivity.
  - apply (D "hi, create an instance"); reflexivity.
Defined.

(** C4 as stated fails on [_fast_fallback]: "this instance" is
    classified {unknown, greeting} although it holds the compute keyword
    "instance" and neither is nor starts with a greeting token (its "hi"
    sits inside "this"). *)
Lemma greeting_rule_fails_on_fast_fallback :
  _fast_fallback "this instance" = intent "unknown" "greeting"
  /\ has_domain_keyword (lower "this instance") = true
  /\ greeting_shaped (lower "this instance") = false
  /\ existsb (fun g => String.eqb "this instance" g || startswith g "this instance")
       (greeting_tokens ++ fast_greetings) = false.
Proof. repeat split. Qed.

(** ** Region tables *)

Lemma map_region_absent :
  _map_region None = "us-east-2" /\ _map_region (Some "") = "us-east-2".
Proof. split; reflexivity. Qed.

(** An input that the table does not know, once lowercased and stripped,
    gets the default region. *)
Lemma map_region_unrecognised (region_input : string) :
  dict_get region_map (strip (lower region_input)) = None ->
  _map_region (Some region_input) = "us-east-2".
Proof.
  intros H. unfold _map_region. rewrite H.
  destruct (negb (truthy region_input)); reflexivity.
Qed.

(** X1. Every entry of [region_map] maps its location name and its code to
    the same code. *)
Lemma map_region_entries (location code : string) :
  In (location, code) region_map ->
  _map_region (Some location) = code /\ _map_region (Some code) = code.
Proof.
  intros H. unfold region_map in H.
  repeat (destruct H as [H | H];
          [injection H as <- <-; split; reflexivity |]).
  destruct H.
Qed.

(** The display names of [region_names] that [_map_region] maps back to
    their code: all but the last two. *)
Lemma display_names_mapped_back :
  filter (fun e => negb (String.eqb (_map_region (Some (snd e))) (fst e)))
         region_names
  = [ ("ca-central-1", "Canada Central"); ("sa-east-1", "São Paulo") ].
Proof. reflexivity. Qed.

(** C9. The name [_get_region_name] shows for ca-central-1 is not a key
    of [region_map]: [_map_region] sends the code to itself and its own
    display name to the default region, so the pair (Canada Central,
    ca-central-1) of the two-way table does not map to one region. *)
Theorem canada_central_maps_to_default :
  _get_region_name "ca-central-1" = "Canada Central"
  /\ _map_region (Some "ca-central-1") = "ca-central-1"
  /\ _map_region (Some "Canada Central") = "us-east-2"
  /\ _map_region (Some "N. Virginia") = _map_region (Some "us-east-1").
Proof. repeat split. Qed.

(** ** Message ids *)

Lemma append_cancel_l (p a b : string) : p ++ a = p ++ b -> a = b.
Proof.
  induction p as [| c p IH]; cbn; intros H; [exact H |].
  injection H as H. auto.
Qed.

Lemma is_in_cons (needle : string) (c : ascii) (hay : string) :
  is_in needle (String c hay) = false ->
  startswith needle (String c hay) = false /\ is_in needle hay = false.
Proof.
  cbn [is_in]. intros H. apply orb_false_elim in H. exact H.
Qed.

(** Up to its first hyphen a text is read in one way only. *)
Lemma hyphen_split (s1 s2 x y : string) :
  is_in "-" s1 = false -> is_in "-" s2 = false ->
  s1 ++ String "-" x = s2 ++ String "-" y -> s1 = s2 /\ x = y.
Proof.
  revert s2. induction s1 as [| c s1 IH]; intros [| d s2] F1 F2 H; cbn in H.
  - injection H as ->. auto.
  - injection H as <- _. cbn in F2. destruct s2; discriminate.
  - injection H as -> _. cbn in F1. destruct s1; discriminate.
  - injection H as -> H.
    apply is_in_cons in F1 as [_ F1]. apply is_in_cons in F2 as [_ F2].
    destruct (IH s2 F1 F2 H) as [-> ->]. auto.
Qed.

Lemma Message_init_returns P s r c k w :
  Message_init P s r c k w
  = (Returned (mkMessage s r c k (isoformat (now P (clock_reads w)))
                 (s ++ "-" ++ r ++ "-"
                    ++ timestamp_text (now P (S (clock_reads w))))),
     mkWorld (store w) (S (S (clock_reads w))) (trace w)).
Proof. reflexivity. Qed.

(** C8, as amended. Every send builds its Message, and the id is the
    sender, the receiver and the text of the clock reading taken for it,
    joined by hyphens. Two sends between the same sender and receiver get
    distinct ids exactly when those two clock readings differ; and when no
    name holds a hyphen, two ids are equal exactly when sender, receiver
    and clock reading all are. Nothing makes two readings differ. *)
Theorem message_id_distinct_iff :
  forall (P : provider) (s1 r1 s2 r2 : string) (c1 c2 : pyval)
         (k1 k2 : string) (w1 w2 : world),
  exists m1 m2 w1' w2',
    Message_init P s1 r1 c1 k1 w1 = (Returned m1, w1')
    /\ Message_init P s2 r2 c2 k2 w2 = (Returned m2, w2')
    /\ (s1 = s2 -> r1 = r2 ->
        (id m1 <> id m2 <->
         timestamp_text (now P (S (clock_reads w1)))
         <> timestamp_text (now P (S (clock_reads w2)))))
    /\ (is_in "-" s1 = false -> is_in "-" r1 = false ->
        is_in "-" s2 = false -> is_in "-" r2 = false ->
        (id m1 = id m2 <->
         s1 = s2 /\ r1 = r2
         /\ timestamp_text (now P (S (clock_reads w1)))
            = timestamp_text (now P (S (clock_reads w2))))).
Proof.
  intros. do 4 eexists. rewrite !Message_init_returns.
  split; [reflexivity | split; [reflexivity | split]]; cbn [id].
  - intros <- <-. split; intros H E; apply H.
    + rewrite E. reflexivity.
    + apply append_cancel_l in E. cbn in E. injection E as E.
      apply append_cancel_l in E. cbn in E. injection E as E. exact E.
  - intros F1 F2 F3 F4. split.
    + intros E. cbn in E.
      apply hyphen_split in E as [-> E]; auto.
      apply hyphen_split in E as [-> E]; auto.
    + intros (-> & -> & ->). reflexivity.
Qed.

(** Two messages of one run under a ticking clock: distinct ids. *)
Lemma message_id_distinct_witness :
  exists m1 m2 w1' w2',
    Message_init (stub ticking) "CoordinatorAgent" "EC2Agent" VNone "query"
      (mkWorld (store network) 0 []) = (Returned m1, w1')
    /\ Message_init (stub ticking) "CoordinatorAgent" "EC2Agent" VNone "query"
         (mkWorld (store network) 2 []) = (Returned m2, w2')
    /\ id m1 <> id m2.
Proof.
  destruct (message_id_distinct_iff (stub ticking)
              "CoordinatorAgent" "EC2Agent" "CoordinatorAgent" "EC2Agent"
              VNone VNone "query" "query"
              (mkWorld (store network) 0 []) (mkWorld (store network) 2 []))
    as (m1 & m2 & w1' & w2' & E1 & E2 & H & _).
  exists m1, m2, w1', w2'. split; [exact E1 | split; [exact E2 |]].
  apply (H eq_refl eq_refl). cbn. discriminate.
Defined.

(** C8 as stated fails: under a clock that stands still between two
    sends, two distinct queries of the coordinator to its EC2Agent carry
    the same id. *)
Lemma message_ids_collide :
  exists m1 m2,
    message_queue
      (store (snd (query_agent (stub frozen) 0 "EC2Agent" "second"
                     (snd (query_agent (stub frozen) 0 "EC2Agent" "first"
                             network)))) 1)
    = [m1; m2]
    /\ content m1 <> content m2
    /\ id m1 = id m2.
Proof.
  do 2 eexists. split; [reflexivity | split; [discriminate | reflexivity]].
Qed.

(** ** Computations *)

Lemma extend_nil w : extend w [] = w.
Proof.
  destruct w; unfold extend; cbn. rewrite app_nil_r. reflexivity.
Qed.

Lemma extend_extend w cs ds :
  extend (extend w cs) ds = extend w (cs ++ ds)%list.
Proof.
  unfold extend; cbn. rewrite map_app, app_assoc. reflexivity.
Qed.

Lemma calls_only_ret {A} (a : A) : calls_only (ret a).
Proof. intros w. exists []. cbn. rewrite extend_nil. reflexivity. Qed.

Lemma calls_only_raise {A} (e : string) : calls_only (@raise A e).
Proof. intros w. exists []. cbn. rewrite extend_nil. reflexivity. Qed.

Lemma calls_only_request {A} (c : call) (oracle : list event -> outcome A) :
  calls_only (request c oracle).
Proof. intros w. exists [c]. reflexivity. Qed.

Lemma calls_only_bind {A B} (m : M A) (k : A -> M B) :
  calls_only m -> (forall a, calls_only (k a)) -> calls_only (bind m k).
Proof.
  intros Hm Hk w. unfold bind. destruct (Hm w) as [cs E].
  destruct (m w) as [[a | e] w1]; cbn in E; subst w1.
  - destruct (Hk a (extend w cs)) as [ds E]. exists (cs ++ ds)%list.
    rewrite E. apply extend_extend.
  - exists cs. reflexivity.
Qed.

Lemma calls_only_try {A} (m : M A) (h : string -> M A) :
  calls_only m -> (forall e, calls_only (h e)) -> calls_only (try_except m h).
Proof.
  intros Hm Hh w. unfold try_except. destruct (Hm w) as [cs E].
  destruct (m w) as [[a | e] w1]; cbn in E; subst w1.
  - exists cs. reflexivity.
  - destruct (Hh e (extend w cs)) as [ds E]. exists (cs ++ ds)%list.
    rewrite E. apply extend_extend.
Qed.

Lemma calls_only_get_agent r : calls_only (get_agent r).
Proof. intros w. exists []. cbn. rewrite extend_nil. reflexivity. Qed.

Lemma returns_ret {A} (a : A) : returns (ret a).
Proof. intros w. exists a. reflexivity. Qed.

Lemma returns_bind {A B} (m : M A) (k : A -> M B) :
  returns m -> (forall a, returns (k a)) -> returns (bind m k).
Proof.
  intros Hm Hk w. unfold bind. destruct (Hm w) as [a E].
  destruct (m w) as [[a' | e] w1]; cbn in E; [| discriminate].
  apply Hk.
Qed.

Lemma returns_try {A} (m : M A) (h : string -> M A) :
  (forall e, returns (h e)) -> returns (try_except m h).
Proof.
  intros Hh w. unfold try_except.
  destruct (m w) as [[a | e] w1]; [exists a; reflexivity | apply Hh].
Qed.

Lemma returns_get_agent r : returns (get_agent r).
Proof. intros w. eexists. reflexivity. Qed.

Create HintDb frame.

#[local] Hint Resolve calls_only_ret calls_only_raise calls_only_request
  calls_only_get_agent returns_ret returns_get_agent : frame.

(** Breaks a goal about a composed computation into its parts. *)
Ltac frame :=
  repeat (intros; cbv zeta;
          match goal with
          | |- _ /\ _ => split
          | |- context [bind (ret ?a) ?k] =>
              change (bind (ret a) k) with (k a); cbv beta
          | |- context [py_lower (VStr ?s)] =>
              change (py_lower (VStr s)) with (ret (lower s))
          | |- calls_only (bind _ _) => apply calls_only_bind
          | |- calls_only (try_except _ _) => apply calls_only_try
          | |- returns (bind _ _) => apply returns_bind
          | |- returns (try_except _ _) => apply returns_try
          | |- calls_only (if ?b then _ else _) => destruct b
          | |- returns (if ?b then _ else _) => destruct b
          | |- calls_only (match ?x with _ => _ end) => destruct x
          | |- returns (match ?x with _ => _ end) => destruct x
          | _ => solve [auto with frame]
          end).

(** ** The resource operations touch no agent and, behind their [try],
    never raise *)

Lemma list_instances_frame P :
  calls_only (list_instances P) /\ returns (list_instances P).
Proof. unfold list_instances; frame. Qed.

Lemma get_instance_info_frame P i :
  calls_only (_get_instance_info P i) /\ returns (_get_instance_info P i).
Proof. unfold _get_instance_info; frame. Qed.

Lemma search_regions_frame P regions i :
  calls_only (search_regions P regions i) /\ returns (search_regions P regions i).
Proof.
  induction regions as [| r rest [IH1 IH2]]; cbn [search_regions]; frame.
Qed.

Lemma find_instance_region_frame P i : calls_only (_find_instance_region P i).
Proof.
  unfold _find_instance_region; frame. intros regions. apply search_regions_frame.
Qed.

Lemma stop_instance_frame P i :
  calls_only (stop_instance P i) /\ returns (stop_instance P i).
Proof.
  unfold stop_instance; frame; apply find_instance_region_frame.
Qed.

Lemma terminate_instance_frame P i :
  calls_only (terminate_instance P i) /\ returns (terminate_instance P i).
Proof.
  unfold terminate_instance; frame; apply find_instance_region_frame.
Qed.

Lemma find_ami_frame P region patterns :
  calls_only (find_ami P region patterns) /\ returns (find_ami P region patterns).
Proof.
  induction patterns as [| p rest [IH1 IH2]]; cbn [find_ami]; frame.
Qed.

Lemma create_instance_frame P t r :
  calls_only (create_instance P t r) /\ returns (create_instance P t r).
Proof.
  unfold create_instance; frame; apply (find_ami_frame P).
Qed.

Lemma bucket_exists_frame P b :
  calls_only (_bucket_exists P b) /\ returns (_bucket_exists P b).
Proof. unfold _bucket_exists; frame. Qed.

Lemma create_bucket_frame P b r :
  calls_only (create_bucket P b r) /\ returns (create_bucket P b r).
Proof. unfold create_bucket; frame. Qed.

Lemma list_buckets_frame P :
  calls_only (list_buckets P) /\ returns (list_buckets P).
Proof. unfold list_buckets; frame. Qed.

Lemma delete_objects_frame P b contents : calls_only (delete_objects P b contents).
Proof. induction contents; cbn [delete_objects]; frame. Qed.

Lemma delete_bucket_frame P b force :
  calls_only (delete_bucket P b force) /\ returns (delete_bucket P b force).
Proof.
  unfold delete_bucket; frame; apply delete_objects_frame.
Qed.

Lemma list_objects_frame P b :
  calls_only (list_objects P b) /\ returns (list_objects P b).
Proof. unfold list_objects; frame. Qed.

(** ** Handlers *)

Lemma py_get_calls_only v k d : calls_only (py_get v k d).
Proof. destruct v; cbn [py_get]; auto with frame. Qed.

Lemma py_lower_calls_only v : calls_only (py_lower v).
Proof. destruct v; cbn [py_lower]; auto with frame. Qed.

Lemma BaseAgent_handle_message_frame m :
  calls_only (BaseAgent_handle_message m) /\ returns (BaseAgent_handle_message m).
Proof. unfold BaseAgent_handle_message; frame. Qed.

#[local] Hint Resolve py_get_calls_only py_lower_calls_only : frame.

Lemma EC2Agent_handle_message_calls_only P m :
  calls_only (EC2Agent_handle_message P m).
Proof.
  unfold EC2Agent_handle_message; frame;
    first [ apply list_instances_frame | apply get_instance_info_frame
          | apply BaseAgent_handle_message_frame ].
Qed.

Lemma S3Agent_handle_message_calls_only P m :
  calls_only (S3Agent_handle_message P m).
Proof.
  unfold S3Agent_handle_message; frame;
    first [ apply list_buckets_frame | apply bucket_exists_frame
          | apply BaseAgent_handle_message_frame ].
Qed.

Lemma handle_message_calls_only P self m : calls_only (handle_message P self m).
Proof.
  unfold handle_message; frame;
    first [ apply EC2Agent_handle_message_calls_only
          | apply S3Agent_handle_message_calls_only
          | apply BaseAgent_handle_message_frame ].
Qed.





(** ** Delivery *)

Lemma receive_message_run P self m w :
  receive_message P self m w
  = handle_message P self m
      (mkWorld
         (update (store w) self
            (push_history (push_queue (store w self) m) (to_dict m)))
         (clock_reads w) (trace w ++ [Delivered self m])).
Proof. reflexivity. Qed.

Lemma send_message_unregistered P self receiver content kind w :
  dict_get (agents_registry (store w self)) receiver = None ->
  send_message P self receiver content kind w = (Returned VNone, w).
Proof.
  intros H. unfold send_message, bind, get_agent. rewrite H. reflexivity.
Qed.

Lemma send_message_registered P self receiver content kind w target :
  dict_get (agents_registry (store w self)) receiver = Some target ->
  exists message,
    Message_init P (name (store w self)) receiver content kind w
    = (Returned message, mkWorld (store w) (S (S (clock_reads w))) (trace w))
    /\ send_message P self receiver content kind w
       = receive_message P target message
           (mkWorld
              (update (store w) self
                 (push_history (store w self) (to_dict message)))
              (S (S (clock_reads w))) (trace w)).
Proof.
  intros H. eexists. split; [reflexivity |].
  unfold send_message, bind, get_agent. rewrite H. reflexivity.
Qed.

(** What a delivery leaves behind: the sender's history and the
    receiver's queue and history each got the message, the trace got the
    delivery and then the provider calls of the handler. *)
Lemma send_message_world P self receiver content kind w target message w0 :
  dict_get (agents_registry (store w self)) receiver = Some target ->
  Message_init P (name (store w self)) receiver content kind w
  = (Returned message, w0) ->
  exists cs,
    snd (send_message P self receiver content kind w)
    = mkWorld
        (update
           (update (store w) self
              (push_history (store w self) (to_dict message)))
           target
           (push_history
              (push_queue
                 (update (store w) self
                    (push_history (store w self) (to_dict message)) target)
                 message)
              (to_dict message)))
        (S (S (clock_reads w)))
        (trace w ++ Delivered target message :: map Called cs).
Proof.
  intros H E.
  destruct (send_message_registered P self receiver content kind w target H)
    as (m & E' & ->).
  rewrite E' in E. injection E as -> _.
  rewrite receive_message_run.
  match goal with
  | |- context [handle_message P target message ?w1] =>
      destruct (handle_message_calls_only P target message w1) as [cs ->]
  end.
  exists cs. unfold extend; cbn. rewrite <- app_assoc. reflexivity.
Qed.

Lemma update_same st r a : update st r a r = a.
Proof. unfold update. rewrite Nat.eqb_refl. reflexivity. Qed.

Lemma update_other st r a x : x <> r -> update st r a x = st x.
Proof.
  intros H. unfold update. apply Nat.eqb_neq in H. rewrite H. reflexivity.
Qed.

Lemma length_push_history a d :
  List.length (conversation_history (push_history a d))
  = S (List.length (conversation_history a)).
Proof. cbn. rewrite length_app. cbn. lia. Qed.



Lemma calls_app t u : calls (t ++ u) = (calls t ++ calls u)%list.
Proof. unfold calls. apply flat_map_app. Qed.

(** C2. A send to a name that is not in the sender's registry returns
    [None] (it raises nothing) and leaves the whole world as it was: no
    [receive_message] and no handler ran, no history grew. A send to a
    registered name builds the Message, appends it to the sender's history
    and is the nested call of the receiver's [receive_message] on it;
    afterwards every agent's history is longer by one entry for being the
    sender plus one for being the receiver, so sender and receiver, two
    agents, each gained exactly the message and all others nothing; the
    receiver's queue gained the message, and the trace gained this one
    delivery followed by provider calls only. *)
Theorem send_message_routing :
  forall (P : provider) (w : world) (self : ref) (receiver : string)
         (content : pyval) (kind : string),
    (dict_get (agents_registry (store w self)) receiver = None ->
     send_message P self receiver content kind w = (Returned VNone, w))
    /\ (forall target,
           dict_get (agents_registry (store w self)) receiver = Some target ->
           exists message w1 cs,
             Message_init P (name (store w self)) receiver content kind w
             = (Returned message, w1)
             /\ send_message P self receiver content kind w
                = receive_message P target message
                    (mkWorld
                       (update (store w1) self
                          (push_history (store w self) (to_dict message)))
                       (clock_reads w1) (trace w1))
             /\ let w' := snd (send_message P self receiver content kind w) in
                (forall x,
                    List.length (conversation_history (store w' x))
                    = List.length (conversation_history (store w x))
                      + (if Nat.eqb x self then 1 else 0)
                      + (if Nat.eqb x target then 1 else 0))
                /\ (self <> target ->
                    conversation_history (store w' self)
                    = (conversation_history (store w self) ++ [to_dict message])%list
                    /\ conversation_history (store w' target)
                       = (conversation_history (store w target)
                            ++ [to_dict message])%list)
                /\ message_queue (store w' target)
                   = (message_queue (store w target) ++ [message])%list
                /\ trace w'
                   = (trace w ++ Delivered target message :: map Called cs)%list).
Proof.
  intros P w self receiver content kind.
  split; [apply send_message_unregistered |].
  intros target H.
  destruct (send_message_registered P self receiver content kind w target H)
    as (message & E & R).
  destruct (send_message_world P self receiver content kind w target message _ H E)
    as [cs W].
  exists message, (mkWorld (store w) (S (S (clock_reads w))) (trace w)), cs.
  split; [exact E |]. split; [exact R |].
  cbv zeta. rewrite W. cbn [store trace].
  split; [| split; [| split; [| reflexivity]]].
  - intros x. unfold update.
    destruct (Nat.eqb_spec x target) as [Xt | Nt];
      destruct (Nat.eqb_spec x self) as [Xs | Ns]; subst;
      rewrite ?Nat.eqb_refl;
      try (apply Nat.eqb_neq in Ns; rewrite ?Ns);
      cbn; rewrite ?length_app; cbn; lia.
  - intros D. split.
    + rewrite update_other by assumption. rewrite update_same. reflexivity.
    + rewrite update_same. rewrite update_other by congruence. reflexivity.
  - rewrite update_same. cbn. unfold update.
    destruct (Nat.eqb_spec target self) as [-> |]; reflexivity.
Qed.


(** In the assembled network the coordinator reaches its EC2Agent and
    reaches nobody under an unknown name. *)
Lemma send_message_routing_witness :
  send_message (stub frozen) 0 "Nobody" VNone "request" network
  = (Returned VNone, network)
  /\ List.length
       (conversation_history
          (store (snd (send_message (stub frozen) 0 "EC2Agent" VNone
                         "notification" network)) 1))
     = List.length (conversation_history (store network 1)) + 0 + 1.
Proof.
  split.
  - apply (send_message_routing (stub frozen) network 0 "Nobody" VNone "request").
    reflexivity.
  - destruct (send_message_routing (stub frozen) network 0 "EC2Agent" VNone
                "notification") as [_ H].
    destruct (H 1 eq_refl) as (m & w1 & cs & _ & _ & L & _).
    exact (L 1).
Defined.

(** ** Broadcast *)


Lemma keys_dict_set {V} (d : list (string * V)) k v :
  ~ In k (keys d) -> keys (dict_set d k v) = (keys d ++ [k])%list.
Proof.
  induction d as [| [k0 v0] d IH]; intros H; [reflexivity |].
  cbn in H. cbn [dict_set]. destruct (String.eqb_spec k k0) as [-> | _].
  - exfalso. apply H. left. reflexivity.
  - cbn. f_equal. apply IH. intros K. apply H. right. exact K.
Qed.









(** ** The region locator *)

Lemma search_regions_step P region rest i w :
  search_regions P (region :: rest) i w
  = if probe_ok P (trace w) region i
    then (Returned (Some region), extend w (probes i [region]))
    else search_regions P rest i (extend w (probes i [region])).
Proof.
  cbn [search_regions]. unfold probe_ok, bind, try_except, request, ret.
  destruct (on_describe_instances_in P (trace w) region i) as [n | e];
    [destruct (Nat.eqb n 0) |]; reflexivity.
Qed.

Lemma none_owns_tail P t i region rest :
  none_owns P t i (region :: rest) ->
  probe_ok P t region i = false
  /\ none_owns P (t ++ map Called (probes i [region])) i rest.
Proof.
  intros H. split.
  - specialize (H [] region rest eq_refl). cbn in H.
    rewrite app_nil_r in H. exact H.
  - intros pre x post ->.
    specialize (H (region :: pre) x post eq_refl).
    cbn in H |- *. rewrite <- app_assoc. exact H.
Qed.

Lemma search_regions_none P i regions w :
  none_owns P (trace w) i regions ->
  search_regions P regions i w = (Returned None, extend w (probes i regions)).
Proof.
  revert w. induction regions as [| region rest IH]; intros w H.
  - cbn. rewrite extend_nil. reflexivity.
  - apply none_owns_tail in H as [F H].
    rewrite search_regions_step, F.
    rewrite (IH (extend w (probes i [region])) H), extend_extend.
    reflexivity.
Qed.

Lemma search_regions_first P i before region after w :
  none_owns P (trace w) i before ->
  probe_ok P (trace w ++ map Called (probes i before)) region i = true ->
  search_regions P (before ++ region :: after) i w
  = (Returned (Some region), extend w (probes i (before ++ [region]))).
Proof.
  revert w. induction before as [| b before IH]; intros w H OK.
  - cbn [app] in *. cbn in OK. rewrite app_nil_r in OK.
    rewrite search_regions_step, OK. reflexivity.
  - apply none_owns_tail in H as [F H].
    cbn [app]. rewrite search_regions_step, F.
    rewrite (IH (extend w (probes i [b])) H).
    + rewrite extend_extend. reflexivity.
    + cbn. rewrite <- app_assoc. exact OK.
Qed.

(** C5. When the region listing returns [regions], the locator probes
    them in that order, after the listing: it returns the first region
    whose probe succeeds, having sent the probes up to that one and none
    after it; when no probe succeeds it has probed every region and
    reports not-found ([None]), and then [terminate_instance] sends no
    terminate call and returns the error value "Instance X not found in
    any region". *)
Theorem region_locator :
  forall (P : provider) (w : world) (instance_id : string)
         (regions : list string),
    on_describe_regions P (trace w) = Returned regions ->
    (forall before region after,
        regions = (before ++ region :: after)%list ->
        none_owns P (trace w ++ [Called describe_regions]) instance_id before ->
        probe_ok P
          ((trace w ++ [Called describe_regions])
             ++ map Called (probes instance_id before))
          region instance_id = true ->
        _find_instance_region P instance_id w
        = (Returned (Some region),
           extend w (describe_regions
                       :: probes instance_id (before ++ [region]))))
    /\ (none_owns P (trace w ++ [Called describe_regions]) instance_id regions ->
        _find_instance_region P instance_id w
        = (Returned None, extend w (describe_regions :: probes instance_id regions))
        /\ terminate_instance P instance_id w
           = (Returned
                (error_dict ("Instance " ++ instance_id
                             ++ " not found in any region")),
              extend w (describe_regions :: probes instance_id regions))).
Proof.
  intros P w instance_id regions L.
  assert (Run : _find_instance_region P instance_id w
                = search_regions P regions instance_id
                    (extend w [describe_regions])).
  { unfold _find_instance_region, bind, request. rewrite L. reflexivity. }
  split.
  - intros before region after -> N OK. rewrite Run.
    rewrite (search_regions_first P instance_id before region after
               (extend w [describe_regions]) N OK).
    rewrite extend_extend. reflexivity.
  - intros N.
    assert (F : _find_instance_region P instance_id w
                = (Returned None,
                   extend w (describe_regions :: probes instance_id regions))).
    { rewrite Run.
      rewrite (search_regions_none P instance_id regions
                 (extend w [describe_regions]) N).
      rewrite extend_extend. reflexivity. }
    split; [exact F |].
    unfold terminate_instance, try_except, bind. rewrite F. reflexivity.
Qed.

(** The stub's instance lives in the second of three regions; the id
    rsc-unknown lives in none. *)
Lemma region_locator_witness :
  _find_instance_region (stub frozen) "i-0123456789abcdef0" network
  = (Returned (Some "eu-west-1"),
     extend network
       [ describe_regions;
         describe_instances_in "us-east-1" "i-0123456789abcdef0";
         describe_instances_in "eu-west-1" "i-0123456789abcdef0" ])
  /\ terminate_instance (stub frozen) "rsc-unknown" network
     = (Returned (error_dict "Instance rsc-unknown not found in any region"),
        extend network
          [ describe_regions;
            describe_instances_in "us-east-1" "rsc-unknown";
            describe_instances_in "eu-west-1" "rsc-unknown";
            describe_instances_in "ap-south-1" "rsc-unknown" ]).
Proof.
  split.
  - destruct (region_locator (stub frozen) network "i-0123456789abcdef0"
                ["us-east-1"; "eu-west-1"; "ap-south-1"] eq_refl) as [H _].
    apply (H ["us-east-1"] "eu-west-1" ["ap-south-1"] eq_refl).
    + intros pre region post E.
      destruct pre as [| p [| q pre]]; try discriminate.
      injection E as <- _. reflexivity.
    + reflexivity.
  - destruct (region_locator (stub frozen) network "rsc-unknown"
                ["us-east-1"; "eu-west-1"; "ap-south-1"] eq_refl) as [_ H].
    apply H. intros pre region post _. reflexivity.
Defined.

(** ** The count in a query's answer *)

Lemma no_count_bind {A} (m : M A) (k : A -> M pyval) :
  (forall a, no_count (k a)) -> no_count (bind m k).
Proof.
  intros H w r w'. unfold bind.
  destruct (m w) as [[a | e] w1]; [apply H | discriminate].
Qed.

Lemma no_count_try (m : M pyval) (h : string -> M pyval) :
  no_count m -> (forall e, no_count (h e)) -> no_count (try_except m h).
Proof.
  intros Hm Hh w r w'. unfold try_except.
  destruct (m w) as [[a | e] w1] eqn:E.
  - intros K. injection K as <- <-. eapply Hm; eauto.
  - apply Hh.
Qed.

Lemma no_count_ret r : has_key r "count" = false -> no_count (ret r).
Proof. intros H w r' w' K. injection K as <- _. exact H. Qed.

Lemma no_count_raise e : no_count (raise e).
Proof. intros w r w' K. discriminate. Qed.

Lemma no_count_bind_raise {A} e (k : A -> M pyval) : no_count (bind (raise e) k).
Proof. intros w r w' K. discriminate. Qed.

Ltac no_count :=
  repeat (intros; cbv zeta;
          match goal with
          | |- no_count (bind (raise _) _) => apply no_count_bind_raise
          | |- no_count (bind _ _) => apply no_count_bind
          | |- no_count (try_except _ _) => apply no_count_try
          | |- no_count (ret _) => apply no_count_ret; reflexivity
          | |- no_count (raise _) => apply no_count_raise
          | |- no_count (if ?b then _ else _) => destruct b
          | |- no_count (match ?x with _ => _ end) => destruct x
          end).

Lemma list_instances_no_count P : no_count (list_instances P).
Proof. unfold list_instances; no_count. Qed.

Lemma get_instance_info_no_count P i : no_count (_get_instance_info P i).
Proof. unfold _get_instance_info; no_count. Qed.

Lemma list_buckets_no_count P : no_count (list_buckets P).
Proof. unfold list_buckets; no_count. Qed.

Lemma bucket_exists_no_count P b : no_count (_bucket_exists P b).
Proof. unfold _bucket_exists; no_count. Qed.

Lemma BaseAgent_no_count m : no_count (BaseAgent_handle_message m).
Proof. unfold BaseAgent_handle_message; no_count. Qed.

Create HintDb nocount.

#[local] Hint Resolve list_instances_no_count get_instance_info_no_count
  list_buckets_no_count bucket_exists_no_count BaseAgent_no_count
  no_count_raise : nocount.

(** Closes a goal in which a computation without [count] is supposed to
    have returned one. *)
Ltac absurd_count H Hc :=
  exfalso;
  match type of H with
  | ?m ?w = _ =>
      let NC := fresh "NC" in
      assert (NC : no_count m);
      [ solve [no_count; auto with nocount]
      | rewrite (NC _ _ _ H) in Hc; discriminate ]
  end.

Lemma EC2Agent_count_needs_word P m w r w' :
  EC2Agent_handle_message P m w = (Returned r, w') ->
  has_key r "count" = true ->
  msg_type m = "query"
  /\ exists d q,
       content m = VDict d
       /\ dict_get d "query" = Some (VStr q)
       /\ is_in "count" (lower q) = true.
Proof.
  unfold EC2Agent_handle_message. cbv zeta. intros H Hc.
  destruct (String.eqb_spec (msg_type m) "query") as [K | K];
    [| absurd_count H Hc].
  split; [exact K |].
  destruct (content m) as [| | | | | d]; cbn [py_get] in H;
    try absurd_count H Hc.
  exists d.
  destruct (dict_get d "query") as [v |];
    change (bind (ret ?a) ?k) with (k a) in H; cbv beta in H.
  - destruct v as [| | | q | |]; cbn [py_lower] in H; try absurd_count H Hc.
    change (bind (ret ?a) ?k) with (k a) in H; cbv beta in H.
    exists q. split; [reflexivity | split; [reflexivity |]].
    destruct (is_in "instance" (lower q) && is_in "count" (lower q)) eqn:B;
      [apply andb_prop in B as [_ B]; exact B | absurd_count H Hc].
  - cbn [py_lower lower] in H.
    change (bind (ret ?a) ?k) with (k a) in H; cbv beta in H.
    cbn [is_in startswith andb orb] in H. absurd_count H Hc.
Qed.

Lemma S3Agent_count_needs_word P m w r w' :
  S3Agent_handle_message P m w = (Returned r, w') ->
  has_key r "count" = true ->
  msg_type m = "query"
  /\ exists d q,
       content m = VDict d
       /\ dict_get d "query" = Some (VStr q)
       /\ is_in "count" (lower q) = true.
Proof.
  unfold S3Agent_handle_message. cbv zeta. intros H Hc.
  destruct (String.eqb_spec (msg_type m) "query") as [K | K];
    [| absurd_count H Hc].
  split; [exact K |].
  destruct (content m) as [| | | | | d]; cbn [py_get] in H;
    try absurd_count H Hc.
  exists d.
  destruct (dict_get d "query") as [v |];
    change (bind (ret ?a) ?k) with (k a) in H; cbv beta in H.
  - destruct v as [| | | q | |]; cbn [py_lower] in H; try absurd_count H Hc.
    change (bind (ret ?a) ?k) with (k a) in H; cbv beta in H.
    exists q. split; [reflexivity | split; [reflexivity |]].
    destruct (is_in "bucket" (lower q) && is_in "count" (lower q)) eqn:B;
      [apply andb_prop in B as [_ B]; exact B | absurd_count H Hc].
  - cbn [py_lower lower] in H.
    change (bind (ret ?a) ?k) with (k a) in H; cbv beta in H.
    cbn [is_in startswith andb orb] in H. absurd_count H Hc.
Qed.

(** ** The coordinator's enrichment queries *)

(** Neither text of the coordinator holds the word "count", so every
    handler of the repository falls through to the acknowledgement,
    without a provider call. *)
Lemma enrichment_query_unhandled P target m w q :
  q = "How many buckets does user have?"
  \/ q = "How many instances does user have?" ->
  msg_type m = "query" ->
  content m = VDict [("query", VStr q)] ->
  handle_message P target m w = (Returned unhandled, w).
Proof.
  intros Hq Hk Hc. unfold handle_message, bind, get_agent.
  destruct (class (store w target));
    unfold EC2Agent_handle_message, S3Agent_handle_message,
      BaseAgent_handle_message;
    cbv zeta; rewrite ?Hk, ?Hc; destruct Hq as [-> | ->]; reflexivity.
Qed.

Lemma query_agent_enrichment P self peer q w :
  q = "How many buckets does user have?"
  \/ q = "How many instances does user have?" ->
  exists info w1,
    query_agent P self peer q w = (Returned info, w1)
    /\ (info = VNone \/ info = unhandled)
    /\ calls (trace w1) = calls (trace w)
    /\ (forall target,
           dict_get (agents_registry (store w self)) peer = Some target ->
           info = unhandled
           /\ exists m,
                trace w1 = (trace w ++ [Delivered target m])%list
                /\ msg_type m = "query"
                /\ content m = VDict [("query", VStr q)])
    /\ (dict_get (agents_registry (store w self)) peer = None ->
        info = VNone /\ w1 = w).
Proof.
  intros Hq. unfold query_agent.
  destruct (dict_get (agents_registry (store w self)) peer) as [target |] eqn:R.
  - destruct (send_message_registered P self peer
                (VDict [("query", VStr q)]) "query" w target R)
      as (m & E & ->).
    rewrite Message_init_returns in E. injection E as <-.
    rewrite receive_message_run.
    erewrite enrichment_query_unhandled; [| exact Hq | reflexivity | reflexivity].
    do 2 eexists. split; [reflexivity |]. split; [right; reflexivity |].
    cbn [trace]. split; [| split].
    + rewrite calls_app. cbn. apply app_nil_r.
    + intros t Ht. injection Ht as <-. split; [reflexivity |].
      eexists. split; [reflexivity |]. split; reflexivity.
    + discriminate.
  - rewrite (send_message_unregistered P self peer _ "query" w R).
    exists VNone, w. split; [reflexivity |]. split; [left; reflexivity |].
    split; [reflexivity |]. split; [discriminate | auto].
Qed.

Lemma with_tip_silent info result before after :
  info = VNone \/ info = unhandled ->
  with_tip info result before after = ret result.
Proof. intros [-> | ->]; reflexivity. Qed.

Lemma bind_ret_r {A} (m : M A) w : bind m (fun a => ret a) w = m w.
Proof. unfold bind, ret. destruct (m w) as [[a | e] w1]; reflexivity. Qed.

(** The create handlers: the query first, then the create operation, whose
    result is returned as it is. *)
Lemma handle_create_instance P self i text w :
  action i = "create_instance" ->
  exists info w1,
    query_agent P self "S3Agent" "How many buckets does user have?" w
    = (Returned info, w1)
    /\ _handle_ec2_action P self i text w
       = create_instance P
           (match param (parameters i) "instance_type" with
            | Some t => t
            | None => "t2.micro"
            end)
           (param (parameters i) "region") w1.
Proof.
  intros Ha.
  destruct (query_agent_enrichment P self "S3Agent"
              "How many buckets does user have?" w (or_introl eq_refl))
    as (info & w1 & E & Hi & _).
  exists info, w1. split; [exact E |].
  unfold _handle_ec2_action. cbv zeta. rewrite Ha. cbn [String.eqb Ascii.eqb Bool.eqb].
  unfold bind at 1. rewrite E.
  rewrite <- bind_ret_r. unfold bind.
  destruct (create_instance P _ _ w1) as [[r | e] w2]; [| reflexivity].
  rewrite (with_tip_silent info r _ _ Hi). reflexivity.
Qed.

Lemma handle_create_bucket P self i text w bucket_name :
  action i = "create_bucket" ->
  param (parameters i) "bucket_name" = Some bucket_name ->
  bucket_name <> "" ->
  exists info w1,
    query_agent P self "EC2Agent" "How many instances does user have?" w
    = (Returned info, w1)
    /\ _handle_s3_action P self i text w
       = create_bucket P bucket_name (param (parameters i) "region") w1.
Proof.
  intros Ha Hb Hn.
  destruct (query_agent_enrichment P self "EC2Agent"
              "How many instances does user have?" w (or_intror eq_refl))
    as (info & w1 & E & Hi & _).
  exists info, w1. split; [exact E |].
  unfold _handle_s3_action. cbv zeta. rewrite Ha, Hb.
  cbn [String.eqb Ascii.eqb Bool.eqb absent value_of].
  destruct bucket_name as [| c s]; [congruence |]. cbn [truthy negb].
  unfold bind at 1. rewrite E.
  rewrite <- bind_ret_r. unfold bind.
  destruct (create_bucket P _ _ w1) as [[r | e] w2]; [| reflexivity].
  rewrite (with_tip_silent info r _ _ Hi). reflexivity.
Qed.

(** C7. The query handlers of EC2Agent and S3Agent put a [count] in
    their answer only for a query whose text holds the word "count".
    Neither enrichment text of the coordinator holds it, so whatever agent
    is registered under the peer's name the answer is the default
    acknowledgement (or [None] when nobody is), it has no [count], the
    positive-count test fails, and the create handlers return the result
    of the create operation as it is: no tip is ever added. *)
Theorem enrichment_never_tips :
  forall P : provider,
    (forall m w r w',
        EC2Agent_handle_message P m w = (Returned r, w') ->
        has_key r "count" = true ->
        msg_type m = "query"
        /\ exists d q,
             content m = VDict d
             /\ dict_get d "query" = Some (VStr q)
             /\ is_in "count" (lower q) = true)
    /\ (forall m w r w',
           S3Agent_handle_message P m w = (Returned r, w') ->
           has_key r "count" = true ->
           msg_type m = "query"
           /\ exists d q,
                content m = VDict d
                /\ dict_get d "query" = Some (VStr q)
                /\ is_in "count" (lower q) = true)
    /\ is_in "count" (lower "How many buckets does user have?") = false
    /\ is_in "count" (lower "How many instances does user have?") = false
    /\ (forall self peer q w,
           q = "How many buckets does user have?"
           \/ q = "How many instances does user have?" ->
           exists info w1,
             query_agent P self peer q w = (Returned info, w1)
             /\ (info = VNone \/ info = unhandled)
             /\ has_key info "count" = false)
    /\ (forall self i text w,
           action i = "create_instance" ->
           exists info w1,
             query_agent P self "S3Agent" "How many buckets does user have?" w
             = (Returned info, w1)
             /\ _handle_ec2_action P self i text w
                = create_instance P
                    (match param (parameters i) "instance_type" with
                     | Some t => t
                     | None => "t2.micro"
                     end)
                    (param (parameters i) "region") w1)
    /\ (forall self i text w bucket_name,
           action i = "create_bucket" ->
           param (parameters i) "bucket_name" = Some bucket_name ->
           bucket_name <> "" ->
           exists info w1,
             query_agent P self "EC2Agent" "How many instances does user have?" w
             = (Returned info, w1)
             /\ _handle_s3_action P self i text w
                = create_bucket P bucket_name (param (parameters i) "region") w1).
Proof.
  intros P.
  split; [intros m w r w'; apply EC2Agent_count_needs_word |].
  split; [intros m w r w'; apply S3Agent_count_needs_word |].
  split; [reflexivity |]. split; [reflexivity |].
  split; [| split].
  - intros self peer q w Hq.
    destruct (query_agent_enrichment P self peer q w Hq)
      as (info & w1 & E & Hi & _).
    exists info, w1. split; [exact E |]. split; [exact Hi |].
    destruct Hi as [-> | ->]; reflexivity.
  - intros self i text w. apply handle_create_instance.
  - intros self i text w b. apply handle_create_bucket.
Qed.

(** "create an ec2 instance" in the assembled network: the S3Agent is
    asked, and the result is that of [create_instance] alone. *)
Lemma enrichment_never_tips_witness :
  exists info w1,
    query_agent (stub frozen) 0 "S3Agent" "How many buckets does user have?"
      network = (Returned info, w1)
    /\ _handle_ec2_action (stub frozen) 0 (intent "ec2" "create_instance")
         "create an ec2 instance" network
       = create_instance (stub frozen) "t2.micro" None w1.
Proof.
  destruct (enrichment_never_tips (stub frozen)) as (_ & _ & _ & _ & _ & H & _).
  apply (H 0 (intent "ec2" "create_instance") "create an ec2 instance" network).
  reflexivity.
Defined.

(** ** The advisory tip *)

Lemma frame_run {A} (m : M A) :
  calls_only m -> returns m ->
  forall w, exists r cs, m w = (Returned r, extend w cs).
Proof.
  intros C R w. destruct (C w) as [cs E]. destruct (R w) as [r F].
  exists r, cs. destruct (m w) as [o w']. cbn in E, F. subst. reflexivity.
Qed.

(** A result that differs from the create operation's has a positive
    count behind it. *)
Lemma with_tip_only_positive info result before after w r w' :
  with_tip info result before after w = (Returned r, w') ->
  r = result \/ exists d, info = VDict d /\ positive d.
Proof.
  unfold with_tip. destruct (py_bool info) eqn:B;
    [| intros H; injection H as <- _; auto].
  destruct info as [| b | z | s | l | d];
    try (unfold positive_count; cbn [py_get]; unfold bind, raise;
         intros H; discriminate).
  unfold positive_count. cbn [py_get].
  change (bind (ret ?a) ?k) with (k a). cbv beta.
  destruct (dict_get d "count") as [[| b | z | s | l | d'] |] eqn:C;
    try (unfold bind, raise; intros H; discriminate).
  - destruct b; change (bind (ret ?a) ?k) with (k a); cbv beta.
    + intros _. right. exists d. split; [reflexivity | right; exact C].
    + intros H; injection H as <- _; auto.
  - destruct (Z.ltb_spec 0 z) as [L | L];
      change (bind (ret ?a) ?k) with (k a); cbv beta.
    + intros _. right. exists d. split; [reflexivity |]. left. eauto.
    + intros H; injection H as <- _; auto.
  - cbn. intros H; injection H as <- _; auto.
Qed.

Lemma with_tip_positive d n result before after :
  dict_get d "count" = Some (VInt n) -> (0 < n)%Z ->
  with_tip (VDict d) (VDict result) before after
  = ret (VDict (dict_set result "tip" (VStr (before ++ str_of_Z n ++ after)))).
Proof.
  intros C L. unfold with_tip, positive_count.
  destruct d as [| e d]; [discriminate |]. cbn [py_bool py_get]. rewrite C.
  change (bind (ret ?a) ?k) with (k a). cbv beta iota.
  apply Z.ltb_lt in L. rewrite L. reflexivity.
Qed.

Lemma with_tip_failed_query result before after :
  with_tip VNone result before after = ret result
  /\ forall e, with_tip (error_dict e) result before after = ret result.
Proof. split; reflexivity. Qed.

Lemma create_instance_after_query P self i text w :
  action i = "create_instance" ->
  query_then_create P self "S3Agent" "How many buckets does user have?"
    (_handle_ec2_action P self i text)
    (create_instance P
       (match param (parameters i) "instance_type" with
        | Some t => t
        | None => "t2.micro"
        end)
       (param (parameters i) "region")) w.
Proof.
  intros Ha.
  destruct (query_agent_enrichment P self "S3Agent"
              "How many buckets does user have?" w (or_introl eq_refl))
    as (info & w1 & E & _ & Hc & Hd & Hn).
  destruct (handle_create_instance P self i text w Ha) as (info' & w1' & E' & H).
  rewrite E in E'. injection E' as <- <-.
  destruct (create_instance_frame P
              (match param (parameters i) "instance_type" with
               | Some t => t
               | None => "t2.micro"
               end)
              (param (parameters i) "region")) as [FC FR].
  destruct (frame_run _ FC FR w1) as (r & cs & C).
  exists info, w1, r, cs. split; [exact E |]. split; [exact Hc |].
  split; [intros t Ht; apply (Hd t Ht) |].
  split; [intros Hx; apply (Hn Hx) |].
  split; [exact C |]. rewrite H. exact C.
Qed.

Lemma create_bucket_after_query P self i text w bucket_name :
  action i = "create_bucket" ->
  param (parameters i) "bucket_name" = Some bucket_name ->
  bucket_name <> "" ->
  query_then_create P self "EC2Agent" "How many instances does user have?"
    (_handle_s3_action P self i text)
    (create_bucket P bucket_name (param (parameters i) "region")) w.
Proof.
  intros Ha Hb Hne.
  destruct (query_agent_enrichment P self "EC2Agent"
              "How many instances does user have?" w (or_intror eq_refl))
    as (info & w1 & E & _ & Hc & Hd & Hn).
  destruct (handle_create_bucket P self i text w bucket_name Ha Hb Hne)
    as (info' & w1' & E' & H).
  rewrite E in E'. injection E' as <- <-.
  destruct (create_bucket_frame P bucket_name (param (parameters i) "region"))
    as [FC FR].
  destruct (frame_run _ FC FR w1) as (r & cs & C).
  exists info, w1, r, cs. split; [exact E |]. split; [exact Hc |].
  split; [intros t Ht; apply (Hd t Ht) |].
  split; [intros Hx; apply (Hn Hx) |].
  split; [exact C |]. rewrite H. exact C.
Qed.

(** C6. A create handler (create instance; create bucket once it has a
    bucket name) first queries the other resource agent and only then
    runs the create operation, and it returns the operation's result in
    every world: with the peer registered the query is delivered before
    any provider call, with the peer unknown the query fails with [None]
    and changes nothing, and in both cases the create operation runs and
    its result comes back (never an exception). The tip is written by the
    step that closes both handlers, and that step changes the result only
    for an answer holding a positive count; a failed query ([None], an
    error value) adds nothing. *)
Theorem enrichment_is_harmless :
  forall P : provider,
    (forall self i text w,
        action i = "create_instance" ->
        _handle_ec2_action P self i text
        = (s3_info <- query_agent P self "S3Agent"
                        "How many buckets does user have?";;
           result <- create_instance P
                       (match param (parameters i) "instance_type" with
                        | Some t => t
                        | None => "t2.micro"
                        end)
                       (param (parameters i) "region");;
           with_tip s3_info result "💡 You have "
             " S3 bucket(s). You can use them with this instance!")
        /\ query_then_create P self "S3Agent" "How many buckets does user have?"
             (_handle_ec2_action P self i text)
             (create_instance P
                (match param (parameters i) "instance_type" with
                 | Some t => t
                 | None => "t2.micro"
                 end)
                (param (parameters i) "region")) w)
    /\ (forall self i text w bucket_name,
           action i = "create_bucket" ->
           param (parameters i) "bucket_name" = Some bucket_name ->
           bucket_name <> "" ->
           _handle_s3_action P self i text
           = (ec2_info <- query_agent P self "EC2Agent"
                            "How many instances does user have?";;
              result <- create_bucket P bucket_name
                          (param (parameters i) "region");;
              with_tip ec2_info result "💡 You have "
                " EC2 instance(s). You can access this bucket from them!")
           /\ query_then_create P self "EC2Agent"
                "How many instances does user have?"
                (_handle_s3_action P self i text)
                (create_bucket P bucket_name (param (parameters i) "region")) w)
    /\ (forall info result before after w r w',
           with_tip info result before after w = (Returned r, w') ->
           r = result \/ exists d, info = VDict d /\ positive d)
    /\ (forall d n result before after,
           dict_get d "count" = Some (VInt n) -> (0 < n)%Z ->
           with_tip (VDict d) (VDict result) before after
           = ret (VDict (dict_set result "tip"
                           (VStr (before ++ str_of_Z n ++ after)))))
    /\ (forall result before after,
           with_tip VNone result before after = ret result
           /\ forall e, with_tip (error_dict e) result before after = ret result).
Proof.
  intros P. split; [| split; [| split; [| split]]].
  - intros self i text w Ha. split.
    + unfold _handle_ec2_action. cbv zeta. rewrite Ha. reflexivity.
    + apply create_instance_after_query. exact Ha.
  - intros self i text w b Ha Hb Hne. split.
    + unfold _handle_s3_action. cbv zeta. rewrite Ha, Hb.
      destruct b as [| c s]; [congruence | reflexivity].
    + apply create_bucket_after_query; assumption.
  - intros info result before after w r w'. apply with_tip_only_positive.
  - intros d n result before after. apply with_tip_positive.
  - intros result before after. apply with_tip_failed_query.
Qed.

(** "create s3 bucket" with the name my-bucket in the assembled network. *)
Lemma enrichment_is_harmless_witness :
  query_then_create (stub frozen) 0 "EC2Agent"
    "How many instances does user have?"
    (_handle_s3_action (stub frozen) 0
       (mkIntent "s3" "create_bucket" [("bucket_name", "my-bucket")])
       "create s3 bucket my-bucket")
    (create_bucket (stub frozen) "my-bucket" None) network.
Proof.
  destruct (enrichment_is_harmless (stub frozen)) as (_ & H & _).
  apply (H 0 (mkIntent "s3" "create_bucket" [("bucket_name", "my-bucket")])
           "create s3 bucket my-bucket" network "my-bucket");
    [reflexivity | reflexivity | discriminate].
Defined.

(** ** Parameter precedence *)

Lemma search_found {A} (here : string -> option A) s m :
  search here s = Some m -> exists s', here s' = Some m.
Proof.
  induction s as [| c s IH]; cbn [search].
  - destruct (here "") eqn:E; intros H; [| discriminate].
    injection H as <-. eauto.
  - destruct (here (String c s)) eqn:E; intros H; [| auto].
    injection H as <-. eauto.
Qed.

Lemma extract_instance_id_truthy text v :
  _extract_instance_id text = Some v -> absent (Some v) = false.
Proof.
  intros H. apply search_found in H as [s H]. unfold instance_id_here in H.
  destruct (startswith "i-" s); [| discriminate].
  destruct (Nat.leb 8 _); [| discriminate].
  injection H as <-. reflexivity.
Qed.

Lemma spaces_then_name_truthy s v :
  spaces_then_name s = Some v -> absent (Some v) = false.
Proof.
  unfold spaces_then_name. destruct s as [| c r]; [discriminate |].
  destruct (is_space c); [| discriminate].
  unfold name_group. destruct (lstrip r) as [| c0 r0]; [discriminate |].
  destruct (is_alnum c0); [| discriminate].
  destruct (Nat.leb 2 _); [| discriminate].
  intros H. injection H as <-. reflexivity.
Qed.

Lemma extract_bucket_name_truthy text v :
  _extract_bucket_name text = Some v -> absent (Some v) = false.
Proof.
  unfold _extract_bucket_name.
  destruct (search after_bucket (lower text)) as [m |] eqn:E1.
  { intros H. injection H as <-. apply search_found in E1 as [s E1].
    unfold after_bucket in E1. destruct (startswith "bucket" s); [| discriminate].
    eapply spaces_then_name_truthy; eauto. }
  destruct (search after_in (lower text)) as [m |] eqn:E2.
  { intros H. injection H as <-. apply search_found in E2 as [s E2].
    unfold after_in in E2. destruct (startswith "in" s); [| discriminate].
    eapply spaces_then_name_truthy; eauto. }
  intros H. apply search_found in H as [s H]. unfold after_named in H.
  destruct (startswith "named" s); [eapply spaces_then_name_truthy; eauto |].
  destruct (startswith "name" s); [eapply spaces_then_name_truthy; eauto |].
  discriminate.
Qed.














(** ** End to end, on the keyword classifier *)

(** Without an API key the intent comes from [_fast_fallback], which
    extracts no parameter. "terminate instance rsc-unknown" then reaches
    the terminate branch with no instance id, the pattern
    [i-[a-f0-9]{8,17}] finds none in the text, and the request ends with
    "Please provide instance ID" before any region is probed. *)
Lemma terminate_unknown_without_key P self w :
  api_key P = false ->
  process_request P self "terminate instance rsc-unknown" w
  = (Returned (error_dict "Please provide instance ID"), w).
Proof.
  intros K. unfold process_request, parse_intent. rewrite K. reflexivity.
Qed.

Lemma terminate_unknown_without_key_witness :
  process_request (stub frozen) 0 "terminate instance rsc-unknown" network
  = (Returned (error_dict "Please provide instance ID"), network).
Proof. apply terminate_unknown_without_key. reflexivity. Defined.

(** Likewise "create s3 bucket my-bucket": the create branch reads the
    bucket name from the intent only, so the name in the text is not
    used and no bucket is created. *)
Lemma create_bucket_without_key P self w :
  api_key P = false ->
  _extract_bucket_name "create s3 bucket my-bucket" = Some "my-bucket"
  /\ process_request P self "create s3 bucket my-bucket" w
     = (Returned
          (error_dict
             "Please provide a bucket name. Example: 'create s3 bucket my-bucket-name'"),
        w).
Proof.
  intros K. split; [reflexivity |].
  unfold process_request, parse_intent. rewrite K. reflexivity.
Qed.

Lemma create_bucket_without_key_witness :
  _extract_bucket_name "create s3 bucket my-bucket" = Some "my-bucket"
  /\ process_request (stub frozen) 0 "create s3 bucket my-bucket" network
     = (Returned
          (error_dict
             "Please provide a bucket name. Example: 'create s3 bucket my-bucket-name'"),
        network).
Proof. apply create_bucket_without_key. reflexivity. Defined.

Lemma map_region_unrecognised_witness :
  _map_region (Some "Atlantis") = "us-east-2".
Proof. apply map_region_unrecognised. reflexivity. Defined.

Lemma map_region_entries_witness :
  _map_region (Some "tokyo") = "ap-northeast-1"
  /\ _map_region (Some "ap-northeast-1") = "ap-northeast-1".
Proof.
  apply map_region_entries. unfold region_map.
  do 22 right. left. reflexivity.
Defined.

(** ** More on the region tables *)

Lemma dict_get_Some_In {V} (d : list (string * V)) k v :
  dict_get d k = Some v -> In (k, v) d.
Proof.
  induction d as [| [k0 v0] d IH]; cbn [dict_get]; [discriminate |].
  destruct (String.eqb_spec k k0) as [-> | _].
  - intros H. injection H as ->. left. reflexivity.
  - intros H. right. auto.
Qed.

Lemma map_region_in_table (region_input : option string) :
  exists k, In (k, _map_region region_input) region_map.
Proof.
  assert (D : In ("us-east-2", "us-east-2") region_map)
    by (unfold region_map; do 5 right; left; reflexivity).
  unfold _map_region.
  destruct region_input as [s |]; [| eauto].
  destruct (negb (truthy s)); [eauto |].
  destruct (dict_get region_map (strip (lower s))) as [code |] eqn:E;
    [| eauto].
  apply dict_get_Some_In in E. eauto.
Qed.

(** X3. [_map_region] answers with a code of the table, whatever it is given,
    and a code it has answered is mapped to itself: mapping twice is
    mapping once. *)
Lemma map_region_canonical (region_input : option string) :
  In (_map_region region_input) (map snd region_map)
  /\ _map_region (Some (_map_region region_input)) = _map_region region_input.
Proof.
  destruct (map_region_in_table region_input) as [k E]. split.
  - apply (in_map snd) in E. exact E.
  - unfold region_map in E.
    repeat (destruct E as [E | E]; [injection E as _ <-; reflexivity |]).
    destruct E.
Qed.

(** X4. Every code [_map_region] can answer has a friendly name of its own
    in [region_names]: the messages of [create_instance] never show the
    bare code as the region name. *)
Lemma map_region_has_display_name (region_input : option string) :
  exists friendly,
    dict_get region_names (_map_region region_input) = Some friendly
    /\ _get_region_name (_map_region region_input) = friendly
    /\ friendly <> _map_region region_input.
Proof.
  destruct (map_region_in_table region_input) as [k H].
  apply (in_map snd) in H. cbn [snd] in H.
  unfold _get_region_name.
  cbn [map snd region_map] in H.
  repeat (destruct H as [<- | H];
          [eexists; split; [reflexivity | split; [reflexivity | discriminate]] |]).
  destruct H.
Qed.

Lemma lower_char_idempotent c : lower_char (lower_char c) = lower_char c.
Proof. destruct c as [[] [] [] [] [] [] [] []]; reflexivity. Qed.

Lemma lower_idempotent s : lower (lower s) = lower s.
Proof.
  induction s as [| c s IH]; cbn; [reflexivity |].
  rewrite lower_char_idempotent, IH. reflexivity.
Qed.

Lemma truthy_lower s : truthy (lower s) = truthy s.
Proof. destruct s; reflexivity. Qed.

(** X5. On ASCII text the spelling of a region does not depend on upper
    and lower case: two inputs that differ in case only are mapped to the
    same region. *)
Lemma map_region_ignores_case (a b : string) :
  isascii a = true -> isascii b = true ->
  lower a = lower b ->
  _map_region (Some a) = _map_region (Some b)
  /\ _map_region (Some (lower a)) = _map_region (Some a).
Proof.
  intros _ _ E. unfold _map_region. split.
  - rewrite <- (truthy_lower a), <- (truthy_lower b), E. reflexivity.
  - rewrite truthy_lower, lower_idempotent. reflexivity.
Qed.

Lemma map_region_ignores_case_witness :
  _map_region (Some "  ToKyO ") = _map_region (Some "  tokyo ")
  /\ _map_region (Some (lower "  ToKyO ")) = _map_region (Some "  ToKyO ").
Proof. apply map_region_ignores_case; reflexivity. Defined.

(** ** More on the keyword classifiers *)

Lemma ec2_rules_pairs text i :
  ec2_rules text = Some i ->
  In (service i, action i)
     [ ("ec2", "create_instance"); ("ec2", "list_instances");
       ("ec2", "stop_instance"); ("ec2", "terminate_instance") ].
Proof.
  unfold ec2_rules; intros H; split_ifs_in H; inversion H; subst; cbn; auto 6.
Qed.

Lemma s3_rules_fast_pairs text i :
  s3_rules_fast text = Some i ->
  In (service i, action i)
     [ ("s3", "create_bucket"); ("s3", "list_buckets"); ("s3", "delete_bucket") ].
Proof.
  unfold s3_rules_fast; intros H; split_ifs_in H; inversion H; subst; cbn; auto 6.
Qed.

(** X6. The classifier the coordinator falls back on has nine answers. The
    action list_objects is not among them: without the language model
    "list objects in <bucket>" is read as list_buckets at best. *)
Lemma fast_fallback_answers (text : string) :
  In (service (_fast_fallback text), action (_fast_fallback text))
     [ ("ec2", "create_instance"); ("ec2", "list_instances");
       ("ec2", "stop_instance"); ("ec2", "terminate_instance");
       ("s3", "create_bucket"); ("s3", "list_buckets"); ("s3", "delete_bucket");
       ("unknown", "greeting"); ("unknown", "help") ].
Proof.
  unfold _fast_fallback.
  destruct (if is_in "ec2" (lower text) || is_in "instance" (lower text)
            then ec2_rules (lower text) else None) as [i |] eqn:E1.
  { destruct (_ || _) in E1; [| discriminate].
    apply ec2_rules_pairs in E1. cbn in E1 |- *. intuition. }
  destruct (if is_in "s3" (lower text) || is_in "bucket" (lower text)
            then s3_rules_fast (lower text) else None) as [i |] eqn:E2.
  { destruct (_ || _) in E2; [| discriminate].
    apply s3_rules_fast_pairs in E2. cbn in E2 |- *. intuition. }
  split_ifs; cbn; auto 12.
Qed.

(** X7. On compute requests the two classifiers agree: when either puts a
    text in the compute service, the other gives the same Intent. *)
Lemma classifiers_agree_on_compute (text : string) :
  service (_fast_fallback text) = "ec2" \/ service (_fallback_parse text) = "ec2" ->
  _fallback_parse text = _fast_fallback text.
Proof.
  unfold _fast_fallback, _fallback_parse.
  destruct (is_in "ec2" (lower text) || is_in "instance" (lower text)) eqn:D.
  - destruct (ec2_rules (lower text)) as [i |] eqn:E; [reflexivity |].
    intros [H | H]; exfalso; revert H.
    + destruct (if is_in "s3" (lower text) || is_in "bucket" (lower text)
                then s3_rules_fast (lower text) else None) as [i |] eqn:E2.
      { destruct (_ || _) in E2; [| discriminate].
        apply s3_rules_fast_pairs in E2. cbn in E2.
        intros H. rewrite H in E2.
        repeat (destruct E2 as [E2 | E2]; [discriminate |]). exact E2. }
      split_ifs; discriminate.
    + split_ifs; discriminate.
  - intros [H | H]; exfalso; revert H.
    + destruct (if is_in "s3" (lower text) || is_in "bucket" (lower text)
                then s3_rules_fast (lower text) else None) as [i |] eqn:E2.
      { destruct (_ || _) in E2; [| discriminate].
        apply s3_rules_fast_pairs in E2. cbn in E2.
        intros H. rewrite H in E2.
        repeat (destruct E2 as [E2 | E2]; [discriminate |]). exact E2. }
      split_ifs; discriminate.
    + destruct (is_in "s3" (lower text) || is_in "bucket" (lower text)).
      * destruct (s3_rules (lower text)) as [i |] eqn:E2.
        { unfold s3_rules in E2. split_ifs_in E2; inversion E2; discriminate. }
        split_ifs; discriminate.
      * split_ifs; discriminate.
Qed.

Lemma classifiers_agree_on_compute_witness :
  _fallback_parse "Please LAUNCH an Instance"
  = _fast_fallback "Please LAUNCH an Instance".
Proof.
  apply classifiers_agree_on_compute. left. reflexivity.
Defined.

(** X8. On ASCII text upper and lower case make no difference to either
    classifier: two texts that differ in case only get the same Intent. *)
Lemma classifiers_ignore_case (a b : string) :
  isascii a = true -> isascii b = true ->
  lower a = lower b ->
  (_fast_fallback a = _fast_fallback b
   /\ _fallback_parse a = _fallback_parse b)
  /\ (_fast_fallback (lower a) = _fast_fallback a
      /\ _fallback_parse (lower a) = _fallback_parse a).
Proof.
  intros _ _ E. unfold _fast_fallback, _fallback_parse. split.
  - rewrite E. auto.
  - rewrite lower_idempotent. auto.
Qed.

Lemma classifiers_ignore_case_witness :
  (_fast_fallback "LIST my Buckets" = _fast_fallback "list MY buckets"
   /\ _fallback_parse "LIST my Buckets" = _fallback_parse "list MY buckets")
  /\ (_fast_fallback (lower "LIST my Buckets") = _fast_fallback "LIST my Buckets"
      /\ _fallback_parse (lower "LIST my Buckets")
         = _fallback_parse "LIST my Buckets").
Proof. apply classifiers_ignore_case; reflexivity. Defined.

(** ** The verdict of a resource operation *)

Lemma ensures_bind {A} Q (m : M A) (k : A -> M pyval) :
  (forall a, ensures Q (k a)) -> ensures Q (bind m k).
Proof.
  intros H w r w'. unfold bind.
  destruct (m w) as [[a | e] w1]; [apply H | discriminate].
Qed.

Lemma ensures_try Q (m : M pyval) (h : string -> M pyval) :
  ensures Q m -> (forall e, ensures Q (h e)) -> ensures Q (try_except m h).
Proof.
  intros Hm Hh w r w'. unfold try_except.
  destruct (m w) as [[a | e] w1] eqn:E.
  - intros K. injection K as <- <-. eapply Hm; eauto.
  - apply Hh.
Qed.

Lemma ensures_ret (Q : pyval -> Prop) r : Q r -> ensures Q (ret r).
Proof. intros H w r' w' K. injection K as <- _. exact H. Qed.

Lemma ensures_raise Q e : ensures Q (raise e).
Proof. intros w r w' K. discriminate. Qed.

Ltac verdicts :=
  repeat (intros; cbv zeta;
          match goal with
          | |- ensures _ (bind _ _) => apply ensures_bind
          | |- ensures _ (try_except _ _) => apply ensures_try
          | |- ensures _ (ret _) => apply ensures_ret; reflexivity
          | |- ensures _ (raise _) => apply ensures_raise
          | |- ensures _ (if ?b then _ else _) => destruct b
          | |- ensures _ (match ?x with _ => _ end) => destruct x
          end).

Lemma sound_operation_intro (m : M pyval) :
  calls_only m -> returns m -> ensures (fun r => is_verdict r = true) m ->
  sound_operation m.
Proof.
  intros C R E w. destruct (frame_run m C R w) as (r & cs & H).
  exists r, cs. split; [exact H | exact (E _ _ _ H)].
Qed.

Ltac sound_operation frame_lemma :=
  intros; apply sound_operation_intro;
  [ apply frame_lemma | apply frame_lemma
  | unfold list_instances, _get_instance_info, create_instance,
      stop_instance, terminate_instance, create_bucket, list_buckets,
      delete_bucket, list_objects; verdicts ].

Lemma list_instances_sound P : sound_operation (list_instances P).
Proof. sound_operation list_instances_frame. Qed.

Lemma get_instance_info_sound P i : sound_operation (_get_instance_info P i).
Proof. sound_operation get_instance_info_frame. Qed.

Lemma create_instance_sound P t r : sound_operation (create_instance P t r).
Proof. sound_operation create_instance_frame. Qed.

Lemma stop_instance_sound P i : sound_operation (stop_instance P i).
Proof. sound_operation stop_instance_frame. Qed.

Lemma terminate_instance_sound P i : sound_operation (terminate_instance P i).
Proof. sound_operation terminate_instance_frame. Qed.

Lemma create_bucket_sound P b r : sound_operation (create_bucket P b r).
Proof. sound_operation create_bucket_frame. Qed.

Lemma list_buckets_sound P : sound_operation (list_buckets P).
Proof. sound_operation list_buckets_frame. Qed.

Lemma delete_bucket_sound P b force : sound_operation (delete_bucket P b force).
Proof. sound_operation delete_bucket_frame. Qed.

Lemma list_objects_sound P b : sound_operation (list_objects P b).
Proof. sound_operation list_objects_frame. Qed.

(** X9. Every resource operation of the two agents, whatever the provider
    does: it raises nothing, changes no agent, and its result is either a
    success or an error, never both and never neither. *)
Lemma resource_operations_sound (P : provider) :
  sound_operation (list_instances P)
  /\ (forall instance_id, sound_operation (_get_instance_info P instance_id))
  /\ (forall instance_type region,
         sound_operation (create_instance P instance_type region))
  /\ (forall instance_id, sound_operation (stop_instance P instance_id))
  /\ (forall instance_id, sound_operation (terminate_instance P instance_id))
  /\ (forall bucket_name region,
         sound_operation (create_bucket P bucket_name region))
  /\ sound_operation (list_buckets P)
  /\ (forall bucket_name force,
         sound_operation (delete_bucket P bucket_name force))
  /\ (forall bucket_name, sound_operation (list_objects P bucket_name)).
Proof.
  repeat split; intros;
    first [ apply list_instances_sound | apply get_instance_info_sound
          | apply create_instance_sound | apply stop_instance_sound
          | apply terminate_instance_sound | apply create_bucket_sound
          | apply list_buckets_sound | apply delete_bucket_sound
          | apply list_objects_sound ].
Qed.

(** ** Histories are append-only *)

Lemma agent_grows_refl a : agent_grows a a.
Proof.
  repeat split; exists []; symmetry; apply app_nil_r.
Qed.

Lemma agent_grows_trans a b c :
  agent_grows a b -> agent_grows b c -> agent_grows a c.
Proof.
  intros (N1 & C1 & R1 & [q1 Q1] & [h1 H1]) (N2 & C2 & R2 & [q2 Q2] & [h2 H2]).
  repeat split; try congruence.
  - exists (q1 ++ q2)%list. rewrite Q2, Q1, app_assoc. reflexivity.
  - exists (h1 ++ h2)%list. rewrite H2, H1, app_assoc. reflexivity.
Qed.

Lemma evolves_refl w : evolves w w.
Proof.
  split; [intros r; apply agent_grows_refl |].
  split; [lia | exists []; symmetry; apply app_nil_r].
Qed.

Lemma evolves_trans w1 w2 w3 : evolves w1 w2 -> evolves w2 w3 -> evolves w1 w3.
Proof.
  intros (A1 & C1 & [e1 T1]) (A2 & C2 & [e2 T2]).
  split; [intros r; eapply agent_grows_trans; eauto |].
  split; [lia |]. exists (e1 ++ e2)%list. rewrite T2, T1, app_assoc. reflexivity.
Qed.

Lemma evolves_extend w cs : evolves w (extend w cs).
Proof.
  split; [intros r; apply agent_grows_refl |].
  split; [cbn; lia | eexists; reflexivity].
Qed.

Lemma calls_only_append_only {A} (m : M A) : calls_only m -> append_only m.
Proof. intros H w. destruct (H w) as [cs ->]. apply evolves_extend. Qed.

Lemma append_only_bind {A B} (m : M A) (k : A -> M B) :
  append_only m -> (forall a, append_only (k a)) -> append_only (bind m k).
Proof.
  intros Hm Hk w. unfold bind. specialize (Hm w).
  destruct (m w) as [[a | e] w1]; cbn in Hm.
  - eapply evolves_trans; [exact Hm | apply Hk].
  - exact Hm.
Qed.

Lemma push_history_grows a d : agent_grows a (push_history a d).
Proof.
  repeat split; [exists []; symmetry; apply app_nil_r | eexists; reflexivity].
Qed.

Lemma push_queue_grows a m : agent_grows a (push_queue a m).
Proof.
  repeat split; [eexists; reflexivity | exists []; symmetry; apply app_nil_r].
Qed.

Lemma receive_message_append_only P self m :
  append_only (receive_message P self m).
Proof.
  intros w. rewrite receive_message_run.
  eapply evolves_trans;
    [| apply calls_only_append_only, handle_message_calls_only].
  split; [| split; [cbn; lia | eexists; reflexivity]].
  intros x. cbn. unfold update. destruct (Nat.eqb_spec x self) as [-> |].
  - eapply agent_grows_trans; [apply push_queue_grows | apply push_history_grows].
  - apply agent_grows_refl.
Qed.

Lemma send_message_append_only P self receiver payload kind :
  append_only (send_message P self receiver payload kind).
Proof.
  intros w.
  destruct (dict_get (agents_registry (store w self)) receiver) as [target |] eqn:E.
  - destruct (send_message_registered P self receiver payload kind w target E)
      as (message & _ & ->).
    eapply evolves_trans; [| apply receive_message_append_only].
    split; [| split; [cbn; lia | exists []; symmetry; apply app_nil_r]].
    intros x. cbn. unfold update. destruct (Nat.eqb_spec x self) as [-> |].
    + apply push_history_grows.
    + apply agent_grows_refl.
  - rewrite send_message_unregistered by exact E. apply evolves_refl.
Qed.

Lemma broadcast_loop_append_only P self payload kind names responses :
  append_only (broadcast_loop P self payload kind names responses).
Proof.
  revert responses. induction names as [| n rest IH]; intros responses.
  - intros w. apply evolves_refl.
  - cbn [broadcast_loop]. apply append_only_bind.
    + apply send_message_append_only.
    + intros a. apply IH.
Qed.

Lemma broadcast_append_only P self payload kind :
  append_only (broadcast P self payload kind).
Proof.
  unfold broadcast. apply append_only_bind.
  - intros w. apply evolves_refl.
  - intros a. apply broadcast_loop_append_only.
Qed.

(** ** The coordinator's answers *)

Lemma returns_request_total {A} (c : call) (f : list event -> A) :
  returns (request c (fun t => Returned (f t))).
Proof. intros w. eexists. reflexivity. Qed.

Lemma parse_intent_frame P text :
  calls_only (parse_intent P text) /\ returns (parse_intent P text).
Proof.
  unfold parse_intent, _call_api_sync; frame; apply returns_request_total.
Qed.

Lemma get_smart_response_frame P text :
  calls_only (get_smart_response P text) /\ returns (get_smart_response P text).
Proof.
  unfold get_smart_response; frame; apply returns_request_total.
Qed.

Lemma verdict_reply r : is_verdict r = true -> is_reply r = true.
Proof. intros H. unfold is_reply. rewrite H. reflexivity. Qed.

(** A list request is answered by the owner's listing and only
    acknowledged by any other class of agent. *)
Lemma handle_list_request P target m w a :
  a = "list_instances" \/ a = "list_buckets" ->
  msg_type m = "request" ->
  content m = VDict [("action", VStr a)] ->
  exists r cs,
    handle_message P target m w = (Returned r, extend w cs)
    /\ is_reply r = true.
Proof.
  intros Ha Hk Hc.
  assert (U : exists r cs, (Returned unhandled, w) = (Returned r, extend w cs)
                           /\ is_reply r = true).
  { exists unhandled, []. rewrite extend_nil. split; reflexivity. }
  assert (LI : exists r cs, list_instances P w = (Returned r, extend w cs)
                            /\ is_reply r = true).
  { destruct (list_instances_sound P w) as (r & cs & E & V).
    eauto using verdict_reply. }
  assert (LB : exists r cs, list_buckets P w = (Returned r, extend w cs)
                            /\ is_reply r = true).
  { destruct (list_buckets_sound P w) as (r & cs & E & V).
    eauto using verdict_reply. }
  unfold handle_message, bind, get_agent.
  destruct (class (store w target));
    unfold EC2Agent_handle_message, S3Agent_handle_message,
      BaseAgent_handle_message;
    cbv zeta; rewrite ?Hk, ?Hc; destruct Ha as [-> | ->]; assumption.
Qed.

Lemma sound_answers (m : M pyval) w :
  sound_operation m ->
  exists r w', m w = (Returned r, w') /\ is_reply r = true.
Proof.
  intros S. destruct (S w) as (r & cs & E & V).
  exists r, (extend w cs). split; [exact E | apply verdict_reply, V].
Qed.

Lemma send_list_request P self peer a w :
  a = "list_instances" \/ a = "list_buckets" ->
  exists r w',
    send_message P self peer (VDict [("action", VStr a)]) "request" w
    = (Returned r, w')
    /\ (is_reply r = true
        \/ r = VNone /\ dict_get (agents_registry (store w self)) peer = None).
Proof.
  intros Ha.
  destruct (dict_get (agents_registry (store w self)) peer) as [target |] eqn:R.
  - destruct (send_message_registered P self peer
                (VDict [("action", VStr a)]) "request" w target R)
      as (m & E & ->).
    rewrite Message_init_returns in E. injection E as <-.
    rewrite receive_message_run.
    match goal with
    | |- context [handle_message P target ?m ?w1] =>
        destruct (handle_list_request P target m w1 a Ha eq_refl eq_refl)
          as (r & cs & -> & V)
    end.
    eauto.
  - rewrite (send_message_unregistered P self peer _ "request" w R).
    exists VNone, w. auto.
Qed.

Lemma error_dict_reply e w :
  exists r w', ret (error_dict e) w = (Returned r, w') /\ is_reply r = true.
Proof. exists (error_dict e), w. split; reflexivity. Qed.

Lemma handle_ec2_answers P self i text w :
  exists r w',
    _handle_ec2_action P self i text w = (Returned r, w')
    /\ (is_reply r = true
        \/ r = VNone
           /\ dict_get (agents_registry (store w self)) "EC2Agent" = None).
Proof.
  assert (L : forall m : M pyval,
             (exists r w', m w = (Returned r, w') /\ is_reply r = true) ->
             exists r w', m w = (Returned r, w')
               /\ (is_reply r = true
                   \/ r = VNone
                      /\ dict_get (agents_registry (store w self)) "EC2Agent"
                         = None)).
  { intros m (r & w' & E & V). eauto. }
  destruct (String.eqb_spec (action i) "create_instance") as [A1 | N1].
  { destruct (handle_create_instance P self i text w A1) as (info & w1 & _ & ->).
    match goal with
    | |- context [create_instance P ?t ?r w1] =>
        destruct (sound_answers _ w1 (create_instance_sound P t r))
          as (r' & w' & E & V)
    end.
    eauto. }
  unfold _handle_ec2_action. cbv zeta.
  apply String.eqb_neq in N1. rewrite N1.
  destruct (String.eqb (action i) "list_instances").
  { apply send_list_request. left. reflexivity. }
  destruct (String.eqb (action i) "stop_instance").
  { destruct (absent _); apply L;
      [apply error_dict_reply | apply sound_answers, stop_instance_sound]. }
  destruct (String.eqb (action i) "terminate_instance").
  { destruct (absent _); apply L;
      [apply error_dict_reply | apply sound_answers, terminate_instance_sound]. }
  apply L, error_dict_reply.
Qed.

Lemma absent_false x :
  absent x = false -> exists v, x = Some v /\ v <> "".
Proof.
  destruct x as [[| c s] |]; try discriminate.
  intros _. eexists. split; [reflexivity | discriminate].
Qed.

Lemma handle_s3_answers P self i text w :
  exists r w',
    _handle_s3_action P self i text w = (Returned r, w')
    /\ (is_reply r = true
        \/ r = VNone
           /\ dict_get (agents_registry (store w self)) "S3Agent" = None).
Proof.
  assert (L : forall m : M pyval,
             (exists r w', m w = (Returned r, w') /\ is_reply r = true) ->
             exists r w', m w = (Returned r, w')
               /\ (is_reply r = true
                   \/ r = VNone
                      /\ dict_get (agents_registry (store w self)) "S3Agent"
                         = None)).
  { intros m (r & w' & E & V). eauto. }
  destruct (String.eqb_spec (action i) "create_bucket") as [A1 | N1].
  { destruct (absent (param (parameters i) "bucket_name")) eqn:B.
    - unfold _handle_s3_action. cbv zeta. rewrite A1, B. apply L, error_dict_reply.
    - destruct (absent_false _ B) as (b & Hb & Hn).
      destruct (handle_create_bucket P self i text w b A1 Hb Hn)
        as (info & w1 & _ & ->).
      match goal with
      | |- context [create_bucket P b ?r w1] =>
          destruct (sound_answers _ w1 (create_bucket_sound P b r))
            as (r' & w' & E & V)
      end.
      eauto. }
  unfold _handle_s3_action. cbv zeta.
  apply String.eqb_neq in N1. rewrite N1.
  destruct (String.eqb (action i) "list_buckets").
  { apply send_list_request. right. reflexivity. }
  destruct (String.eqb (action i) "list_objects").
  { destruct (absent _); apply L;
      [apply error_dict_reply | apply sound_answers, list_objects_sound]. }
  destruct (String.eqb (action i) "delete_bucket").
  { destruct (absent _); apply L;
      [apply error_dict_reply | apply sound_answers, delete_bucket_sound]. }
  apply L, error_dict_reply.
Qed.

Lemma handle_unknown_answers P text i w :
  exists r w',
    _handle_unknown P text i w = (Returned r, w') /\ is_reply r = true.
Proof.
  destruct (get_smart_response_frame P text) as [_ R].
  destruct (R w) as [reply E].
  unfold _handle_unknown. cbv zeta.
  destruct (_ || _); unfold bind;
    destruct (get_smart_response P text w) as [o w1]; cbn in E; subst o;
    do 2 eexists; split; reflexivity.
Qed.

(** X10. [process_request] never raises, whatever the provider does and
    whoever is registered, a reply of the language model that parses
    being an [Intent] (a service, an action, string parameters). Its
    answer is a success, an error or a message; it is [None] only for a
    list request whose agent is missing from the coordinator's registry. *)
Theorem process_request_answers (P : provider) (self : ref) (text : string)
    (w : world) :
  exists r w',
    process_request P self text w = (Returned r, w')
    /\ (is_reply r = true
        \/ r = VNone
           /\ (dict_get (agents_registry (store w self)) "EC2Agent" = None
               \/ dict_get (agents_registry (store w self)) "S3Agent" = None)).
Proof.
  destruct (parse_intent_frame P text) as [C R].
  destruct (frame_run _ C R w) as (i & cs & E).
  unfold process_request, bind. rewrite E.
  destruct (String.eqb (service i) "ec2").
  { destruct (handle_ec2_answers P self i text (extend w cs))
      as (r & w' & E' & [V | [-> N]]); eauto 7. }
  destruct (String.eqb (service i) "s3").
  { destruct (handle_s3_answers P self i text (extend w cs))
      as (r & w' & E' & [V | [-> N]]); eauto 7. }
  destruct (String.eqb (service i) "unknown").
  { destruct (handle_unknown_answers P text i (extend w cs))
      as (r & w' & E' & V); eauto. }
  do 2 eexists. split; [reflexivity | left; reflexivity].
Qed.

Lemma with_tip_calls_only info result before after :
  calls_only (with_tip info result before after).
Proof.
  unfold with_tip, positive_count, set_tip, py_get; frame.
Qed.

Ltac appends :=
  repeat (intros; cbv zeta;
          match goal with
          | |- append_only (bind _ _) => apply append_only_bind
          | |- append_only (if ?b then _ else _) => destruct b
          | |- append_only (send_message _ _ _ _ _) =>
              apply send_message_append_only
          | |- append_only (query_agent _ _ _ _) =>
              apply send_message_append_only
          | |- append_only _ =>
              apply calls_only_append_only;
              first [ apply with_tip_calls_only | apply create_instance_frame
                    | apply stop_instance_frame | apply terminate_instance_frame
                    | apply create_bucket_frame | apply list_objects_frame
                    | apply delete_bucket_frame | apply parse_intent_frame
                    | apply get_smart_response_frame | apply calls_only_ret ]
          end).

Lemma process_request_append_only P self text :
  append_only (process_request P self text).
Proof.
  unfold process_request, _handle_ec2_action, _handle_s3_action,
    _handle_unknown.
  appends.
Qed.

(** X11. Whatever [send_message], [broadcast] and [process_request] do,
    and also when a handler raises in the middle, no agent changes its
    name, class or registry, and every queue and history keeps what it
    held and only grows at its end. *)
Theorem conversations_append_only (P : provider) (self : ref) :
  (forall receiver payload kind,
      append_only (send_message P self receiver payload kind))
  /\ (forall payload kind, append_only (broadcast P self payload kind))
  /\ (forall text, append_only (process_request P self text)).
Proof.
  split; [| split]; intros.
  - apply send_message_append_only.
  - apply broadcast_append_only.
  - apply process_request_append_only.
Qed.

(** ** Which provider calls a computation may make *)

Lemma confined_ret ok {A} (a : A) : confined ok (ret a).
Proof. intros w. exists []. split; [symmetry; apply app_nil_r | reflexivity]. Qed.

Lemma confined_raise ok {A} e : confined ok (@raise A e).
Proof. intros w. exists []. split; [symmetry; apply app_nil_r | reflexivity]. Qed.

Lemma confined_get_agent ok r : confined ok (get_agent r).
Proof. intros w. exists []. split; [symmetry; apply app_nil_r | reflexivity]. Qed.

Lemma confined_set_agent ok r a : confined ok (set_agent r a).
Proof. intros w. exists []. split; [symmetry; apply app_nil_r | reflexivity]. Qed.

Lemma confined_log ok r m : confined ok (log (Delivered r m)).
Proof. intros w. exists [Delivered r m]. split; reflexivity. Qed.

Lemma confined_Message_init ok P s r c k : confined ok (Message_init P s r c k).
Proof. intros w. exists []. split; [symmetry; apply app_nil_r | reflexivity]. Qed.

Lemma confined_request ok {A} (c : call) (oracle : list event -> outcome A) :
  ok c = true -> confined ok (request c oracle).
Proof.
  intros H w. exists [Called c]. split; [reflexivity |].
  cbn. rewrite H. reflexivity.
Qed.

Lemma confined_bind ok {A B} (m : M A) (k : A -> M B) :
  confined ok m -> (forall a, confined ok (k a)) -> confined ok (bind m k).
Proof.
  intros Hm Hk w. unfold bind. destruct (Hm w) as (e1 & T1 & F1).
  destruct (m w) as [[a | e] w1]; cbn [snd] in T1.
  - destruct (Hk a w1) as (e2 & T2 & F2). exists (e1 ++ e2)%list.
    rewrite T2, T1, app_assoc, calls_app, forallb_app, F1, F2. auto.
  - exists e1. auto.
Qed.

Lemma confined_try ok {A} (m : M A) (h : string -> M A) :
  confined ok m -> (forall e, confined ok (h e)) -> confined ok (try_except m h).
Proof.
  intros Hm Hh w. unfold try_except. destruct (Hm w) as (e1 & T1 & F1).
  destruct (m w) as [[a | e] w1]; cbn [snd] in T1.
  - exists e1. auto.
  - destruct (Hh e w1) as (e2 & T2 & F2). exists (e1 ++ e2)%list.
    rewrite T2, T1, app_assoc, calls_app, forallb_app, F1, F2. auto.
Qed.

Lemma confined_weaken (ok ok' : call -> bool) {A} (m : M A) :
  (forall c, ok c = true -> ok' c = true) -> confined ok m -> confined ok' m.
Proof.
  intros H Hm w. destruct (Hm w) as (evs & T & F). exists evs. split; [exact T |].
  rewrite forallb_forall in *. auto.
Qed.

Create HintDb confined.

#[local] Hint Resolve confined_ret confined_raise confined_get_agent
  confined_set_agent confined_log confined_Message_init : confined.

Ltac confine :=
  repeat (intros; cbv zeta;
          match goal with
          | |- confined _ (bind _ _) => apply confined_bind
          | |- confined _ (try_except _ _) => apply confined_try
          | |- confined _ (request _ _) =>
              apply confined_request; solve [auto with confined]
          | |- confined _ (if ?b then _ else _) => destruct b
          | |- confined _ (match ?x with _ => _ end) => destruct x
          | |- confined _ _ => solve [auto with confined]
          end).

Section Confined.

Variable P : provider.
Variable ok : call -> bool.
Hypothesis ok_reads : forall c, reads c = true -> ok c = true.

Lemma ok_read c : reads c = true -> ok c = true.
Proof. exact (ok_reads c). Qed.

Hint Extern 1 (ok _ = true) => (apply ok_read; reflexivity) : confined.

Lemma list_instances_confined : confined ok (list_instances P).
Proof. unfold list_instances; confine. Qed.

Lemma get_instance_info_confined i : confined ok (_get_instance_info P i).
Proof. unfold _get_instance_info; confine. Qed.

Lemma list_buckets_confined : confined ok (list_buckets P).
Proof. unfold list_buckets; confine. Qed.

Lemma bucket_exists_confined b : confined ok (_bucket_exists P b).
Proof. unfold _bucket_exists; confine. Qed.

Lemma list_objects_confined b : confined ok (list_objects P b).
Proof. unfold list_objects; confine. Qed.

Lemma search_regions_confined regions i : confined ok (search_regions P regions i).
Proof.
  induction regions as [| region rest IH]; cbn [search_regions]; confine.
Qed.

Hint Resolve search_regions_confined : confined.

Lemma find_instance_region_confined i : confined ok (_find_instance_region P i).
Proof.
  unfold _find_instance_region; confine.
Qed.

Lemma find_ami_confined region patterns : confined ok (find_ami P region patterns).
Proof.
  induction patterns as [| pattern rest IH]; cbn [find_ami]; confine.
Qed.

Hint Resolve list_instances_confined get_instance_info_confined
  list_buckets_confined bucket_exists_confined list_objects_confined
  find_instance_region_confined find_ami_confined : confined.

Lemma stop_instance_confined i :
  (forall region, ok (stop_instances region i) = true) ->
  confined ok (stop_instance P i).
Proof. intros H. unfold stop_instance; confine. Qed.

Lemma terminate_instance_confined i :
  (forall region, ok (terminate_instances region i) = true) ->
  confined ok (terminate_instance P i).
Proof. intros H. unfold terminate_instance; confine. Qed.

Lemma create_instance_confined t r :
  (forall region ami_id, ok (create_instances region ami_id t) = true) ->
  confined ok (create_instance P t r).
Proof. intros H. unfold create_instance; confine. Qed.

Lemma create_bucket_confined b r :
  (forall location, ok (create_bucket_call b location) = true) ->
  confined ok (create_bucket P b r).
Proof. intros H. unfold create_bucket; confine. Qed.

Lemma delete_bucket_confined b :
  ok (delete_bucket_call b) = true -> confined ok (delete_bucket P b false).
Proof. intros H. unfold delete_bucket; confine. Qed.

Lemma with_tip_confined info result before after :
  confined ok (with_tip info result before after).
Proof. unfold with_tip, positive_count, set_tip, py_get; confine. Qed.

Lemma parse_intent_confined text : confined ok (parse_intent P text).
Proof. unfold parse_intent, _call_api_sync; confine. Qed.

Lemma get_smart_response_confined text : confined ok (get_smart_response P text).
Proof. unfold get_smart_response; confine. Qed.

(** No handler of the repository creates, stops, terminates or deletes:
    whatever the message, a handler only looks. *)
Lemma handle_message_confined self m : confined ok (handle_message P self m).
Proof.
  unfold handle_message, EC2Agent_handle_message, S3Agent_handle_message,
    BaseAgent_handle_message, py_get, py_lower.
  confine.
Qed.

Hint Resolve handle_message_confined : confined.

Lemma receive_message_confined self m : confined ok (receive_message P self m).
Proof. unfold receive_message; confine. Qed.

Hint Resolve receive_message_confined : confined.

Lemma send_message_confined self receiver payload kind :
  confined ok (send_message P self receiver payload kind).
Proof. unfold send_message; confine. Qed.

Hint Resolve send_message_confined : confined.

Lemma broadcast_loop_confined self payload kind names responses :
  confined ok (broadcast_loop P self payload kind names responses).
Proof.
  revert responses.
  induction names as [| n rest IH]; intros responses; cbn [broadcast_loop];
    confine.
Qed.

Lemma broadcast_confined self payload kind :
  confined ok (broadcast P self payload kind).
Proof.
  unfold broadcast. apply confined_bind; [apply confined_get_agent |].
  intros a. apply broadcast_loop_confined.
Qed.

End Confined.

(** X12. Messages between agents only look: however a message is sent or
    broadcast, whatever it carries and whoever handles it, no provider
    call that creates, stops, terminates or deletes is made. *)
Theorem messages_only_look (P : provider) (self : ref) :
  (forall receiver payload kind,
      confined reads (send_message P self receiver payload kind))
  /\ (forall payload kind, confined reads (broadcast P self payload kind)).
Proof.
  split; intros.
  - apply send_message_confined. auto.
  - apply broadcast_confined. auto.
Qed.

Lemma permits_reads i c : reads c = true -> permits i c = true.
Proof. destruct c; cbn; first [discriminate | reflexivity]. Qed.

Lemma dispatch_permitted P self i text :
  confined (permits i)
    (if String.eqb (service i) "ec2" then _handle_ec2_action P self i text
     else if String.eqb (service i) "s3" then _handle_s3_action P self i text
     else if String.eqb (service i) "unknown" then _handle_unknown P text i
     else ret (VDict [ ("message",
                        VStr "I'm not sure how to help with that. Try 'help' for available commands.") ])).
Proof.
  pose proof (permits_reads i) as R.
  destruct (String.eqb (service i) "ec2") eqn:S1.
  { unfold _handle_ec2_action, query_agent. cbv zeta.
    destruct (String.eqb (action i) "create_instance") eqn:A1.
    { apply confined_bind; [apply send_message_confined, R | intros s3_info].
      apply confined_bind; [| intros; apply with_tip_confined].
      apply create_instance_confined; [exact R |].
      intros. cbn. rewrite S1, A1. reflexivity. }
    destruct (String.eqb (action i) "list_instances") eqn:A2.
    { apply send_message_confined, R. }
    destruct (String.eqb (action i) "stop_instance") eqn:A3.
    { destruct (absent _); [apply confined_ret |].
      apply stop_instance_confined; [exact R |].
      intros. cbn. rewrite S1, A3. reflexivity. }
    destruct (String.eqb (action i) "terminate_instance") eqn:A4.
    { destruct (absent _); [apply confined_ret |].
      apply terminate_instance_confined; [exact R |].
      intros. cbn. rewrite S1, A4. reflexivity. }
    apply confined_ret. }
  destruct (String.eqb (service i) "s3") eqn:S2.
  { unfold _handle_s3_action, query_agent. cbv zeta.
    destruct (String.eqb (action i) "create_bucket") eqn:A1.
    { destruct (absent (param (parameters i) "bucket_name")) eqn:B;
        [apply confined_ret |].
      destruct (absent_false _ B) as (b & Hb & _).
      apply confined_bind; [apply send_message_confined, R | intros ec2_info].
      apply confined_bind; [| intros; apply with_tip_confined].
      apply create_bucket_confined.
      intros. cbn. rewrite S2, A1, Hb. cbn. apply String.eqb_refl. }
    destruct (String.eqb (action i) "list_buckets") eqn:A2.
    { apply send_message_confined, R. }
    destruct (String.eqb (action i) "list_objects") eqn:A3.
    { destruct (absent _); [apply confined_ret |].
      apply list_objects_confined, R. }
    destruct (String.eqb (action i) "delete_bucket") eqn:A4.
    { destruct (absent _); [apply confined_ret |].
      apply delete_bucket_confined.
      cbn. rewrite S2, A4. reflexivity. }
    apply confined_ret. }
  destruct (String.eqb (service i) "unknown").
  { unfold _handle_unknown. cbv zeta.
    destruct (_ || _); apply confined_bind; intros;
      first [apply get_smart_response_confined, R | apply confined_ret]. }
  apply confined_ret.
Qed.

(** X13. [process_request] changes only what the parsed intent names: with
    [i] the intent [parse_intent] returns, an instance is created,
    stopped or terminated, a bucket created or deleted, only when [i]
    has that service and action, a bucket is created only under the name
    [i] carries, and no object is ever deleted. *)
Theorem process_request_permitted (P : provider) (self : ref) (text : string)
    (w : world) :
  exists i cs evs,
    parse_intent P text w = (Returned i, extend w cs)
    /\ trace (snd (process_request P self text w)) = (trace w ++ evs)%list
    /\ forallb (permits i) (calls evs) = true.
Proof.
  destruct (parse_intent_frame P text) as [C R].
  destruct (frame_run _ C R w) as (i & cs & E).
  destruct (parse_intent_confined P (permits i) (permits_reads i) text w)
    as (e1 & T1 & F1).
  rewrite E in T1. cbn [snd] in T1.
  destruct (dispatch_permitted P self i text (extend w cs)) as (e2 & T2 & F2).
  exists i, cs, (e1 ++ e2)%list. split; [exact E |].
  unfold process_request, bind. rewrite E. split.
  - rewrite T2, T1, app_assoc. reflexivity.
  - rewrite calls_app, forallb_app, F1, F2. reflexivity.
Qed.

(** ** Without an API key *)

Lemma fast_fallback_cases (text : string) :
  In (_fast_fallback text)
     [ intent "ec2" "create_instance"; intent "ec2" "list_instances";
       intent "ec2" "stop_instance"; intent "ec2" "terminate_instance";
       intent "s3" "create_bucket"; intent "s3" "list_buckets";
       intent "s3" "delete_bucket";
       intent "unknown" "greeting"; intent "unknown" "help" ].
Proof.
  unfold _fast_fallback, ec2_rules, s3_rules_fast. cbv zeta.
  split_ifs; cbn; auto 12.
Qed.

Lemma parse_intent_without_key P text w :
  api_key P = false ->
  parse_intent P text w = (Returned (_fast_fallback text), w).
Proof. intros H. unfold parse_intent. rewrite H. reflexivity. Qed.

Lemma process_request_without_key P self text w :
  api_key P = false ->
  process_request P self text w
  = (if String.eqb (service (_fast_fallback text)) "ec2"
     then _handle_ec2_action P self (_fast_fallback text) text
     else if String.eqb (service (_fast_fallback text)) "s3"
     then _handle_s3_action P self (_fast_fallback text) text
     else if String.eqb (service (_fast_fallback text)) "unknown"
     then _handle_unknown P text (_fast_fallback text)
     else ret (VDict [ ("message",
                        VStr "I'm not sure how to help with that. Try 'help' for available commands.") ])) w.
Proof.
  intros H. unfold process_request, bind.
  rewrite (parse_intent_without_key P text w H). reflexivity.
Qed.

Lemma forallb_excludes {A} (ok bad : A -> bool) l :
  (forall c, ok c = true -> bad c = false) ->
  forallb ok l = true -> existsb bad l = false.
Proof.
  intros H. induction l as [| c l IH]; cbn; [reflexivity |].
  intros F. apply andb_prop in F as [F1 F2].
  rewrite (H c F1), (IH F2). reflexivity.
Qed.

(** X14. Without an API key no bucket can be created: the keyword classifier
    extracts no parameter, so whatever the text, [process_request] makes
    no call that creates a bucket, and a text classified as create_bucket
    is answered with the request for a name, nothing done. *)
Theorem no_bucket_without_key (P : provider) (self : ref) (text : string)
    (w : world) :
  api_key P = false ->
  (exists evs,
      trace (snd (process_request P self text w)) = (trace w ++ evs)%list
      /\ existsb creates_bucket (calls evs) = false)
  /\ (action (_fast_fallback text) = "create_bucket" ->
      process_request P self text w
      = (Returned
           (error_dict
              "Please provide a bucket name. Example: 'create s3 bucket my-bucket-name'"),
         w)).
Proof.
  intros K. rewrite (process_request_without_key P self text w K). split.
  - destruct (dispatch_permitted P self (_fast_fallback text) text w)
      as (evs & T & F).
    exists evs. split; [exact T |].
    revert F. apply forallb_excludes. intros c.
    destruct c; try reflexivity. cbn.
    pose proof (fast_fallback_cases text) as C. cbn in C.
    repeat (destruct C as [<- | C]; [cbn; discriminate |]). destruct C.
  - intros A. pose proof (fast_fallback_cases text) as C. cbn in C.
    repeat (destruct C as [C | C];
            [rewrite <- C in A |- *; first [discriminate A | reflexivity] |]).
    destruct C.
Qed.

Lemma no_bucket_without_key_witness :
  process_request (stub frozen) 0 "create s3 bucket my-bucket" network
  = (Returned
       (error_dict
          "Please provide a bucket name. Example: 'create s3 bucket my-bucket-name'"),
     network).
Proof.
  apply (no_bucket_without_key (stub frozen) 0 "create s3 bucket my-bucket"
           network eq_refl).
  reflexivity.
Defined.

(** X15. Without an API key an ASCII request is read by the patterns
    only: a new instance is always a t2.micro in the default region,
    whatever type or region the text names; the instance to stop or
    terminate and the bucket to delete are what [_extract_instance_id]
    and [_extract_bucket_name] find in the text, and a text in which they
    find nothing is answered with an error, nothing done. *)
Theorem requests_without_key (P : provider) (self : ref) (text : string)
    (w : world) :
  api_key P = false ->
  isascii text = true ->
  (action (_fast_fallback text) = "create_instance" ->
   exists info w1,
     query_agent P self "S3Agent" "How many buckets does user have?" w
     = (Returned info, w1)
     /\ process_request P self text w = create_instance P "t2.micro" None w1)
  /\ (action (_fast_fallback text) = "stop_instance" ->
      process_request P self text w
      = match _extract_instance_id text with
        | Some instance_id => stop_instance P instance_id w
        | None => (Returned (error_dict "Please provide instance ID"), w)
        end)
  /\ (action (_fast_fallback text) = "terminate_instance" ->
      process_request P self text w
      = match _extract_instance_id text with
        | Some instance_id => terminate_instance P instance_id w
        | None => (Returned (error_dict "Please provide instance ID"), w)
        end)
  /\ (action (_fast_fallback text) = "delete_bucket" ->
      process_request P self text w
      = match _extract_bucket_name text with
        | Some bucket_name => delete_bucket P bucket_name false w
        | None => (Returned (error_dict "Please provide bucket name"), w)
        end).
Proof.
  intros K _. rewrite (process_request_without_key P self text w K).
  pose proof (fast_fallback_cases text) as C. cbn in C.
  repeat split; intros A;
    repeat (destruct C as [C | C]; [rewrite <- C in A |- *; try discriminate A |]);
    try (destruct C).
  - cbn [service intent String.eqb Ascii.eqb Bool.eqb].
    destruct (handle_create_instance P self (intent "ec2" "create_instance")
                text w eq_refl) as (info & w1 & E & ->).
    exists info, w1. split; [exact E | reflexivity].
  - unfold _handle_ec2_action. cbn.
    destruct (_extract_instance_id text) as [v |] eqn:E; [| reflexivity].
    rewrite (extract_instance_id_truthy text v E). reflexivity.
  - unfold _handle_ec2_action. cbn.
    destruct (_extract_instance_id text) as [v |] eqn:E; [| reflexivity].
    rewrite (extract_instance_id_truthy text v E). reflexivity.
  - unfold _handle_s3_action. cbn.
    destruct (_extract_bucket_name text) as [v |] eqn:E; [| reflexivity].
    rewrite (extract_bucket_name_truthy text v E). reflexivity.
Qed.

Lemma requests_without_key_witness :
  process_request (stub frozen) 0 "terminate instance rsc-unknown" network
  = (Returned (error_dict "Please provide instance ID"), network)
  /\ process_request (stub frozen) 0 "delete bucket my-bucket" network
     = delete_bucket (stub frozen) "my-bucket" false network.
Proof.
  split.
  - destruct (requests_without_key (stub frozen) 0
                "terminate instance rsc-unknown" network eq_refl eq_refl)
      as (_ & _ & T & _).
    exact (T eq_refl).
  - destruct (requests_without_key (stub frozen) 0
                "delete bucket my-bucket" network eq_refl eq_refl)
      as (_ & _ & _ & D).
    exact (D eq_refl).
Defined.

(** ** Registration *)

Lemma dict_get_set {V} (d : list (string * V)) k v k' :
  dict_get (dict_set d k v) k'
  = if String.eqb k' k then Some v else dict_get d k'.
Proof.
  induction d as [| [k0 v0] d IH]; cbn [dict_set dict_get].
  - destruct (String.eqb k' k); reflexivity.
  - destruct (String.eqb_spec k k0) as [-> | N]; cbn [dict_get].
    + destruct (String.eqb k' k0); reflexivity.
    + destruct (String.eqb_spec k' k0) as [-> | N'].
      * destruct (String.eqb_spec k0 k) as [E | _]; [congruence | reflexivity].
      * exact IH.
Qed.

Lemma keys_dict_set_present {V} (d : list (string * V)) k v :
  In k (keys d) -> keys (dict_set d k v) = keys d.
Proof.
  induction d as [| [k0 v0] d IH]; intros H; [destruct H |].
  cbn [dict_set]. destruct (String.eqb_spec k k0) as [-> | N]; [reflexivity |].
  cbn. f_equal. apply IH. destruct H as [H | H]; [cbn in H; congruence | exact H].
Qed.

Lemma register_agent_run self agent w :
  register_agent self agent w
  = (Returned tt,
     mkWorld
       (update (store w) self
          (mkAgent (name (store w self)) (class (store w self))
             (message_queue (store w self))
             (dict_set (agents_registry (store w self)) (name (store w agent))
                agent)
             (conversation_history (store w self))))
       (clock_reads w) (trace w)).
Proof. reflexivity. Qed.

(** X16. Registering is insert and lookup on the caller's registry, keyed by
    the name the registered agent has at that moment: afterwards that
    name leads to the agent, every other name leads where it led, a name
    already there keeps its place in the iteration order and a new one
    goes last. Only the caller's registry changes (registering is not
    mutual), and a message the caller then sends to that name is
    delivered to the agent, carrying the payload. *)
Theorem register_agent_lookup (P : provider) (self agent : ref) (w : world) :
  let w' := snd (register_agent self agent w) in
  let n := name (store w agent) in
  let before := agents_registry (store w self) in
  (forall k,
      dict_get (agents_registry (store w' self)) k
      = if String.eqb k n then Some agent else dict_get before k)
  /\ keys (agents_registry (store w' self))
     = (if existsb (String.eqb n) (keys before)
        then keys before else keys before ++ [n])%list
  /\ (forall r,
         name (store w' r) = name (store w r)
         /\ class (store w' r) = class (store w r)
         /\ message_queue (store w' r) = message_queue (store w r)
         /\ conversation_history (store w' r) = conversation_history (store w r)
         /\ (r <> self -> agents_registry (store w' r) = agents_registry (store w r)))
  /\ (forall payload kind,
         exists message cs,
           trace (snd (send_message P self n payload kind w'))
           = (trace w ++ Delivered agent message :: map Called cs)%list
           /\ content message = payload
           /\ msg_type message = kind
           /\ sender message = name (store w self)
           /\ receiver message = n).
Proof.
  intros w' n before. subst w'. rewrite register_agent_run. cbn [snd store].
  assert (L : forall k,
             dict_get (agents_registry (update (store w) self
               (mkAgent (name (store w self)) (class (store w self))
                  (message_queue (store w self)) (dict_set before n agent)
                  (conversation_history (store w self))) self)) k
             = if String.eqb k n then Some agent else dict_get before k).
  { intros k. rewrite update_same. cbn [agents_registry]. apply dict_get_set. }
  split; [exact L |]. split; [| split].
  - rewrite update_same. cbn [agents_registry].
    destruct (existsb (String.eqb n) (keys before)) eqn:E.
    + apply keys_dict_set_present. apply existsb_exists in E as (k & I & E).
      apply String.eqb_eq in E. subst k. exact I.
    + apply keys_dict_set. intros I.
      assert (existsb (String.eqb n) (keys before) = true); [| congruence].
      apply existsb_exists. exists n. split; [exact I | apply String.eqb_refl].
  - intros r. unfold update. destruct (Nat.eqb_spec r self) as [-> | N];
      cbn; repeat split; try reflexivity. intros C. exfalso. apply C. reflexivity.
  - intros payload kind.
    match goal with
    | |- context [send_message P self n payload kind ?w1] =>
        assert (R : dict_get (agents_registry (store w1 self)) n = Some agent)
          by (cbn [store]; rewrite L, String.eqb_refl; reflexivity);
        destruct (send_message_world P self n payload kind w1 agent _ _ R
                    (Message_init_returns P _ _ _ _ w1)) as [cs ->]
    end.
    eexists _, cs. cbn [trace]. split; [reflexivity |].
    cbn. rewrite update_same. cbn. repeat split; reflexivity.
Qed.

Lemma eqb_succ_l n : Nat.eqb (S n) n = false.
Proof. apply Nat.eqb_neq. lia. Qed.

Lemma eqb_succ_r n : Nat.eqb n (S n) = false.
Proof. apply Nat.eqb_neq. lia. Qed.

Lemma eqb_succ2_l n : Nat.eqb (S (S n)) n = false.
Proof. apply Nat.eqb_neq. lia. Qed.

Lemma eqb_succ2_r n : Nat.eqb n (S (S n)) = false.
Proof. apply Nat.eqb_neq. lia. Qed.

Lemma set_agent_bind {B} r a (k : M B) w :
  bind (set_agent r a) (fun _ => k) w
  = k (mkWorld (update (store w) r a) (clock_reads w) (trace w)).
Proof. reflexivity. Qed.

Lemma register_agent_bind {B} self agent (k : M B) w :
  bind (register_agent self agent) (fun _ => k) w
  = k (mkWorld
         (update (store w) self
            (mkAgent (name (store w self)) (class (store w self))
               (message_queue (store w self))
               (dict_set (agents_registry (store w self))
                  (name (store w agent)) agent)
               (conversation_history (store w self))))
         (clock_reads w) (trace w)).
Proof. reflexivity. Qed.

(** X17. What [CoordinatorAgent()] builds, wherever the three objects are
    allocated and whatever was there before: three fresh agents of the
    three classes, in a full mesh. Looking up the name of any of them in
    the registry of any other gives that agent, and no agent is
    registered with itself. *)
Theorem init_builds_full_mesh (self : ref) (w : world) :
  let w' := snd (CoordinatorAgent_init self w) in
  let trio := [self; S self; S (S self)] in
  map (fun a => (name (store w' a), class (store w' a))) trio
  = [ ("CoordinatorAgent", CoordinatorAgent (S self) (S (S self)));
      ("EC2Agent", EC2Agent); ("S3Agent", S3Agent) ]
  /\ Forall (fun a =>
               message_queue (store w' a) = []
               /\ conversation_history (store w' a) = []
               /\ Forall (fun b =>
                            dict_get (agents_registry (store w' a))
                              (name (store w' b))
                            = if Nat.eqb a b then None else Some b) trio)
       trio
  /\ trace w' = trace w.
Proof.
  cbv zeta. unfold CoordinatorAgent_init, new_agent.
  rewrite !set_agent_bind.
  repeat (rewrite register_agent_bind; cbn [store clock_reads trace];
          repeat (rewrite update_same || rewrite update_other by lia);
          cbn [name class message_queue agents_registry conversation_history]).
  rewrite register_agent_run. cbn [snd store clock_reads trace].
  repeat (rewrite update_same || rewrite update_other by lia).
  cbn [name class message_queue agents_registry conversation_history].
  cbn [map]. repeat (rewrite update_same || rewrite update_other by lia).
  cbn [name class].
  split; [reflexivity |]. split; [| reflexivity].
  repeat (constructor;
          repeat (rewrite update_same || rewrite update_other by lia);
          cbn [name message_queue agents_registry conversation_history];
          rewrite ?Nat.eqb_refl, ?eqb_succ_l, ?eqb_succ_r, ?eqb_succ2_l,
            ?eqb_succ2_r;
          try reflexivity).
Qed.

(** ** What the coordinator's patterns extract *)

Lemma search_suffix {A} (here : string -> option A) s m :
  search here s = Some m -> exists pre s', s = pre ++ s' /\ here s' = Some m.
Proof.
  induction s as [| c s IH]; cbn [search].
  - destruct (here "") eqn:E; intros H; [| discriminate].
    injection H as <-. exists "", "". auto.
  - destruct (here (String c s)) eqn:E; intros H.
    + injection H as <-. exists "", (String c s). auto.
    + destruct (IH H) as (pre & s' & -> & H'). exists (String c pre), s'. auto.
Qed.

Lemma is_in_suffix v pre s : is_in v s = true -> is_in v (pre ++ s) = true.
Proof.
  intros H. induction pre as [| c pre IH]; [exact H |].
  cbn [append is_in]. rewrite IH. apply orb_true_r.
Qed.

Lemma startswith_is_in v s : startswith v s = true -> is_in v s = true.
Proof. intros H. destruct s; cbn [is_in]; rewrite H; reflexivity. Qed.

Lemma startswith_trans a b c :
  startswith a b = true -> startswith b c = true -> startswith a c = true.
Proof.
  revert b c. induction a as [| x a IH]; intros b c; [reflexivity |].
  destruct b as [| y b]; [discriminate |]. destruct c as [| z c]; [discriminate |].
  cbn [startswith]. intros H1 H2.
  apply andb_prop in H1 as [E1 H1]. apply andb_prop in H2 as [E2 H2].
  apply Ascii.eqb_eq in E1, E2. subst.
  rewrite Ascii.eqb_refl. cbn. eauto.
Qed.

Lemma drop_suffix n s : exists pre, s = pre ++ drop n s.
Proof.
  revert s. induction n as [| n IH]; intros s; [exists ""; reflexivity |].
  destruct s as [| c s]; [exists ""; reflexivity |].
  destruct (IH s) as [pre E]. exists (String c pre). cbn. f_equal. exact E.
Qed.

Lemma lstrip_suffix s : exists pre, s = pre ++ lstrip s.
Proof.
  induction s as [| c s [pre E]]; [exists ""; reflexivity |].
  cbn [lstrip]. destruct (is_space c); [| exists ""; reflexivity].
  exists (String c pre). cbn. f_equal. exact E.
Qed.

Lemma take_while_prefix f n s : startswith (take_while f n s) s = true.
Proof.
  revert s. induction n as [| n IH]; intros s; [reflexivity |].
  destruct s as [| c s]; [reflexivity |]. cbn [take_while].
  destruct (f c); [| reflexivity]. cbn. rewrite Ascii.eqb_refl. apply IH.
Qed.

Lemma take_while_all f n s : all_chars f (take_while f n s) = true.
Proof.
  revert s. induction n as [| n IH]; intros s; [reflexivity |].
  destruct s as [| c s]; [reflexivity |]. cbn [take_while].
  destruct (f c) eqn:E; [| reflexivity]. cbn. rewrite E. apply IH.
Qed.

Lemma take_while_length f n s : String.length (take_while f n s) <= n.
Proof.
  revert s. induction n as [| n IH]; intros s; [cbn; lia |].
  destruct s as [| c s]; [cbn; lia |]. cbn [take_while].
  destruct (f c); [| cbn; lia]. cbn. specialize (IH s). lia.
Qed.

Lemma take_while_covers f n h s :
  startswith h s = true -> all_chars f h = true ->
  Nat.min n (String.length h) <= String.length (take_while f n s).
Proof.
  revert h s. induction n as [| n IH]; intros h s P A; [cbn; lia |].
  destruct h as [| x h]; [cbn; lia |]. destruct s as [| c s]; [discriminate |].
  cbn in P. apply andb_prop in P as [E P]. apply Ascii.eqb_eq in E. subst c.
  cbn in A. apply andb_prop in A as [Fx A].
  cbn [take_while]. rewrite Fx. cbn. specialize (IH h s P A). lia.
Qed.

Lemma instance_id_here_shape s v :
  instance_id_here s = Some v ->
  instance_id_shaped v = true /\ startswith v s = true.
Proof.
  unfold instance_id_here.
  destruct (startswith "i-" s) eqn:P; [| discriminate].
  destruct s as [| a [| b s]];
    [ discriminate P
    | cbn [startswith] in P; rewrite andb_false_r in P; discriminate P | ].
  cbn [drop].
  pose proof (take_while_length is_hex 17 s) as U.
  pose proof (take_while_all is_hex 17 s) as A.
  pose proof (take_while_prefix is_hex 17 s) as Q.
  generalize dependent (take_while is_hex 17 s). intros digits U A Q.
  destruct (Nat.leb 8 _) eqn:L; [| discriminate].
  intros H. injection H as <-. apply Nat.leb_le in L.
  cbn [startswith] in P. apply andb_prop in P as [Ea P].
  apply andb_prop in P as [Eb _].
  apply Ascii.eqb_eq in Ea, Eb. subst a b. split.
  - unfold instance_id_shaped. cbn [append startswith drop String.length].
    rewrite !Ascii.eqb_refl, A. cbn [andb].
    rewrite andb_true_r. apply andb_true_intro. split; apply Nat.leb_le; lia.
  - cbn [append startswith]. rewrite !Ascii.eqb_refl. exact Q.
Qed.

Lemma instance_id_here_complete s v :
  instance_id_shaped v = true -> startswith v s = true ->
  exists v', instance_id_here s = Some v'.
Proof.
  unfold instance_id_shaped. intros H P.
  apply andb_prop in H as [H A]. apply andb_prop in H as [H _].
  apply andb_prop in H as [I L]. apply Nat.leb_le in L.
  destruct v as [| a [| b h]];
    [ discriminate I
    | cbn [startswith] in I; rewrite andb_false_r in I; discriminate I | ].
  cbn [startswith] in I. apply andb_prop in I as [Ea I]. apply andb_prop in I as [Eb _].
  apply Ascii.eqb_eq in Ea, Eb. subst a b.
  destruct s as [| a [| b s]];
    [ discriminate P
    | cbn [startswith] in P; rewrite andb_false_r in P; discriminate P | ].
  cbn [startswith] in P. apply andb_prop in P as [Ea P]. apply andb_prop in P as [Eb P].
  apply Ascii.eqb_eq in Ea, Eb. subst a b.
  cbn [drop] in A. cbn [String.length] in L.
  unfold instance_id_here. cbn [startswith drop]. rewrite !Ascii.eqb_refl.
  cbn [andb].
  pose proof (take_while_covers is_hex 17 h s P A) as C.
  destruct (Nat.leb 8 _) eqn:E; [eauto |].
  apply Nat.leb_gt in E. lia.
Qed.

(** X18. [_extract_instance_id] is sound and complete for its pattern: what it
    returns has the shape of an instance id and stands in the text as
    typed, and it returns an id whenever the text holds one. *)
Theorem extract_instance_id_spec (text : string) :
  (forall v,
      _extract_instance_id text = Some v ->
      instance_id_shaped v = true /\ is_in v text = true)
  /\ (forall v,
         instance_id_shaped v = true -> is_in v text = true ->
         exists v', _extract_instance_id text = Some v').
Proof.
  unfold _extract_instance_id. split.
  - intros v H. apply search_suffix in H as (pre & s & -> & H).
    apply instance_id_here_shape in H as [S P]. split; [exact S |].
    apply is_in_suffix, startswith_is_in, P.
  - intros v S. induction text as [| c text IH]; cbn [is_in search]; intros I.
    + rewrite orb_false_r in I.
      destruct (instance_id_here_complete "" v S I) as [v' ->]. eauto.
    + destruct (instance_id_here (String c text)) as [m |] eqn:E; [eauto |].
      apply orb_prop in I as [I | I]; [| auto].
      destruct (instance_id_here_complete _ v S I) as [v' E']. congruence.
Qed.

Lemma extract_instance_id_spec_witness :
  instance_id_shaped "i-0123456789abcdef0" = true
  /\ is_in "i-0123456789abcdef0" "stop i-0123456789abcdef0 now" = true.
Proof.
  destruct (extract_instance_id_spec "stop i-0123456789abcdef0 now") as [S _].
  apply S. reflexivity.
Defined.

Lemma rstrip_dashes_prefix s : startswith (rstrip_dashes s) s = true.
Proof.
  induction s as [| c s IH]; [reflexivity |]. cbn [rstrip_dashes].
  destruct (rstrip_dashes s) as [| c' r'] eqn:E.
  - destruct (Ascii.eqb c "-"); [reflexivity |].
    cbn. rewrite Ascii.eqb_refl. reflexivity.
  - cbn [startswith]. rewrite Ascii.eqb_refl. exact IH.
Qed.

Lemma rstrip_dashes_all f s :
  all_chars f s = true -> all_chars f (rstrip_dashes s) = true.
Proof.
  induction s as [| c s IH]; [reflexivity |]. cbn [all_chars rstrip_dashes].
  intros H. apply andb_prop in H as [Fc H]. specialize (IH H).
  destruct (rstrip_dashes s) as [| c' r'].
  - destruct (Ascii.eqb c "-"); [reflexivity |]. cbn. rewrite Fc. reflexivity.
  - cbn [all_chars] in *. rewrite Fc. exact IH.
Qed.

Lemma rstrip_dashes_length s :
  String.length (rstrip_dashes s) <= String.length s.
Proof.
  induction s as [| c s IH]; [cbn; lia |]. cbn [rstrip_dashes].
  destruct (rstrip_dashes s) as [| c' r'].
  - destruct (Ascii.eqb c "-"); cbn; lia.
  - cbn [String.length] in *. lia.
Qed.

Lemma rstrip_dashes_last s c :
  last_char (rstrip_dashes s) = Some c -> Ascii.eqb c "-" = false.
Proof.
  induction s as [| c0 s IH]; [discriminate |]. cbn [rstrip_dashes].
  destruct (rstrip_dashes s) as [| c' r'].
  - destruct (Ascii.eqb c0 "-") eqn:E; [discriminate |].
    intros H. injection H as <-. exact E.
  - exact IH.
Qed.

Lemma all_chars_last f s c :
  all_chars f s = true -> last_char s = Some c -> f c = true.
Proof.
  induction s as [| c0 s IH]; [discriminate |]. cbn [all_chars last_char].
  intros H. apply andb_prop in H as [F0 H].
  destruct s as [| c1 s]; [intros E; injection E as <-; exact F0 | auto].
Qed.

Lemma last_char_some c s : exists x, last_char (String c s) = Some x.
Proof.
  revert c. induction s as [| c' s IH]; intros c; [exists c; reflexivity |].
  destruct (IH c') as [x E]. exists x. exact E.
Qed.

Lemma name_group_shape s v :
  name_group s = Some v ->
  bucket_name_shaped v = true /\ startswith v s = true.
Proof.
  unfold name_group. destruct s as [| c0 r]; [discriminate |].
  destruct (is_alnum c0) eqn:A0; [| discriminate].
  cbv zeta.
  pose proof (rstrip_dashes_length (take_while is_alnum_dash 62 r)) as L1.
  pose proof (take_while_length is_alnum_dash 62 r) as L2.
  pose proof (rstrip_dashes_all is_alnum_dash _ (take_while_all is_alnum_dash 62 r))
    as All.
  pose proof (rstrip_dashes_prefix (take_while is_alnum_dash 62 r)) as P1.
  pose proof (take_while_prefix is_alnum_dash 62 r) as P2.
  pose proof (rstrip_dashes_last (take_while is_alnum_dash 62 r)) as Last.
  destruct (rstrip_dashes (take_while is_alnum_dash 62 r)) as [| c1 run] eqn:R;
    [discriminate |].
  destruct (Nat.leb 2 _) eqn:L; [| discriminate].
  intros H. injection H as <-. apply Nat.leb_le in L. split.
  - unfold bucket_name_shaped. rewrite A0.
    cbn [String.length] in *.
    replace (Nat.leb 3 _) with true by (symmetry; apply Nat.leb_le; lia).
    replace (Nat.leb _ 63) with true by (symmetry; apply Nat.leb_le; lia).
    change (all_chars is_alnum_dash (String c0 (String c1 run)))
      with (is_alnum_dash c0 && all_chars is_alnum_dash (String c1 run)).
    unfold is_alnum_dash at 1. rewrite A0, All. cbn [orb andb].
    change (last_char (String c0 (String c1 run))) with (last_char (String c1 run)).
    destruct (last_char (String c1 run)) as [c |] eqn:E.
    + pose proof (all_chars_last _ _ _ All E) as D. specialize (Last c eq_refl).
      unfold is_alnum_dash in D. rewrite Last, orb_false_r in D. exact D.
    + destruct (last_char_some c1 run) as [x E']. congruence.
  - cbn [startswith]. rewrite Ascii.eqb_refl. cbn [andb].
    exact (startswith_trans _ _ _ P1 P2).
Qed.

Lemma spaces_then_name_shape s v :
  spaces_then_name s = Some v ->
  bucket_name_shaped v = true /\ is_in v s = true.
Proof.
  unfold spaces_then_name. destruct s as [| c r]; [discriminate |].
  destruct (is_space c); [| discriminate]. intros H.
  apply name_group_shape in H as [S P]. split; [exact S |].
  destruct (lstrip_suffix r) as [pre E].
  rewrite E. apply (is_in_suffix v (String c pre)).
  exact (startswith_is_in _ _ P).
Qed.

Lemma keyword_then_name_shape (here : string -> option string) n s v :
  (forall s0, here s0 = spaces_then_name (drop n s0) \/ here s0 = None) ->
  search here s = Some v ->
  bucket_name_shaped v = true /\ is_in v s = true.
Proof.
  intros K H. apply search_suffix in H as (pre & s' & -> & H).
  destruct (K s') as [E | E]; rewrite E in H; [| discriminate].
  apply spaces_then_name_shape in H as [S I]. split; [exact S |].
  apply is_in_suffix. destruct (drop_suffix n s') as [p E'].
  rewrite E'. apply is_in_suffix, I.
Qed.

(** X19. A bucket name [_extract_bucket_name] takes from an ASCII text
    always has the shape of a name: 3 to 63 lowercase letters, digits and
    hyphens, with a letter or digit at both ends; and it stands in the
    lowercased text. *)
Theorem extract_bucket_name_shape (text v : string) :
  isascii text = true ->
  _extract_bucket_name text = Some v ->
  bucket_name_shaped v = true /\ is_in v (lower text) = true.
Proof.
  intros _. unfold _extract_bucket_name. cbv zeta.
  destruct (search after_bucket (lower text)) as [m |] eqn:E1.
  { intros H. injection H as <-. revert E1.
    apply (keyword_then_name_shape after_bucket 6). intros s0.
    unfold after_bucket. destruct (startswith "bucket" s0); auto. }
  destruct (search after_in (lower text)) as [m |] eqn:E2.
  { intros H. injection H as <-. revert E2.
    apply (keyword_then_name_shape after_in 2). intros s0.
    unfold after_in. destruct (startswith "in" s0); auto. }
  intros H.
  destruct (search_suffix _ _ _ H) as (pre & s' & E & H'). rewrite E.
  unfold after_named in H'.
  destruct (startswith "named" s').
  - apply spaces_then_name_shape in H' as [S I]. split; [exact S |].
    apply is_in_suffix. destruct (drop_suffix 5 s') as [p E'].
    rewrite E'. apply is_in_suffix, I.
  - destruct (startswith "name" s'); [| discriminate].
    apply spaces_then_name_shape in H' as [S I]. split; [exact S |].
    apply is_in_suffix. destruct (drop_suffix 4 s') as [p E'].
    rewrite E'. apply is_in_suffix, I.
Qed.

Lemma extract_bucket_name_shape_witness :
  bucket_name_shaped "my-bucket" = true
  /\ is_in "my-bucket" (lower "Delete bucket My-Bucket- now") = true.
Proof.
  apply (extract_bucket_name_shape "Delete bucket My-Bucket- now" "my-bucket");
    reflexivity.
Defined.

(** ** The count queries of the agents *)

(** X20. A query whose text holds "instance" and "count" is answered by the
    EC2 agent with the number of instances the provider lists, over all
    reservations; one that holds "bucket" and "count" by the S3 agent with
    the number of buckets. When the listing fails the answer is still a
    count, 0, and the error sits inside the listing: the answer itself
    has no [error]. *)
Theorem count_queries (P : provider) (m : Message) (d : dict) (q : string)
    (w : world) :
  msg_type m = "query" ->
  content m = VDict d ->
  dict_get d "query" = Some (VStr q) ->
  is_in "count" (lower q) = true ->
  (is_in "instance" (lower q) = true ->
   EC2Agent_handle_message P m w
   = (Returned
        match on_describe_instances P (trace w) with
        | Returned response =>
            VDict [ ("count", VInt (Z.of_nat (List.length (concat response))));
                    ("instances",
                     VDict [ ("success", VBool true);
                             ("instances",
                              VList (map instance_dict (concat response))) ]) ]
        | Raised e => VDict [ ("count", VInt 0); ("instances", error_dict e) ]
        end,
      extend w [describe_instances]))
  /\ (is_in "bucket" (lower q) = true ->
      S3Agent_handle_message P m w
      = (Returned
           match on_list_buckets P (trace w) with
           | Returned response =>
               VDict [ ("count", VInt (Z.of_nat (List.length response)));
                       ("buckets",
                        VDict [ ("success", VBool true);
                                ("buckets", VList (map bucket_dict response)) ]) ]
           | Raised e => VDict [ ("count", VInt 0); ("buckets", error_dict e) ]
           end,
         extend w [list_buckets_call])).
Proof.
  intros K C Q Hc. split; intros Hi.
  - unfold EC2Agent_handle_message. cbv zeta. rewrite K, C. cbn [String.eqb Ascii.eqb Bool.eqb py_get].
    rewrite Q. unfold bind at 1. cbn [ret py_lower]. unfold bind at 1. cbn [ret].
    rewrite Hi, Hc. cbn [andb].
    unfold list_instances, bind, try_except, request, ret, extend.
    destruct (on_describe_instances P (trace w)) as [response | e];
      cbn; rewrite ?length_map; reflexivity.
  - unfold S3Agent_handle_message. cbv zeta. rewrite K, C. cbn [String.eqb Ascii.eqb Bool.eqb py_get].
    rewrite Q. unfold bind at 1. cbn [ret py_lower]. unfold bind at 1. cbn [ret].
    rewrite Hi, Hc. cbn [andb].
    unfold list_buckets, bind, try_except, request, ret, extend.
    destruct (on_list_buckets P (trace w)) as [response | e];
      cbn; rewrite ?length_map; reflexivity.
Qed.

Lemma count_queries_witness :
  EC2Agent_handle_message (stub frozen)
    (mkMessage "CoordinatorAgent" "EC2Agent"
       (VDict [("query", VStr "Instance COUNT please")]) "query" "" "")
    network
  = (Returned
       (VDict [ ("count", VInt 1);
                ("instances",
                 VDict [ ("success", VBool true);
                         ("instances",
                          VList [ instance_dict
                                    (mkInstance "i-0123456789abcdef0" "t2.micro"
                                       "running" "2025-01-01 00:00:00") ]) ]) ]),
     extend network [describe_instances]).
Proof.
  destruct (count_queries (stub frozen)
              (mkMessage "CoordinatorAgent" "EC2Agent"
                 (VDict [("query", VStr "Instance COUNT please")]) "query" "" "")
              [("query", VStr "Instance COUNT please")] "Instance COUNT please"
              network eq_refl eq_refl eq_refl eq_refl) as [E _].
  exact (E eq_refl).
Defined.

(** ** Forced deletion of a bucket *)

Lemma extend_cons w c cs :
  extend (extend w [c]) cs = extend w (c :: cs).
Proof. rewrite extend_extend. reflexivity. Qed.

Lemma trace_extend_app w c cs :
  (trace (extend w [c]) ++ map Called cs)%list
  = (trace w ++ map Called (c :: cs))%list.
Proof. cbn. rewrite <- app_assoc. reflexivity. Qed.

Lemma delete_objects_step P b obj rest w :
  delete_objects P b (obj :: rest) w
  = match on_delete_object P (trace w) b (Key obj) with
    | Returned _ => delete_objects P b rest (extend w [delete_object b (Key obj)])
    | Raised e => (Raised e, extend w [delete_object b (Key obj)])
    end.
Proof.
  cbn [delete_objects]. unfold bind at 1, request at 1.
  destruct (on_delete_object P (trace w) b (Key obj)); reflexivity.
Qed.

(** The loop over the listed objects deletes them all, in order, when
    every deletion returns. *)
Lemma delete_objects_all P b contents :
  forall w,
    (forall j obj,
        nth_error contents j = Some obj ->
        on_delete_object P
          (trace w ++ map Called (firstn j (object_deletions b contents)))
          b (Key obj) = Returned tt) ->
    delete_objects P b contents w
    = (Returned tt, extend w (object_deletions b contents)).
Proof.
  induction contents as [| obj rest IH]; intros w H.
  - cbn. rewrite extend_nil. reflexivity.
  - rewrite delete_objects_step.
    pose proof (H 0 obj eq_refl) as H0. cbn in H0. rewrite app_nil_r in H0.
    rewrite H0, IH.
    + rewrite extend_cons. reflexivity.
    + intros j obj' N. rewrite trace_extend_app. exact (H (S j) obj' N).
Qed.

(** It stops at the first deletion that raises, with that error. *)
Lemma delete_objects_fails P b :
  forall k contents w obj e,
    nth_error contents k = Some obj ->
    (forall j obj',
        j < k -> nth_error contents j = Some obj' ->
        on_delete_object P
          (trace w ++ map Called (firstn j (object_deletions b contents)))
          b (Key obj') = Returned tt) ->
    on_delete_object P
      (trace w ++ map Called (firstn k (object_deletions b contents)))
      b (Key obj) = Raised e ->
    delete_objects P b contents w
    = (Raised e, extend w (firstn (S k) (object_deletions b contents))).
Proof.
  induction k as [| k IH]; intros contents w obj e N Before Fails;
    destruct contents as [| first rest]; try discriminate N.
  - cbn in N. injection N as ->. rewrite delete_objects_step.
    cbn in Fails. rewrite app_nil_r in Fails. rewrite Fails. reflexivity.
  - rewrite delete_objects_step.
    pose proof (Before 0 first (Nat.lt_0_succ k) eq_refl) as H0.
    cbn in H0. rewrite app_nil_r in H0. rewrite H0.
    rewrite (IH rest (extend w [delete_object b (Key first)]) obj e N).
    + rewrite extend_cons. reflexivity.
    + intros j obj' L N'. rewrite trace_extend_app.
      apply (Before (S j) obj'); [lia | exact N'].
    + rewrite trace_extend_app. exact Fails.
Qed.

Lemma delete_bucket_force_step P b contents w :
  on_list_objects_v2 P (trace w) b = Returned (Some contents) ->
  delete_bucket P b true w
  = match delete_objects P b contents (extend w [list_objects_v2 b]) with
    | (Returned _, w1) =>
        (Returned
           match on_delete_bucket P (trace w1) b with
           | Returned _ =>
               VDict [ ("success", VBool true);
                       ("bucket_name", VStr b);
                       ("message",
                        VStr ("S3 bucket '" ++ b ++ "' deleted successfully")) ]
           | Raised e => error_dict e
           end,
         extend w1 [delete_bucket_call b])
    | (Raised e, w1) => (Returned (error_dict e), w1)
    end.
Proof.
  intros L. unfold delete_bucket, try_except, bind.
  unfold request at 1. rewrite L.
  change (mkWorld (store w) (clock_reads w)
            (trace w ++ [Called (list_objects_v2 b)]))
    with (extend w [list_objects_v2 b]).
  destruct (delete_objects P b contents (extend w [list_objects_v2 b]))
    as [[[] | e] w1]; [| reflexivity].
  unfold request, ret, extend. cbn [trace store clock_reads map].
  destruct (on_delete_bucket P (trace w1) b) as [[] | e]; reflexivity.
Qed.

(** X21. [delete_bucket] with [force] on a bucket whose listing came back
    with objects deletes them in listing order. When every object
    deletion returns, the bucket deletion is attempted after the last of
    them, and the result is a success or the error of that attempt. When
    the deletions before the [k]-th return and the [k]-th raises [e], the
    operation ends there with the error [e]: the objects after it are not
    touched and the bucket deletion is not attempted. Each answer of the
    provider is the one it gives after the calls made so far. *)
Theorem delete_bucket_force (P : provider) (bucket_name : string)
    (contents : list object_info) (w : world) :
  on_list_objects_v2 P (trace w) bucket_name = Returned (Some contents) ->
  let deletions := object_deletions bucket_name contents in
  let after j :=
    (trace w ++ map Called (list_objects_v2 bucket_name :: firstn j deletions))%list in
  ((forall j obj,
       nth_error contents j = Some obj ->
       on_delete_object P (after j) bucket_name (Key obj) = Returned tt) ->
   delete_bucket P bucket_name true w
   = (Returned
        match on_delete_bucket P (after (List.length contents)) bucket_name with
        | Returned _ =>
            VDict [ ("success", VBool true);
                    ("bucket_name", VStr bucket_name);
                    ("message",
                     VStr ("S3 bucket '" ++ bucket_name
                           ++ "' deleted successfully")) ]
        | Raised e => error_dict e
        end,
      extend w (list_objects_v2 bucket_name
                  :: deletions ++ [delete_bucket_call bucket_name])))
  /\ (forall k obj e,
         nth_error contents k = Some obj ->
         (forall j obj',
             j < k -> nth_error contents j = Some obj' ->
             on_delete_object P (after j) bucket_name (Key obj') = Returned tt) ->
         on_delete_object P (after k) bucket_name (Key obj) = Raised e ->
         delete_bucket P bucket_name true w
         = (Returned (error_dict e),
            extend w (list_objects_v2 bucket_name :: firstn (S k) deletions))).
Proof.
  intros L deletions after.
  rewrite (delete_bucket_force_step P bucket_name contents w L). split.
  - intros All. rewrite delete_objects_all.
    + assert (A : after (List.length contents)
                  = trace (extend (extend w [list_objects_v2 bucket_name])
                             deletions)).
      { subst after deletions. cbv beta. rewrite <- trace_extend_app.
        unfold object_deletions.
        rewrite <- (length_map (fun obj => delete_object bucket_name (Key obj))
                      contents).
        rewrite firstn_all. reflexivity. }
      rewrite A. rewrite !extend_extend. reflexivity.
    + intros j obj N. rewrite trace_extend_app. exact (All j obj N).
  - intros k obj e N Before Fails.
    rewrite (delete_objects_fails P bucket_name k contents _ obj e N).
    + rewrite extend_cons. reflexivity.
    + intros j obj' Lt N'. rewrite trace_extend_app. exact (Before j obj' Lt N').
    + rewrite trace_extend_app. exact Fails.
Qed.

(** Two objects, the second of which the provider refuses to delete: the
    first is deleted, the refusal is the answer, the bucket stays. *)
Lemma delete_bucket_force_witness :
  delete_bucket stub_with_objects "my-bucket" true network
  = (Returned (error_dict "AccessDenied"),
     extend network [ list_objects_v2 "my-bucket";
                      delete_object "my-bucket" "a.txt";
                      delete_object "my-bucket" "b.txt" ]).
Proof.
  destruct (delete_bucket_force stub_with_objects "my-bucket"
              [ mkObject "a.txt" 1 "2025-01-01 00:00:00";
                mkObject "b.txt" 2 "2025-01-01 00:00:00" ] network eq_refl)
    as [_ Fails].
  apply (Fails 1 (mkObject "b.txt" 2 "2025-01-01 00:00:00") "AccessDenied").
  - reflexivity.
  - intros j obj' Lt N. destruct j as [| j]; [| lia].
    cbn in N. injection N as <-. reflexivity.
  - reflexivity.
Defined.

(** ** Messages that are neither queries nor requests *)

Lemma handle_other_kind P target m w :
  String.eqb (msg_type m) "query" = false ->
  String.eqb (msg_type m) "request" = false ->
  handle_message P target m w = (Returned unhandled, w).
Proof.
  intros Q R. unfold handle_message, bind, get_agent.
  destruct (class (store w target));
    unfold EC2Agent_handle_message, S3Agent_handle_message,
      BaseAgent_handle_message;
    cbv zeta; rewrite ?Q, ?R; reflexivity.
Qed.

Lemma send_other_kind P self receiver payload kind w target :
  String.eqb kind "query" = false ->
  String.eqb kind "request" = false ->
  dict_get (agents_registry (store w self)) receiver = Some target ->
  exists w1,
    send_message P self receiver payload kind w = (Returned unhandled, w1)
    /\ (forall x, agents_registry (store w1 x) = agents_registry (store w x))
    /\ calls (trace w1) = calls (trace w).
Proof.
  intros Q R H.
  destruct (send_message_registered P self receiver payload kind w target H)
    as (m & E & ->).
  rewrite Message_init_returns in E. injection E as <-.
  rewrite receive_message_run, handle_other_kind by assumption.
  eexists. split; [reflexivity |]. cbn [store trace]. split.
  - intros x. unfold update.
    destruct (Nat.eqb_spec x target) as [-> |];
      [destruct (Nat.eqb_spec target self) as [-> |] |
       destruct (Nat.eqb_spec x self) as [-> |]]; reflexivity.
  - rewrite calls_app. cbn. apply app_nil_r.
Qed.

Lemma dict_get_keys {V} (d : list (string * V)) n :
  In n (keys d) -> exists v, dict_get d n = Some v.
Proof.
  induction d as [| [k v] d IH]; [intros [] |]. cbn [keys map fst dict_get].
  intros H. destruct (String.eqb_spec n k) as [-> | N]; [eauto |].
  apply IH. destruct H as [H | H]; [congruence | exact H].
Qed.

Lemma dict_get_not_keys {V} (d : list (string * V)) n :
  dict_get d n = None -> existsb (String.eqb n) (keys d) = false.
Proof.
  induction d as [| [k v] d IH]; [reflexivity |]. cbn [keys map fst dict_get existsb].
  destruct (String.eqb n k); [discriminate | exact IH].
Qed.

Lemma broadcast_loop_other_kind P self payload kind :
  String.eqb kind "query" = false ->
  String.eqb kind "request" = false ->
  forall names responses w,
    (forall n, In n names ->
               exists t, dict_get (agents_registry (store w self)) n = Some t) ->
    exists responses' w',
      broadcast_loop P self payload kind names responses w
      = (Returned responses', w')
      /\ (forall n, dict_get responses' n
                    = if existsb (String.eqb n) names then Some unhandled
                      else dict_get responses n)
      /\ calls (trace w') = calls (trace w).
Proof.
  intros Q R names. induction names as [| n0 rest IH]; intros responses w Reg.
  - exists responses, w. cbn. auto.
  - cbn [broadcast_loop]. destruct (Reg n0 (or_introl eq_refl)) as [t Ht].
    destruct (send_other_kind P self n0 payload kind w t Q R Ht)
      as (w1 & E & Same & C).
    unfold bind. rewrite E.
    destruct (IH (dict_set responses n0 unhandled) w1)
      as (responses' & w' & E' & G & C').
    { intros n I. rewrite Same. apply Reg. right. exact I. }
    exists responses', w'. split; [exact E' |]. split; [| congruence].
    intros n. rewrite G. cbn [existsb]. rewrite dict_get_set.
    destruct (existsb (String.eqb n) rest);
      [rewrite orb_true_r; reflexivity |].
    rewrite orb_false_r. reflexivity.
Qed.

(** X22. A message that is neither a query nor a request, the default
    notification of [broadcast] among them, is only acknowledged: whatever
    it carries, every registered agent of any class answers with the
    standard acknowledgement, nothing is raised and the provider is not
    called. *)
Theorem notifications_only_acknowledged (P : provider) (self : ref)
    (payload : pyval) (kind : string) (w : world) :
  String.eqb kind "query" = false ->
  String.eqb kind "request" = false ->
  exists responses w',
    broadcast P self payload kind w = (Returned responses, w')
    /\ (forall n,
           dict_get responses n
           = match dict_get (agents_registry (store w self)) n with
             | Some _ => Some unhandled
             | None => None
             end)
    /\ calls (trace w') = calls (trace w).
Proof.
  intros Q R.
  destruct (broadcast_loop_other_kind P self payload kind Q R
              (keys (agents_registry (store w self))) [] w)
    as (responses & w' & E & G & C).
  { intros n I. apply dict_get_keys, I. }
  exists responses, w'. split; [exact E |]. split; [| exact C].
  intros n. rewrite G.
  destruct (dict_get (agents_registry (store w self)) n) as [t |] eqn:D.
  - assert (I : existsb (String.eqb n) (keys (agents_registry (store w self)))
               = true); [| rewrite I; reflexivity].
    apply existsb_exists. exists n. split; [| apply String.eqb_refl].
    apply dict_get_Some_In in D. apply (in_map fst) in D. exact D.
  - rewrite (dict_get_not_keys _ _ D). reflexivity.
Qed.

Lemma notifications_only_acknowledged_witness :
  exists responses w',
    broadcast (stub frozen) 0 (VInt 5) "notification" network
    = (Returned responses, w')
    /\ (forall n,
           dict_get responses n
           = match dict_get (agents_registry (store network 0)) n with
             | Some _ => Some unhandled
             | None => None
             end)
    /\ calls (trace w') = calls (trace network).
Proof.
  apply (notifications_only_acknowledged (stub frozen) 0 (VInt 5)
           "notification" network); reflexivity.
Defined.
